(** * new-city: grid placement, depth sort, tick economy and persistence

    A shallow embedding of the Phaser theme game that ships with the
    repository.  The functions embedded here are

    - [BuildingRegistry.js]: [BuildingRegistry], [getBuildingConfig], [isMultiTile];
    - [Tile.js]: the fields of a [Tile] that the game logic reads and writes;
    - [GridManager.js]: [initGrid], [getGridData], [placeTile],
      [clearMultiTile], [countTiles], [updateDepths], [isValidCoord];
    - [GameScene.js]: [saveGame], [loadGame], [getEffectiveHappiness],
      [calculateIncome], [handleTick], [updateMoney], [updateHappiness],
      [updatePopulation], [incrementCost].

    Numbers.  A JavaScript number is modelled as an exact rational [Q]:
    the arithmetic of the game is additions of small decimal constants,
    one multiplication and [Math.floor]/[Math.round]; the rounding of IEEE
    doubles is outside the model.  Grid coordinates are integers ([Z]):
    they are loop indices or results of [Math.floor].

    Objects.  [scene.costs] is a JS object used as a map from type names to
    numbers: a [gmap string Q].  [this.grid] is an array of arrays of tiles:
    a [list (list Tile)]; reading an entry that does not exist yields
    [undefined], and dereferencing it throws a [TypeError], which the model
    makes explicit.  A tile is identified with its slot in the grid (the
    slots are only assigned by [initGrid]), so the aliases [oldTile],
    [master] and [tile] of the source are reads and writes of that slot. *)

From Stdlib Require Import ZArith QArith Qround Qabs Lia Lqa.
From stdpp Require Import gmap strings list fin_maps sorting.

Local Open Scope Z_scope.

(** ** JavaScript numbers *)

Module Js.

(** [Math.floor], as a number again. *)
Definition floor (x : Q) : Q := inject_Z (Qfloor x).

(** [Math.round]: the nearest integer, halves rounded towards plus infinity. *)
Definition round (x : Q) : Q := inject_Z (Qfloor (x + (1 # 2))).

(** [Math.max], [Math.min] and [Math.abs]. *)
Definition max (x y : Q) : Q := if Qlt_le_dec x y then y else x.
Definition min (x y : Q) : Q := if Qlt_le_dec y x then y else x.
Definition abs (x : Q) : Q := Qabs x.

(** [Phaser.Math.Clamp(value, min, max)] is [Math.max(min, Math.min(max, value))]. *)
Definition Clamp (value lo hi : Q) : Q := max lo (min hi value).

(** Truthiness of an optional number: [undefined] and [0] are falsy. *)
Definition truthy (x : option Q) : bool :=
  match x with
  | Some q => if Qeq_dec q 0 then false else true
  | None => false
  end.

(** [a || b] on an optional number [a]. *)
Definition or_else (a : option Q) (b : Q) : Q :=
  match a with
  | Some q => if Qeq_dec q 0 then b else q
  | None => b
  end.

End Js.

(** ** BuildingRegistry.js

    [floatText] and [visualOffset] only feed the display and are left out.

    The registry is an object literal, so a lookup [BuildingRegistry[type]]
    also finds the members every object inherits from [Object.prototype]
    ([constructor], [toString], ...).  Such a member is truthy and has none
    of the properties of an entry. *)

Record Effects := mkEffects {
  eff_population : option Q;
  eff_happiness : option Q
}.

Record Requirements := mkRequirements {
  req_population : option Q
}.

(** What a lookup in the registry evaluates to: one of the entries, or a
    member inherited from [Object.prototype]. *)
Inductive BuildingConfig :=
| mkBuildingConfig (type name : string) (cost : Q) (size : Z) (effects : Effects)
    (requirements : option Requirements) (texture : string)
| InheritedMember.

Definition b_type (config : BuildingConfig) : string :=
  match config with
  | mkBuildingConfig type _ _ _ _ _ _ => type
  | InheritedMember => ""
  end.

Definition b_name (config : BuildingConfig) : string :=
  match config with
  | mkBuildingConfig _ name _ _ _ _ _ => name
  | InheritedMember => ""
  end.

(** [config.cost].  On an inherited member it is [undefined].  The code
    reads it in [costs[type] || config.cost], where for such a name
    [costs[type]] is itself the member that [costs] inherits, a function or
    an object, and then in the test [cost > 0].  That test is false for
    such a value as it is for 0, the number the model reads. *)
Definition b_cost (config : BuildingConfig) : Q :=
  match config with
  | mkBuildingConfig _ _ cost _ _ _ _ => cost
  | InheritedMember => 0
  end.

(** [config.size].  On an inherited member it is [undefined].  The code
    reads it in the test [config.size > 1] and, behind that test, as the
    bound of the loops over the footprint.  The test is false for
    [undefined] as it is for 1, the number the model reads: the footprint
    of such a name is the clicked cell, the one cell the single-tile path
    touches. *)
Definition b_size (config : BuildingConfig) : Z :=
  match config with
  | mkBuildingConfig _ _ _ size _ _ _ => size
  | InheritedMember => 1
  end.

(** [config.effects]; [None] for [undefined], where reading
    [config.effects.population] throws a [TypeError]. *)
Definition b_effects (config : BuildingConfig) : option Effects :=
  match config with
  | mkBuildingConfig _ _ _ _ effects _ _ => Some effects
  | InheritedMember => None
  end.

Definition b_requirements (config : BuildingConfig) : option Requirements :=
  match config with
  | mkBuildingConfig _ _ _ _ _ requirements _ => requirements
  | InheritedMember => None
  end.

Definition b_texture (config : BuildingConfig) : string :=
  match config with
  | mkBuildingConfig _ _ _ _ _ _ texture => texture
  | InheritedMember => ""
  end.

Definition grass_config : BuildingConfig :=
  mkBuildingConfig "grass" "Grass" 0 1 (mkEffects None None) None "grass".

Definition house_config : BuildingConfig :=
  mkBuildingConfig "house" "House" 60 1 (mkEffects (Some 1%Q) None) None "house".

Definition shop_config : BuildingConfig :=
  mkBuildingConfig "shop" "Shop" 40 1 (mkEffects None (Some (- (1 # 10))%Q)) None "shop".

Definition park_config : BuildingConfig :=
  mkBuildingConfig "park" "Park" 100 1 (mkEffects None (Some (2 # 10)%Q)) None "park".

Definition university_config : BuildingConfig :=
  mkBuildingConfig "university" "University" 1000 2
    (mkEffects (Some (- (1))%Q) (Some (5 # 10)%Q))
    (Some (mkRequirements (Some 1%Q))) "university".

Definition market_config : BuildingConfig :=
  mkBuildingConfig "market" "Market" 10000 2 (mkEffects None None) None "market".

(** The registry object, in the order of its keys. *)
Definition BuildingRegistry : list (string * BuildingConfig) :=
  [ ("grass", grass_config); ("house", house_config); ("shop", shop_config);
    ("park", park_config); ("university", university_config);
    ("market", market_config) ]%string.

(** [BuildingRegistry[type]]. *)
Fixpoint registry_get (reg : list (string * BuildingConfig)) (type : string)
  : option BuildingConfig :=
  match reg with
  | [] => None
  | (k, cfg) :: rest => if String.eqb k type then Some cfg else registry_get rest type
  end.

(** The names of the members of [Object.prototype]. *)
Definition objectPrototypeKeys : list string :=
  [ "constructor"; "toString"; "toLocaleString"; "valueOf"; "hasOwnProperty";
    "isPrototypeOf"; "propertyIsEnumerable"; "__proto__"; "__defineGetter__";
    "__defineSetter__"; "__lookupGetter__"; "__lookupSetter__" ]%string.

Definition inheritedKey (type : string) : bool :=
  existsb (String.eqb type) objectPrototypeKeys.

(** [BuildingRegistry[type] || BuildingRegistry.grass]: the entry of that
    name; for a name of [Object.prototype] the inherited member, which is
    truthy; the entry of grass otherwise. *)
Definition getBuildingConfig (type : string) : BuildingConfig :=
  match registry_get BuildingRegistry type with
  | Some cfg => cfg
  | None => if inheritedKey type then InheritedMember else grass_config
  end.

Definition isMultiTile (type : string) : bool :=
  1 <? b_size (getBuildingConfig type).

(** ** Tile.js and the scene *)

(** The fields of a tile that the logic uses: [texture.key], [isFlipped],
    [masterTile], [isMaster] and the display flag [visible].  [gridRow] and
    [gridCol] are fixed by the constructor call in [initGrid] and equal the
    indices of the slot. *)
Record Tile := mkTile {
  key : string;
  isFlipped : bool;
  masterTile : option (Z * Z);
  isMaster : bool;
  visible : bool
}.

(** One entry of the array [getGridData] returns. *)
Record TileData := mkTileData {
  td_type : string;
  td_flipped : bool;
  td_masterTile : option (Z * Z);
  td_isMaster : bool
}.

(** The [gameState] object of [saveGame]; [JSON.stringify] followed by
    [JSON.parse] returns such a plain object as it is. *)
Record GameState := mkGameState {
  gs_money : Q;
  gs_population : Q;
  gs_happiness : Q;
  gs_costs : gmap string Q;
  gs_grid : list (list TileData)
}.

(** The mutable state of a [GameScene] with its [GridManager], the flip
    flag of the preview cursor, and the entry of [localStorage]. *)
Record Scene := mkScene {
  money : Q;
  population : Q;
  happiness : Q;
  costs : gmap string Q;
  grid : list (list Tile);
  previewFlipped : bool;
  localStorage : option GameState
}.

Definition set_money (m : Q) (s : Scene) : Scene :=
  mkScene m (population s) (happiness s) (costs s) (grid s) (previewFlipped s) (localStorage s).
Definition set_population (p : Q) (s : Scene) : Scene :=
  mkScene (money s) p (happiness s) (costs s) (grid s) (previewFlipped s) (localStorage s).
Definition set_happiness (h : Q) (s : Scene) : Scene :=
  mkScene (money s) (population s) h (costs s) (grid s) (previewFlipped s) (localStorage s).
Definition set_costs (cs : gmap string Q) (s : Scene) : Scene :=
  mkScene (money s) (population s) (happiness s) cs (grid s) (previewFlipped s) (localStorage s).
Definition set_grid (g : list (list Tile)) (s : Scene) : Scene :=
  mkScene (money s) (population s) (happiness s) (costs s) g (previewFlipped s) (localStorage s).
Definition set_previewFlipped (b : bool) (s : Scene) : Scene :=
  mkScene (money s) (population s) (happiness s) (costs s) (grid s) b (localStorage s).
Definition set_localStorage (d : option GameState) (s : Scene) : Scene :=
  mkScene (money s) (population s) (happiness s) (costs s) (grid s) (previewFlipped s) d.

(** ** GameScene.js: the counters *)

Definition updateMoney (amount : Q) (s : Scene) : Scene :=
  set_money (money s + amount)%Q s.

Definition updateHappiness (amount : Q) (s : Scene) : Scene :=
  set_happiness (happiness s + amount)%Q s.

Definition updatePopulation (amount : Q) (s : Scene) : Scene :=
  set_population (population s + amount)%Q s.

Definition incrementCost (type : string) (s : Scene) : Scene :=
  match costs s !! type with
  | Some c =>
      if Qlt_le_dec 0 c
      then set_costs (<[type := Js.round (c * (11 # 10))]> (costs s)) s
      else s
  | None => s
  end.

(** [Object.values(BuildingRegistry).forEach(b => this.costs[b.type] = b.cost)] *)
Definition registryCosts : gmap string Q :=
  foldl (λ cs kb, <[b_type (snd kb) := b_cost (snd kb)]> cs) ∅ BuildingRegistry.

(** [if (config.effects.population) updatePopulation(config.effects.population);
     if (config.effects.happiness) updateHappiness(config.effects.happiness)]
    for a config that has [effects]; where it has none the first read
    throws, which the callers make explicit before they come here. *)
Definition applyEffects (config : BuildingConfig) (s : Scene) : Scene :=
  match b_effects config with
  | None => s
  | Some effects =>
      let s1 :=
        match eff_population effects with
        | Some p => if Js.truthy (Some p) then updatePopulation p s else s
        | None => s
        end in
      match eff_happiness effects with
      | Some h => if Js.truthy (Some h) then updateHappiness h s1 else s1
      | None => s1
      end
  end.

(** The same two statements with the negated amounts. *)
Definition reverseEffects (config : BuildingConfig) (s : Scene) : Scene :=
  match b_effects config with
  | None => s
  | Some effects =>
      let s1 :=
        match eff_population effects with
        | Some p => if Js.truthy (Some p) then updatePopulation (- p)%Q s else s
        | None => s
        end in
      match eff_happiness effects with
      | Some h => if Js.truthy (Some h) then updateHappiness (- h)%Q s1 else s1
      | None => s1
      end
  end.

(** ** GridManager.js *)

(** [this.grid[r][c]], [None] for [undefined]. *)
Definition gridAtN (g : list (list Tile)) (r c : nat) : option Tile :=
  g !! r ≫= λ row, row !! c.

Definition gridAt (g : list (list Tile)) (r c : Z) : option Tile :=
  if (0 <=? r) && (0 <=? c) then gridAtN g (Z.to_nat r) (Z.to_nat c) else None.

(** A write to fields of the tile in slot [(r, c)].  Every call site has
    read that slot before (or checked [isValidCoord]), so [r] and [c] are
    not negative and the slot exists. *)
Definition alterTile (f : Tile → Tile) (r c : Z) (g : list (list Tile)) : list (list Tile) :=
  alter (alter f (Z.to_nat c)) (Z.to_nat r) g.

(** The cells visited by
    [for (r = row; r < row + size; r++) for (c = col; c < col + size; c++)],
    in order. *)
Definition footprint (row col size : Z) : list (Z * Z) :=
  r ← seqZ row size; (λ c, (r, c)) <$> seqZ col size.

(** [tile.texture.key !== 'grass' || tile.masterTile] *)
Definition occupied (t : Tile) : bool :=
  negb (String.eqb (key t) "grass") || bool_decide (is_Some (masterTile t)).

Definition dataOfTile (t : Tile) : TileData :=
  mkTileData (key t) (isFlipped t) (masterTile t) (isMaster t).

(** The tile [initGrid] builds from a saved entry: a new [Tile] is not
    flipped and visible; [setFlip(true)] if [flipped]; hidden if it has a
    master and is not the master. *)
Definition tileOfData (d : TileData) : Tile :=
  mkTile (td_type d) (if td_flipped d then true else false) (td_masterTile d)
         (td_isMaster d)
         (if bool_decide (is_Some (td_masterTile d)) && negb (td_isMaster d)
          then false else true).

Definition defaultTileData : TileData := mkTileData "grass" false None false.

(** The tile after the five statements of the loop body of [clearMultiTile]. *)
Definition clearedTile (t : Tile) : Tile := mkTile "grass" false None false true.

(** How a call of [placeTile] ends: the [return] statement taken, with the
    text the source passes to [showFloatingText] there. *)
Inductive PlaceResult :=
| InvalidCoord                (* line 58: the clicked cell is outside the grid *)
| SpaceBlockedBounds          (* line 70: "SPACE BLOCKED", a footprint cell is outside the grid *)
| SpaceBlockedOccupied        (* line 77: "SPACE BLOCKED", a footprint cell is occupied *)
| OccupiedCell                (* line 93: "OCCUPIED" *)
| Unchanged                   (* line 99: same type, same orientation *)
| NeedMoney (cost : Q)        (* line 108: "NEED $cost" *)
| NeedPopulation (n : Q)      (* line 115: "NEED n" *)
| Placed                      (* the end of the function was reached *)
| ThrewTypeError.             (* a property of undefined was read: a grid entry, or [effects] *)

Section GridManager.

(** [Config.gridSize]; [Config.js] is not part of the sources at hand. *)
Variable gridSize : nat.

Definition isValidCoord (row col : Z) : bool :=
  (0 <=? row) && (row <? Z.of_nat gridSize) && (0 <=? col) && (col <? Z.of_nat gridSize).

(** *** initGrid *)

(** [savedData ? savedData[r][c] : { type: 'grass', ... }]; [None] when the
    read throws or yields [undefined], whose [.type] throws. *)
Definition savedEntry (savedData : option (list (list TileData))) (r c : nat)
  : option TileData :=
  match savedData with
  | None => Some defaultTileData
  | Some data => data !! r ≫= λ row, row !! c
  end.

(** The inner loop of [initGrid]: the tiles pushed to [this.grid[r]], and
    whether the loop ran to its end. *)
Fixpoint initCells (savedData : option (list (list TileData))) (r : nat)
    (cs : list nat) (acc : list Tile) : list Tile * bool :=
  match cs with
  | [] => (acc, true)
  | c :: cs' =>
      match savedEntry savedData r c with
      | Some d => initCells savedData r cs' (acc ++ [tileOfData d])
      | None => (acc, false)
      end
  end.

(** [this.grid[r] = row]: rows are assigned in increasing order from 0,
    so [r] is at most the length of the array. *)
Definition setRow (r : nat) (row : list Tile) (g : list (list Tile)) : list (list Tile) :=
  if (r <? length g)%nat then <[r := row]> g else g ++ [row].

Fixpoint initRows (savedData : option (list (list TileData))) (rs : list nat)
    (g : list (list Tile)) : list (list Tile) * bool :=
  match rs with
  | [] => (g, true)
  | r :: rs' =>
      let '(row, ok) := initCells savedData r (seq 0 gridSize) [] in
      let g' := setRow r row g in
      if ok then initRows savedData rs' g' else (g', false)
  end.

(** [initGrid(savedData)] on the current array [g]: the new array and
    whether it returned ([false]: a [TypeError] was thrown on the way). *)
Definition initGrid (savedData : option (list (list TileData))) (g : list (list Tile))
  : list (list Tile) * bool :=
  initRows savedData (seq 0 gridSize) g.

(** *** getGridData; [None] when [this.grid[r][c]] is undefined. *)
Definition getGridData (g : list (list Tile)) : option (list (list TileData)) :=
  mapM (λ r, mapM (λ c, dataOfTile <$> gridAtN g r c) (seq 0 gridSize)) (seq 0 gridSize).

(** *** saveGame *)
Definition saveGame (s : Scene) : option Scene :=
  data ← getGridData (grid s);
  Some (set_localStorage
          (Some (mkGameState (money s) (population s) (happiness s) (costs s) data)) s).

(** *** loadGame

    [{ ...this.costs, ...gameState.costs }] keeps every key of both
    objects, with the saved value where both have one.  When [initGrid]
    throws, the [catch] block only logs: the assignments made before stay. *)
Definition loadGame (s : Scene) : Scene :=
  match localStorage s with
  | None => s
  | Some gameState =>
      let s1 := set_money (gs_money gameState) s in
      let s2 := set_population (gs_population gameState) s1 in
      let s3 := set_happiness (gs_happiness gameState) s2 in
      let s4 := set_costs (gs_costs gameState ∪ costs s3) s3 in
      let '(g, ok) := initGrid (Some (gs_grid gameState)) (grid s4) in
      let s5 := set_grid g s4 in
      if ok then updateHappiness 0 (updatePopulation 0 (updateMoney 0 s5)) else s5
  end.

(** The scene after the constructor and [create()], for a given content
    of [localStorage]. *)
Definition newScene (stored : option GameState) : Scene :=
  let s0 := mkScene 100 0 1 registryCosts [] false stored in
  loadGame (set_grid (fst (initGrid None [])) s0).

(** *** clearMultiTile *)

Fixpoint clearCells (coords : list (Z * Z)) (g : list (list Tile))
  : list (list Tile) * bool :=
  match coords with
  | [] => (g, true)
  | (r, c) :: rest =>
      match gridAt g r c with
      | Some _ => clearCells rest (alterTile clearedTile r c g)
      | None => (g, false)
      end
  end.

Definition clearMultiTile (masterPos : Z * Z) (s : Scene) : Scene * bool :=
  match gridAt (grid s) (fst masterPos) (snd masterPos) with
  | None => (s, false)
  | Some master =>
      let config := getBuildingConfig (key master) in
      match b_effects config with
      | None => (s, false)                   (* line 181 throws *)
      | Some _ =>
          let s1 := reverseEffects config s in
          let '(g, ok) :=
            clearCells (footprint (fst masterPos) (snd masterPos) (b_size config))
              (grid s1) in
          (set_grid g s1, ok)
      end
  end.

(** *** placeTile *)

(** The availability loop of lines 65-81: [None] when it runs to its end. *)
Fixpoint checkArea (g : list (list Tile)) (coords : list (Z * Z)) : option PlaceResult :=
  match coords with
  | [] => None
  | (r, c) :: rest =>
      if negb (isValidCoord r c) then Some SpaceBlockedBounds
      else match gridAt g r c with
           | None => Some ThrewTypeError
           | Some tile =>
               if occupied tile then Some SpaceBlockedOccupied else checkArea g rest
           end
  end.

(** The body of the set-up loop of lines 144-159 at cell [(r, c)]. *)
Definition markTile (row col : Z) (type : string) (newFlipped : bool) (r c : Z)
    (t : Tile) : Tile :=
  if (r =? row) && (c =? col)
  then mkTile type newFlipped (Some (row, col)) true true
  else mkTile (key t) (isFlipped t) (Some (row, col)) false false.

Definition setupMultiTile (row col : Z) (type : string) (newFlipped : bool)
    (coords : list (Z * Z)) (g : list (list Tile)) : list (list Tile) :=
  foldl (λ g' rc, alterTile (markTile row col type newFlipped (fst rc) (snd rc))
                    (fst rc) (snd rc) g') g coords.

(** Lines 163-168. *)
Definition retile (type : string) (newFlipped : bool) (t : Tile) : Tile :=
  mkTile type newFlipped None false (visible t).

(** Lines 163-171: the single-tile write, [updateDepths] (which only
    reorders the display list) and [saveGame]. *)
Definition finishPlace (row col : Z) (type : string) (multiTile newFlipped : bool)
    (s : Scene) : PlaceResult * Scene :=
  let s1 :=
    if negb multiTile
    then set_grid (alterTile (retile type newFlipped) row col (grid s)) s
    else s in
  match saveGame s1 with
  | Some s2 => (Placed, s2)
  | None => (ThrewTypeError, s1)
  end.

Definition placeTile (row col : Z) (type : string) (s : Scene) : PlaceResult * Scene :=
  if negb (isValidCoord row col) then (InvalidCoord, s) else
  let config := getBuildingConfig type in
  let multiTile := 1 <? b_size config in
  let size := b_size config in
  match (if multiTile then checkArea (grid s) (footprint row col size) else None) with
  | Some r => (r, s)
  | None =>
  match gridAt (grid s) row col with
  | None => (ThrewTypeError, s)
  | Some oldTile =>
  let oldType := key oldTile in
  let oldConfig := getBuildingConfig oldType in
  if negb multiTile && negb (String.eqb type "grass")
     && occupied oldTile && negb (String.eqb oldType type)
  then (OccupiedCell, s) else
  let oldFlipped := isFlipped oldTile in
  let newFlipped := previewFlipped s in
  if String.eqb oldType type && Bool.eqb oldFlipped newFlipped && negb multiTile
  then (Unchanged, s) else
  let cost := Js.or_else (costs s !! type) (b_cost config) in
  if String.eqb oldType type then finishPlace row col type multiTile newFlipped s else
  if (if Qlt_le_dec 0 cost then if Qlt_le_dec (money s) cost then true else false else false)
  then (NeedMoney cost, s) else
  match
    match b_requirements config with
    | Some req =>
        match req_population req with
        | Some n =>
            if Js.truthy (Some n) && (if Qlt_le_dec (population s) n then true else false)
            then Some n else None
        | None => None
        end
    | None => None
    end
  with
  | Some n => (NeedPopulation n, s)
  | None =>
  let s1 := if Qlt_le_dec 0 cost
            then incrementCost type (updateMoney (- cost)%Q s) else s in
  let '(s2, ok) :=
    match masterTile oldTile with
    | Some m => clearMultiTile m s1
    | None =>
        if negb (String.eqb oldType "grass")
        then match b_effects oldConfig with
             | None => (s1, false)            (* line 130 throws *)
             | Some _ => (reverseEffects oldConfig s1, true)
             end
        else (s1, true)
    end in
  if negb ok then (ThrewTypeError, s2) else
  match b_effects config with
  | None => (ThrewTypeError, s2)              (* line 135 throws *)
  | Some _ =>
  let s3 := applyEffects config s2 in
  let s4 := if multiTile
            then set_grid (setupMultiTile row col type newFlipped
                             (footprint row col size) (grid s3)) s3
            else s3 in
  finishPlace row col type multiTile newFlipped s4
  end
  end
  end
  end.

(** *** countTiles *)

(** The tiles read by the double loop over [r] and [c], in order; [None]
    when an entry is undefined (its [.texture] throws). *)
Definition visitTiles (g : list (list Tile)) : option (list Tile) :=
  mjoin <$> mapM (λ r, mapM (λ c, gridAtN g r c) (seq 0 gridSize)) (seq 0 gridSize).

Definition countTiles (type : string) (g : list (list Tile)) : option nat :=
  tiles ← visitTiles g;
  Some (length (filter (λ t, key t = type) tiles)).

(** *** GameScene.js: the tick *)

Definition getEffectiveHappiness (s : Scene) : Q :=
  let penalty := (Js.max 0 (population s - 10) * (1 # 10))%Q in
  (happiness s - penalty)%Q.

Definition calculateIncome (s : Scene) : option Q :=
  shops ← countTiles "shop" (grid s);
  markets ← countTiles "market" (grid s);
  let totalIncome := 0%Q in
  if ((0 <? shops) || (0 <? markets))%nat then
    let effectiveHappiness :=
      Js.Clamp (getEffectiveHappiness s) (- (5 # 10))%Q (15 # 10)%Q in
    let baseIncomePerShop := (10 + Js.floor (population s / 5))%Q in
    let incomePerShop := Js.floor (baseIncomePerShop * effectiveHappiness) in
    let totalIncome :=
      if (0 <? shops)%nat
      then (totalIncome + inject_Z (Z.of_nat shops) * incomePerShop)%Q
      else totalIncome in
    let totalIncome :=
      if (0 <? markets)%nat
      then let incomePerMarket := (incomePerShop * 10)%Q in
           (totalIncome + inject_Z (Z.of_nat markets) * incomePerMarket)%Q
      else totalIncome in
    Some totalIncome
  else Some totalIncome.

(** [handleTick]; [None] when [calculateIncome] throws.  The floating
    texts shown for shops and markets do not touch the game state. *)
Definition handleTick (s : Scene) : option Scene :=
  income ← calculateIncome s;
  Some (if Qlt_le_dec 0 income then updateMoney income s else s).

(** *** The invariant of the grid array *)

Definition grid_wf (g : list (list Tile)) : Prop :=
  length g = gridSize ∧ Forall (λ row, length row = gridSize) g.

Definition data_wf (d : list (list TileData)) : Prop :=
  length d = gridSize ∧ Forall (λ row, length row = gridSize) d.

(** *** The scenes a player can reach

    from a first visit (nothing in [localStorage]) by clicking a cell,
    right-clicking (which flips the preview), waiting for a tick, and
    reloading the page. *)
Inductive reachable : Scene → Prop :=
| reach_new : reachable (newScene None)
| reach_place s row col type r s' :
    reachable s → placeTile row col type s = (r, s') → reachable s'
| reach_flip s :
    reachable s → reachable (set_previewFlipped (negb (previewFlipped s)) s)
| reach_tick s s' :
    reachable s → handleTick s = Some s' → reachable s'
| reach_reload s :
    reachable s → reachable (newScene (localStorage s)).

End GridManager.

(** ** GridManager.updateDepths *)

(** An entry of [container.list]: a tile or the preview image. *)
Record Sprite := mkSprite {
  gridRow : option Z;
  gridCol : option Z;
  textureKey : option string;     (* [texture?.key] *)
  isPreview : bool
}.

(** [getBuildingConfig(a.texture?.key)]: [undefined] is no key of the registry. *)
Definition spriteConfig (a : Sprite) : BuildingConfig :=
  match textureKey a with
  | Some k => getBuildingConfig k
  | None => grass_config
  end.

(** [a.texture?.key !== 'grass'] *)
Definition notGrass (a : Sprite) : bool :=
  match textureKey a with
  | Some k => negb (String.eqb k "grass")
  | None => true
  end.

Definition rowOf (a : Sprite) : Z := default 999 (gridRow a).
Definition colOf (a : Sprite) : Z := default 999 (gridCol a).

(** The value of [depthA] when the comparator tests it. *)
Definition depthOf (a : Sprite) : Q :=
  let depth := inject_Z (rowOf a + colOf a) in
  let config := spriteConfig a in
  let depth := if 1 <? b_size config then (depth + inject_Z (b_size config - 1))%Q else depth in
  if notGrass a then (depth + (1 # 10))%Q else depth.

(** The comparator passed to [sort]. *)
Definition depthCompare (a b : Sprite) : Q :=
  let depthA := depthOf a in
  let depthB := depthOf b in
  if Qlt_le_dec (1 # 100) (Js.abs (depthA - depthB)) then (depthA - depthB)%Q
  else if negb (rowOf a =? rowOf b) then inject_Z (rowOf a - rowOf b)
  else if isPreview a then 1%Q
  else if isPreview b then (- (1))%Q
  else 0%Q.

(** [Array.prototype.sort] is a stable sort; on a list it is modelled by
    insertion from the right, which keeps the input order of entries the
    comparator does not separate. *)
Fixpoint insertBy (cmp : Sprite → Sprite → Q) (x : Sprite) (l : list Sprite) : list Sprite :=
  match l with
  | [] => [x]
  | y :: l' => if Qlt_le_dec 0 (cmp x y) then y :: insertBy cmp x l' else x :: l
  end.

Fixpoint sortBy (cmp : Sprite → Sprite → Q) (l : list Sprite) : list Sprite :=
  match l with
  | [] => []
  | x :: l' => insertBy cmp x (sortBy cmp l')
  end.

Definition updateDepths (container : list Sprite) : list Sprite :=
  sortBy depthCompare container.

(** The sprite of the tile in slot [(r, c)]. *)
Definition spriteOfTile (r c : Z) (t : Tile) : Sprite :=
  mkSprite (Some r) (Some c) (Some (key t)) false.

(** ** The sort key and the income in the words of the specification *)

(** [row + col], plus [size - 1] for a footprint larger than one cell, plus
    a bias of one tenth for any occupant other than bare ground. *)
Definition spec_key (row col size : Z) (nonEmpty : bool) : Q :=
  (inject_Z (row + col)
   + (if 1 <? size then inject_Z (size - 1) else 0)
   + (if nonEmpty then 1 # 10 else 0))%Q.

(** Effective happiness: happiness minus 0.1 per unit of population above
    10, clamped to [-0.5, 1.5]. *)
Definition spec_effective (population happiness : Q) : Q :=
  let above := if Qlt_le_dec 10 population then (population - 10)%Q else 0%Q in
  let h := (happiness - (1 # 10) * above)%Q in
  if Qlt_le_dec h (- (1 # 2)) then (- (1 # 2))%Q
  else if Qlt_le_dec (3 # 2) h then (3 # 2)%Q else h.

Definition spec_perShop (population happiness : Q) : Q :=
  inject_Z (Qfloor ((10 + inject_Z (Qfloor (population / 5)))
                    * spec_effective population happiness)).

Definition spec_income (shops markets : nat) (population happiness : Q) : Q :=
  (inject_Z (Z.of_nat shops) * spec_perShop population happiness
   + inject_Z (Z.of_nat markets) * (10 * spec_perShop population happiness))%Q.

(** ** The reasons of a failed placement, in the words of the specification *)

Inductive Reason := OutOfBounds | Occupied | InsufficientFunds | PrerequisiteNotMet.

(** The reason behind each failing [return] of [placeTile]; a call that
    changed nothing, went through, or threw has none. *)
Definition reasonOf (r : PlaceResult) : option Reason :=
  match r with
  | InvalidCoord | SpaceBlockedBounds => Some OutOfBounds
  | SpaceBlockedOccupied | OccupiedCell => Some Occupied
  | NeedMoney _ => Some InsufficientFunds
  | NeedPopulation _ => Some PrerequisiteNotMet
  | Unchanged | Placed | ThrewTypeError => None
  end.

(** ** Notions used to state the properties *)

Section Notions.

Variable gridSize : nat.

(** The grid of a first visit: bare ground everywhere. *)
Definition freshGrid : list (list Tile) :=
  replicate gridSize (replicate gridSize (tileOfData defaultTileData)).

(** The grid has [gridSize] rows of [gridSize] tiles, every registry type
    has a cost, grass costs nothing, and a saved document has a grid of the
    same shape and the same cost of grass. *)
Definition scene_inv (s : Scene) : Prop :=
  grid_wf gridSize (grid s)
  ∧ dom registryCosts ⊆ dom (costs s)
  ∧ costs s !! "grass"%string = Some 0%Q
  ∧ ∀ doc, localStorage s = Some doc →
           data_wf gridSize (gs_grid doc) ∧ gs_costs doc !! "grass"%string = Some 0%Q.

End Notions.

(** Ten times the depth, an integer: the biases are whole numbers and one
    tenth. *)
Definition key10 (a : Sprite) : Z :=
  10 * (rowOf a + colOf a)
  + (if 1 <? b_size (spriteConfig a) then 10 * (b_size (spriteConfig a) - 1) else 0)
  + (if notGrass a then 1 else 0).

Definition cmpLe (a b : Sprite) : Prop := (depthCompare a b <= 0)%Q.

(** At most one entry of the list is the preview. *)
Definition onePreview (l : list Sprite) : Prop :=
  (length (filter (λ a, isPreview a = true) l) <= 1)%nat.

(** ** A game played from a first visit

    On an 8 by 8 grid: a house at (0,0), a shop at (0,1), 130 ticks of
    income, and then a university at (5,5). *)

Definition ticks (gridSize : nat) (n : nat) (s : Scene) : option Scene :=
  Nat.iter n (λ o, o ≫= handleTick gridSize) (Some s).

Definition houseTown : Scene :=
  snd (placeTile 8 0 0 "house" (newScene 8 None)).

Definition shopTown : Scene :=
  snd (placeTile 8 0 1 "shop" houseTown).

(** Another first visit: a house at (6,6). *)
Definition cornerTown : Scene :=
  snd (placeTile 8 6 6 "house" (newScene 8 None)).

(** The scene after the 130 ticks (none of them throws, see
    [tickedTown_ticks]). *)
Definition tickedTown : Scene :=
  default shopTown (ticks 8 130 shopTown).

Definition universityTown : Scene :=
  snd (placeTile 8 5 5 "university" tickedTown).

(** ** page.tsx *)

Module Page.

Definition GRID_SIZE : Z := 60.

(** *** The grid of page.tsx *)

(** [interface Tile]; an optional field that is absent is [None]. *)
Record PageTile := mkPageTile {
  pt_building : string;
  pt_occupied : bool;
  pt_parentX : option Z;
  pt_parentY : option Z;
  pt_placedAt : option Z
}.

(** [interface Tool] *)
Record Tool := mkTool {
  tool_type : string;
  tool_name : string;
  tool_cost : Q;
  tool_sprite : string;
  tool_size : Z;
  tool_category : string
}.

Definition STARTING_MONEY : Q := 100000.

Definition TOOLS : list Tool :=
  [ mkTool "house" "House" 100 "house" 1 "residential";
    mkTool "park" "Park" 300 "park" 2 "parks";
    mkTool "shop" "Shop" 400 "shop" 2 "commercial";
    mkTool "market" "Market" 1200 "market" 3 "industrial";
    mkTool "university" "University" 3000 "university" 4 "services";
    mkTool "bulldoze" "Bulldoze" 5 "grass" 1 "tools" ]%string.

(** [{ building: 'grass', occupied: false }] *)
Definition plainGrass : PageTile := mkPageTile "grass" false None None None.

Definition createEmptyGrid : list (list PageTile) :=
  replicate (Z.to_nat GRID_SIZE) (replicate (Z.to_nat GRID_SIZE) plainGrass).

(** The two pieces of React state that a click changes. *)
Record PageState := mkPageState {
  pg_grid : list (list PageTile);
  pg_money : Q
}.

(** [grid[y][x]], [None] when the row or the tile is undefined. *)
Definition cellAt (g : list (list PageTile)) (y x : Z) : option PageTile :=
  if (0 <=? y) && (0 <=? x) then g !! Z.to_nat y ≫= λ row, row !! Z.to_nat x else None.

(** A write to slot [newGrid[y][x]].  Every call site has read that slot
    before, so [x] and [y] are not negative and the slot exists. *)
Definition alterCell (f : PageTile → PageTile) (y x : Z) (g : list (list PageTile))
  : list (list PageTile) :=
  alter (alter f (Z.to_nat x)) (Z.to_nat y) g.

(** [canPlace(x, y, size)] on the offsets [(dy, dx)] still to visit;
    [None] when [grid[ty][tx]] is undefined. *)
Fixpoint canPlaceFrom (g : list (list PageTile)) (x y : Z) (offsets : list (Z * Z))
  : option bool :=
  match offsets with
  | [] => Some true
  | (dy, dx) :: rest =>
      let tx := x + dx in
      let ty := y + dy in
      if (GRID_SIZE <=? tx) || (GRID_SIZE <=? ty) then Some false
      else match cellAt g ty tx with
           | None => None
           | Some t =>
               if negb (String.eqb (pt_building t) "grass") || pt_occupied t
               then Some false
               else canPlaceFrom g x y rest
           end
  end.

Definition canPlace (g : list (list PageTile)) (x y size : Z) : option bool :=
  canPlaceFrom g x y (footprint 0 0 size).

(** [t.parentX === parentX && t.parentY === parentY] *)
Definition refersTo (t : PageTile) (parentX parentY : Z) : bool :=
  match pt_parentX t, pt_parentY t with
  | Some px, Some py => (px =? parentX) && (py =? parentY)
  | _, _ => false
  end.

(** The body of the clearing loop of [handleClick] at [(dx, dy)]. *)
Definition clearTile (parentX parentY dy dx : Z) (t : PageTile) : PageTile :=
  if refersTo t parentX parentY || ((dx =? parentX) && (dy =? parentY))
  then plainGrass else t.

(** The clearing loop over the cells [(dy, dx)] still to visit. *)
Fixpoint clearBuilding (parentX parentY : Z) (cells : list (Z * Z))
    (g : list (list PageTile)) : option (list (list PageTile)) :=
  match cells with
  | [] => Some g
  | (dy, dx) :: rest =>
      match cellAt g dy dx with
      | None => None
      | Some _ =>
          clearBuilding parentX parentY rest
            (alterCell (clearTile parentX parentY dy dx) dy dx g)
      end
  end.

(** The parent tile of a placed building, and a tile it covers. *)
Definition buildingTile (type : string) (now : Z) : PageTile :=
  mkPageTile type false None None (Some now).

Definition coveredTile (gridX gridY : Z) : PageTile :=
  mkPageTile "grass" true (Some gridX) (Some gridY) None.

(** The loop that marks the other tiles of the footprint. *)
Definition markOccupied (gridX gridY : Z) (offsets : list (Z * Z))
    (g : list (list PageTile)) : list (list PageTile) :=
  foldl (λ g' d,
           if (snd d =? 0) && (fst d =? 0) then g'
           else alterCell (λ _, coveredTile gridX gridY)
                  (gridY + fst d) (gridX + snd d) g')
        g offsets.

(** [handleClick] from the point where [gridX] and [gridY] are known, for
    the selected tool and the value [now] of [Date.now()]; the state is the
    one of the render the handler belongs to.  [None] when the handler (or
    a state updater it queues) throws a [TypeError]. *)
Definition handleClick (selectedTool : Tool) (now : Z) (gridX gridY : Z)
    (st : PageState) : option PageState :=
  let grid := pg_grid st in
  let money := pg_money st in
  if (gridX <? 0) || (GRID_SIZE <=? gridX) || (gridY <? 0) || (GRID_SIZE <=? gridY)
  then Some st else
  if String.eqb (tool_type selectedTool) "bulldoze" then
    match cellAt grid gridY gridX with
    | None => None
    | Some tile =>
        let parentX := default gridX (pt_parentX tile) in
        let parentY := default gridY (pt_parentY tile) in
        match cellAt grid parentY parentX with
        | None => None
        | Some parentTile =>
            if negb (String.eqb (pt_building parentTile) "grass")
               && negb (String.eqb (pt_building parentTile) "empty")
            then
              if Qlt_le_dec money (tool_cost selectedTool) then Some st
              else
                match clearBuilding parentX parentY (footprint 0 0 GRID_SIZE) grid with
                | None => None
                | Some newGrid =>
                    Some (mkPageState newGrid (money - tool_cost selectedTool)%Q)
                end
            else Some st
        end
    end
  else
    let size := tool_size selectedTool in
    match canPlace grid gridX gridY size with
    | None => None
    | Some ok =>
        if ok && (if Qlt_le_dec money (tool_cost selectedTool) then false else true)
        then
          let newGrid :=
            markOccupied gridX gridY (footprint 0 0 size)
              (alterCell (λ _, buildingTile (tool_type selectedTool) now)
                 gridY gridX grid) in
          Some (mkPageState newGrid (money - tool_cost selectedTool)%Q)
        else Some st
    end.

(** The states a player can reach by clicking with a tool of the bar. *)
Inductive page_reachable : PageState → Prop :=
| page_start : page_reachable (mkPageState createEmptyGrid STARTING_MONEY)
| page_click st tool now gridX gridY st' :
    page_reachable st → tool ∈ TOOLS →
    handleClick tool now gridX gridY st = Some st' → page_reachable st'.

(** The grid has [GRID_SIZE] rows of [GRID_SIZE] tiles. *)
Definition page_wf (g : list (list PageTile)) : Prop :=
  length g = Z.to_nat GRID_SIZE ∧ Forall (λ row, length row = Z.to_nat GRID_SIZE) g.

(** The three kinds of tile: bare ground, the parent tile of a building,
    and a tile covered by a building whose parent tile is where it says. *)
Definition tile_ok (g : list (list PageTile)) (t : PageTile) : Prop :=
  t = plainGrass
  ∨ (pt_building t ≠ "grass"%string ∧ pt_occupied t = false
     ∧ pt_parentX t = None ∧ pt_parentY t = None)
  ∨ (∃ px py m, t = coveredTile px py ∧ cellAt g py px = Some m
                ∧ pt_building m ≠ "grass"%string).

Definition page_inv (st : PageState) : Prop :=
  page_wf (pg_grid st)
  ∧ (∀ y x t, cellAt (pg_grid st) y x = Some t → tile_ok (pg_grid st) t)
  ∧ (0 <= pg_money st)%Q.

(** The states used as examples: a shop at (3, 4) on the empty map. *)
Definition shopTool : Tool := mkTool "shop" "Shop" 400 "shop" 2 "commercial".
Definition bulldozeTool : Tool := mkTool "bulldoze" "Bulldoze" 5 "grass" 1 "tools".
Definition startState : PageState := mkPageState createEmptyGrid STARTING_MONEY.

(** The first click of the example: the shop tool at (3, 4). *)
Definition shopPlaced : PageState :=
  default startState (handleClick shopTool 0 3 4 startState).

End Page.

(** ** Master references

    A tile that is not grass and has a master reference is the master of
    its own building, and the footprint of that building lies inside the
    grid. *)

Definition masters_ok (gridSize : nat) (g : list (list Tile)) : Prop :=
  ∀ r c t m,
    gridAt g r c = Some t → masterTile t = Some m → key t ≠ "grass"%string →
    m = (r, c)
    ∧ r + b_size (getBuildingConfig (key t)) <= Z.of_nat gridSize
    ∧ c + b_size (getBuildingConfig (key t)) <= Z.of_nat gridSize.

(** No tile carries a name of [Object.prototype] as its texture key: the
    config of every tile has [effects]. *)
Definition kinds_ok (g : list (list Tile)) : Prop :=
  ∀ r c t, gridAt g r c = Some t → is_Some (b_effects (getBuildingConfig (key t))).

(** No such name has a cost of its own either. *)
Definition costs_ok (cs : gmap string Q) : Prop :=
  ∀ type, b_effects (getBuildingConfig type) = None → cs !! type = None.

(** The invariant under which no grid access of [placeTile] fails. *)
Definition safe_inv (gridSize : nat) (s : Scene) : Prop :=
  scene_inv gridSize s
  ∧ masters_ok gridSize (grid s)
  ∧ kinds_ok (grid s)
  ∧ costs_ok (costs s)
  ∧ ∀ doc, localStorage s = Some doc →
           masters_ok gridSize (fmap (M := list) tileOfData <$> gs_grid doc)
           ∧ kinds_ok (fmap (M := list) tileOfData <$> gs_grid doc)
           ∧ costs_ok (gs_costs doc).

(** ** The effects of a kind as numbers

    The amount [applyEffects] adds to the population and to the happiness
    (an effect that is missing, or zero, adds nothing). *)

Definition popDelta (config : BuildingConfig) : Q :=
  match b_effects config ≫= eff_population with Some p => p | None => 0%Q end.

Definition happyDelta (config : BuildingConfig) : Q :=
  match b_effects config ≫= eff_happiness with Some h => h | None => 0%Q end.

(** The cost [placeTile] computes for a type: [costs[type] || config.cost]. *)
Definition currentCost (s : Scene) (type : string) : Q :=
  Js.or_else (costs s !! type) (b_cost (getBuildingConfig type)).

(** Two tiles of the example game: the master of the university and the
    shop. *)
Definition universityTile : Tile := mkTile "university" false (Some (5, 5)) true true.
Definition shopTile : Tile := mkTile "shop" false None false true.

(** ** The saved document and the scene

    [saveGame] is called at the end of every placement that goes through
    and nowhere else.  Between two placements only a tick changes the
    scene, and it changes the balance only. *)
Definition synced (gridSize : nat) (s : Scene) : Prop :=
  match localStorage s with
  | Some doc =>
      gs_costs doc = costs s
      ∧ getGridData gridSize (grid s) = Some (gs_grid doc)
      ∧ gs_population doc = population s
      ∧ gs_happiness doc = happiness s
      ∧ (gs_money doc <= money s)%Q
  | None =>
      grid s = freshGrid gridSize
      ∧ costs s = registryCosts
      ∧ population s = 0%Q
      ∧ happiness s = 1%Q
      ∧ (100 <= money s)%Q
  end.

(** Every type of the registry has a cost, a whole number that is not
    below the list price. *)
Definition prices_ok (cs : gmap string Q) : Prop :=
  ∀ type cfg, registry_get BuildingRegistry type = Some cfg →
    ∃ n : Z, cs !! type = Some (inject_Z n) ∧ (b_cost cfg <= inject_Z n)%Q.

(** * Properties *)

(** ** Numbers *)

Lemma Qplus_0_r_eq (q : Q) : (q + 0)%Q = q.
Proof.
  destruct q as [n d]. unfold Qplus. simpl.
  f_equal; [ lia | apply Pos.mul_1_r ].
Qed.

Lemma clamp_spec (v : Q) :
  (Js.Clamp v (- (5 # 10)) (15 # 10) ==
   (if Qlt_le_dec v (- (1 # 2)) then - (1 # 2)
    else if Qlt_le_dec (3 # 2) v then 3 # 2 else v))%Q.
Proof.
  unfold Js.Clamp, Js.max, Js.min.
  repeat destruct (Qlt_le_dec _ _); lra.
Qed.

Lemma abs_small_iff (x : Q) :
  (Js.abs x <= 1 # 100)%Q ↔ (- (1 # 100) <= x ∧ x <= 1 # 100)%Q.
Proof.
  unfold Js.abs. split.
  - intros H. apply Qabs_Qle_condition in H. exact H.
  - intros H. apply Qabs_Qle_condition. exact H.
Qed.

(** ** The tick economy *)

Section Tick.

Variable gridSize : nat.

Lemma effective_spec (s : Scene) :
  (Js.Clamp (getEffectiveHappiness s) (- (5 # 10)) (15 # 10)
   == spec_effective (population s) (happiness s))%Q.
Proof.
  unfold spec_effective. rewrite clamp_spec.
  assert (Heq : (getEffectiveHappiness s ==
                 happiness s - (1 # 10) *
                   (if Qlt_le_dec 10 (population s) then population s - 10 else 0))%Q).
  { unfold getEffectiveHappiness, Js.max.
    repeat destruct (Qlt_le_dec _ _); lra. }
  repeat destruct (Qlt_le_dec _ _); lra.
Qed.

Lemma perShop_spec (s : Scene) :
  Js.floor ((10 + Js.floor (population s / 5))
            * Js.Clamp (getEffectiveHappiness s) (- (5 # 10)) (15 # 10))
  = spec_perShop (population s) (happiness s).
Proof.
  unfold Js.floor, spec_perShop. f_equal.
  apply Qfloor_comp. rewrite effective_spec. reflexivity.
Qed.

(** The value [calculateIncome] returns, once both counts are known. *)
Lemma calculateIncome_counts (s : Scene) (shops markets : nat) :
  countTiles gridSize "shop" (grid s) = Some shops →
  countTiles gridSize "market" (grid s) = Some markets →
  ∃ income, calculateIncome gridSize s = Some income
            ∧ (income == spec_income shops markets (population s) (happiness s))%Q.
Proof.
  intros Hs Hm. unfold calculateIncome. rewrite Hs, Hm. simpl.
  rewrite perShop_spec. unfold spec_income.
  generalize (spec_perShop (population s) (happiness s)); intros x.
  destruct shops as [|n], markets as [|m];
    cbn [Nat.ltb Nat.leb orb]; eexists; (split; [reflexivity|]);
    change (inject_Z (Z.of_nat 0)) with 0%Q;
    try generalize (inject_Z (Z.of_nat (S n))); try generalize (inject_Z (Z.of_nat (S m)));
    intros; lra.
Qed.

(** [calculateIncome] reads the scene only through the two counts, the
    population and the happiness. *)
Lemma calculateIncome_reads (s t : Scene) :
  countTiles gridSize "shop" (grid t) = countTiles gridSize "shop" (grid s) →
  countTiles gridSize "market" (grid t) = countTiles gridSize "market" (grid s) →
  population t = population s →
  happiness t = happiness s →
  calculateIncome gridSize t = calculateIncome gridSize s.
Proof.
  intros Hs Hm Hp Hh. unfold calculateIncome, getEffectiveHappiness.
  rewrite Hs, Hm, Hp, Hh. reflexivity.
Qed.

Lemma handleTick_frame (s s' : Scene) :
  handleTick gridSize s = Some s' →
  grid s' = grid s ∧ population s' = population s ∧ happiness s' = happiness s
  ∧ costs s' = costs s ∧ previewFlipped s' = previewFlipped s
  ∧ localStorage s' = localStorage s.
Proof.
  unfold handleTick. destruct (calculateIncome gridSize s) as [income|]; [|discriminate].
  simpl. intros [= <-]. destruct (Qlt_le_dec 0 income); simpl; auto 10.
Qed.

End Tick.

(** ** Reading a well-formed grid *)

Lemma mapM_seq_lookup {A B : Type} (F : nat → option B) (k : A → B) (l : list A) (n : nat) :
  length l = n →
  (∀ i x, l !! i = Some x → F i = Some (k x)) →
  mapM F (seq 0 n) = Some (k <$> l).
Proof.
  intros Hlen HF. apply mapM_Some.
  apply Forall2_same_length_lookup. split.
  - rewrite length_seq, length_fmap. congruence.
  - intros i j y Hj Hy.
    apply lookup_seq in Hj as [-> _]. simpl.
    rewrite list_lookup_fmap in Hy.
    destruct (l !! i) as [x|] eqn:Hx; [|discriminate].
    simpl in Hy. injection Hy as <-. eauto.
Qed.

Section GridFacts.

Variable gridSize : nat.

Lemma grid_wf_row (g : list (list Tile)) (r : nat) (row : list Tile) :
  grid_wf gridSize g → g !! r = Some row → length row = gridSize.
Proof.
  intros [_ Hrows] Hr. rewrite Forall_lookup in Hrows. eauto.
Qed.

Lemma gridAtN_lookup (g : list (list Tile)) (r c : nat) (row : list Tile) (t : Tile) :
  g !! r = Some row → row !! c = Some t → gridAtN g r c = Some t.
Proof. intros Hr Hc. unfold gridAtN. rewrite Hr. simpl. exact Hc. Qed.

Lemma grid_rows_seq {B : Type} (g : list (list Tile)) (F : nat → nat → option B)
    (k : Tile → B) :
  grid_wf gridSize g →
  (∀ r c t, gridAtN g r c = Some t → F r c = Some (k t)) →
  mapM (M := option) (λ r, mapM (M := option) (F r) (seq 0 gridSize)) (seq 0 gridSize)
  = Some (fmap (M := list) k <$> g).
Proof.
  intros Hwf HF. apply mapM_seq_lookup; [apply Hwf|].
  intros r row Hr. apply mapM_seq_lookup; [eapply grid_wf_row; eauto|].
  intros c t Hc. apply HF. eapply gridAtN_lookup; eauto.
Qed.

Lemma getGridData_wf (g : list (list Tile)) :
  grid_wf gridSize g →
  getGridData gridSize g = Some (fmap (M := list) dataOfTile <$> g).
Proof.
  intros Hwf. unfold getGridData. apply grid_rows_seq; [exact Hwf|].
  intros r c t Ht. rewrite Ht. reflexivity.
Qed.

Lemma visitTiles_wf (g : list (list Tile)) :
  grid_wf gridSize g → visitTiles gridSize g = Some (mjoin g).
Proof.
  intros Hwf. unfold visitTiles.
  pose proof (grid_rows_seq g (λ r c, gridAtN g r c) id Hwf (λ _ _ _ H, H)) as H.
  cbv beta in H. rewrite H. simpl. do 2 f_equal.
  transitivity (id <$> g); [|apply list_fmap_id].
  apply list_fmap_ext. intros _ row _. apply list_fmap_id.
Qed.

Lemma countTiles_wf (type : string) (g : list (list Tile)) :
  grid_wf gridSize g →
  countTiles gridSize type g = Some (length (filter (λ t, key t = type) (mjoin g))).
Proof.
  intros Hwf. unfold countTiles. rewrite (visitTiles_wf g Hwf). reflexivity.
Qed.

Lemma gridAt_wf (g : list (list Tile)) (r c : Z) :
  grid_wf gridSize g → isValidCoord gridSize r c = true → is_Some (gridAt g r c).
Proof.
  intros [Hlen Hrows] Hv. unfold isValidCoord in Hv.
  apply andb_prop in Hv as [Hv Hc2]. apply andb_prop in Hv as [Hv Hc1].
  apply andb_prop in Hv as [Hr1 Hr2].
  unfold gridAt. rewrite Hr1, Hc1. simpl. unfold gridAtN.
  destruct (lookup_lt_is_Some_2 g (Z.to_nat r)) as [row Hrow]; [lia|].
  rewrite Hrow. simpl. apply lookup_lt_is_Some_2.
  rewrite Forall_lookup in Hrows. rewrite (Hrows _ _ Hrow). lia.
Qed.

End GridFacts.

(** ** The depth comparator *)

Lemma depthOf_key10 (a : Sprite) : (depthOf a * 10 == inject_Z (key10 a))%Q.
Proof.
  unfold depthOf, key10.
  destruct (1 <? b_size (spriteConfig a)), (notGrass a);
    rewrite ?inject_Z_plus, ?inject_Z_mult;
    change (inject_Z 10) with 10%Q; change (inject_Z 1) with 1%Q;
    change (inject_Z 0) with 0%Q;
    rewrite ?inject_Z_plus; lra.
Qed.

Lemma depthOf_spec_key (a : Sprite) :
  (depthOf a == spec_key (rowOf a) (colOf a) (b_size (spriteConfig a)) (notGrass a))%Q.
Proof.
  unfold depthOf, spec_key.
  destruct (1 <? b_size (spriteConfig a)), (notGrass a); lra.
Qed.

Lemma depth_lt_key10 (a b : Sprite) : (depthOf a < depthOf b)%Q ↔ key10 a < key10 b.
Proof.
  pose proof (depthOf_key10 a) as Ha. pose proof (depthOf_key10 b) as Hb.
  rewrite Zlt_Qlt. split; intros H; lra.
Qed.

Lemma depth_eq_key10 (a b : Sprite) : (depthOf a == depthOf b)%Q ↔ key10 a = key10 b.
Proof.
  pose proof (depthOf_key10 a) as Ha. pose proof (depthOf_key10 b) as Hb.
  rewrite <- inject_Z_injective. split; intros H; lra.
Qed.

(** Depths that differ are more than the comparator's threshold apart. *)
Lemma depth_gap (a b : Sprite) :
  key10 a < key10 b → (depthOf b - depthOf a >= 1 # 10)%Q.
Proof.
  intros H.
  pose proof (depthOf_key10 a) as Ha. pose proof (depthOf_key10 b) as Hb.
  assert (H1 : key10 a + 1 <= key10 b) by lia.
  rewrite Zle_Qle, inject_Z_plus in H1. change (inject_Z 1) with 1%Q in H1. lra.
Qed.

Lemma depthCompare_lt (a b : Sprite) :
  (depthCompare a b < 0)%Q ↔
  key10 a < key10 b
  ∨ (key10 a = key10 b
     ∧ (rowOf a < rowOf b
        ∨ (rowOf a = rowOf b ∧ isPreview a = false ∧ isPreview b = true))).
Proof.
  unfold depthCompare.
  destruct (Qlt_le_dec (1 # 100) (Js.abs (depthOf a - depthOf b))) as [Hfar|Hnear].
  - destruct (Z.lt_trichotomy (key10 a) (key10 b)) as [Hlt|[Heq|Hgt]].
    + pose proof (depth_gap a b Hlt). split; [auto|intros _; lra].
    + apply depth_eq_key10 in Heq. exfalso.
      assert (Hz : (Js.abs (depthOf a - depthOf b) <= 1 # 100)%Q)
        by (apply abs_small_iff; lra).
      lra.
    + pose proof (depth_gap b a Hgt). split; [intros; lra|intros [?|[? _]]; lia].
  - apply abs_small_iff in Hnear.
    assert (Heq : key10 a = key10 b).
    { destruct (Z.lt_trichotomy (key10 a) (key10 b)) as [Hlt|[Heq|Hgt]]; [|assumption|].
      - pose proof (depth_gap a b Hlt). lra.
      - pose proof (depth_gap b a Hgt). lra. }
    destruct (rowOf a =? rowOf b) eqn:Hrow; simpl.
    + apply Z.eqb_eq in Hrow.
      destruct (isPreview a), (isPreview b); split; intros H;
        try lra; try (right; split; [assumption|right; auto]);
        try (destruct H as [?|[_ [?|[_ [? ?]]]]]; try lia; try discriminate; lra).
    + apply Z.eqb_neq in Hrow. change 0%Q with (inject_Z 0).
      rewrite <- (Zlt_Qlt (rowOf a - rowOf b) 0).
      split; [intros; right; split; [assumption|left; lia]|].
      intros [?|[_ [?|[? _]]]]; lia.
Qed.

Lemma depthCompare_gt (a b : Sprite) :
  (0 < depthCompare a b)%Q ↔
  key10 b < key10 a
  ∨ (key10 a = key10 b
     ∧ (rowOf b < rowOf a ∨ (rowOf a = rowOf b ∧ isPreview a = true))).
Proof.
  unfold depthCompare.
  destruct (Qlt_le_dec (1 # 100) (Js.abs (depthOf a - depthOf b))) as [Hfar|Hnear].
  - destruct (Z.lt_trichotomy (key10 a) (key10 b)) as [Hlt|[Heq|Hgt]].
    + pose proof (depth_gap a b Hlt). split; [intros; lra|intros [?|[? _]]; lia].
    + apply depth_eq_key10 in Heq. exfalso.
      assert (Hz : (Js.abs (depthOf a - depthOf b) <= 1 # 100)%Q)
        by (apply abs_small_iff; lra).
      lra.
    + pose proof (depth_gap b a Hgt). split; [auto|intros _; lra].
  - apply abs_small_iff in Hnear.
    assert (Heq : key10 a = key10 b).
    { destruct (Z.lt_trichotomy (key10 a) (key10 b)) as [Hlt|[Heq|Hgt]]; [|assumption|].
      - pose proof (depth_gap a b Hlt). lra.
      - pose proof (depth_gap b a Hgt). lra. }
    destruct (rowOf a =? rowOf b) eqn:Hrow; simpl.
    + apply Z.eqb_eq in Hrow.
      destruct (isPreview a), (isPreview b); split; intros H;
        try lra; try (right; split; [assumption|right; auto]);
        try (destruct H as [?|[_ [?|[_ ?]]]]; try lia; try discriminate; lra).
    + apply Z.eqb_neq in Hrow. change 0%Q with (inject_Z 0).
      rewrite <- (Zlt_Qlt 0 (rowOf a - rowOf b)).
      split; [intros; right; split; [assumption|left; lia]|].
      intros [?|[_ [?|[? _]]]]; lia.
Qed.

Lemma depthCompare_le (a b : Sprite) :
  (depthCompare a b <= 0)%Q ↔
  key10 a < key10 b
  ∨ (key10 a = key10 b
     ∧ (rowOf a < rowOf b ∨ (rowOf a = rowOf b ∧ isPreview a = false))).
Proof.
  assert (Hnot : (depthCompare a b <= 0)%Q ↔ ¬ (0 < depthCompare a b)%Q)
    by (split; [apply Qle_not_lt|apply Qnot_lt_le]).
  rewrite Hnot, depthCompare_gt.
  destruct (isPreview a); split; intros H.
  - destruct (Z.lt_trichotomy (key10 a) (key10 b)) as [?|[?|?]]; [auto| |tauto].
    destruct (Z.lt_trichotomy (rowOf a) (rowOf b)) as [?|[?|?]]; [auto|tauto|tauto].
  - intros [?|[? [?|[? _]]]]; destruct H as [?|[? [?|[? ?]]]]; try lia; discriminate.
  - destruct (Z.lt_trichotomy (key10 a) (key10 b)) as [?|[?|?]]; [auto| |tauto].
    destruct (Z.lt_trichotomy (rowOf a) (rowOf b)) as [?|[?|?]]; [auto|auto|tauto].
  - intros [?|[? [?|[? ?]]]]; try discriminate;
      destruct H as [?|[? [?|[? ?]]]]; lia.
Qed.

(** *** The sort *)

Lemma insertBy_perm (cmp : Sprite → Sprite → Q) (x : Sprite) (l : list Sprite) :
  insertBy cmp x l ≡ₚ x :: l.
Proof.
  induction l as [|y l IH]; simpl; [reflexivity|].
  destruct (Qlt_le_dec 0 (cmp x y)); [|reflexivity].
  rewrite IH. apply Permutation_swap.
Qed.

Lemma sortBy_perm (cmp : Sprite → Sprite → Q) (l : list Sprite) : sortBy cmp l ≡ₚ l.
Proof.
  induction l as [|x l IH]; simpl; [reflexivity|].
  rewrite insertBy_perm, IH. reflexivity.
Qed.


Lemma cmpLe_trans (a b c : Sprite) : cmpLe a b → cmpLe b c → cmpLe a c.
Proof.
  unfold cmpLe. rewrite !depthCompare_le. intros Hab Hbc.
  destruct Hab as [?|[? [?|[? ?]]]], Hbc as [?|[? [?|[? ?]]]];
    first [ left; lia | right; split; [lia|]; first [left; lia | right; split; [lia|assumption]] ].
Qed.



(** Where at most one of two entries is the preview, the comparator puts
    one of them first. *)
Lemma cmp_gt_cmpLe (a b : Sprite) :
  isPreview a && isPreview b = false → (0 < depthCompare a b)%Q → cmpLe b a.
Proof.
  unfold cmpLe. rewrite depthCompare_gt, depthCompare_le. intros Hp H.
  destruct H as [?|[? [?|[? Ha]]]]; [left; lia|right; split; [lia|left; lia]|].
  right. split; [lia|]. right. split; [lia|].
  rewrite Ha in Hp. simpl in Hp. exact Hp.
Qed.



Lemma onePreview_cons (x : Sprite) (l : list Sprite) :
  onePreview (x :: l) →
  onePreview l ∧ ∀ y, y ∈ l → isPreview x && isPreview y = false.
Proof.
  unfold onePreview. rewrite filter_cons.
  destruct (decide (isPreview x = true)) as [Hx|Hx]; simpl; intros H.
  - split; [lia|]. intros y Hy.
    destruct (isPreview y) eqn:Hpy; [|apply andb_false_r].
    exfalso.
    assert (Hin : y ∈ filter (λ a, isPreview a = true) l)
      by (apply list_elem_of_filter; auto).
    destruct (filter (λ a, isPreview a = true) l); [inversion Hin|simpl in H; lia].
  - split; [exact H|]. intros y _.
    destruct (isPreview x); [congruence|reflexivity].
Qed.

Lemma insertBy_cmpLe (x : Sprite) (l : list Sprite) :
  (∀ y, y ∈ l → isPreview x && isPreview y = false) →
  StronglySorted cmpLe l → StronglySorted cmpLe (insertBy depthCompare x l).
Proof.
  intros Hp Hs. induction Hs as [|y l Hs IH Hall]; simpl.
  - repeat constructor.
  - destruct (Qlt_le_dec 0 (depthCompare x y)) as [Hgt|Hle].
    + constructor.
      * apply IH. intros z Hz. apply Hp. right. exact Hz.
      * rewrite insertBy_perm. constructor; [|exact Hall].
        apply cmp_gt_cmpLe; [|exact Hgt]. apply Hp. left.
    + constructor; [constructor; assumption|].
      constructor; [exact Hle|].
      eapply Forall_impl; [exact Hall|]. intros z Hz. eapply cmpLe_trans; eauto.
Qed.

Lemma updateDepths_cmpLe (l : list Sprite) :
  onePreview l → StronglySorted cmpLe (updateDepths l).
Proof.
  unfold updateDepths. induction l as [|x l IH]; simpl; intros H1.
  - constructor.
  - apply onePreview_cons in H1 as [H1 Hx].
    apply insertBy_cmpLe; [|apply IH; exact H1].
    intros y Hy. apply Hx. rewrite <- (sortBy_perm depthCompare l). exact Hy.
Qed.

(** A list that is already in order is left as it is. *)
Lemma sortBy_sorted (l : list Sprite) :
  StronglySorted cmpLe l → sortBy depthCompare l = l.
Proof.
  induction 1 as [|x l Hs IH Hall]; simpl; [reflexivity|].
  rewrite IH. destruct l as [|y l']; simpl; [reflexivity|].
  apply Forall_cons in Hall as [Hxy _]. unfold cmpLe in Hxy.
  destruct (Qlt_le_dec 0 (depthCompare x y)); [lra|reflexivity].
Qed.

(** ** The registry *)

Lemma getBuildingConfig_cases (type : string) :
  (type = "university"%string ∧ getBuildingConfig type = university_config)
  ∨ (type = "market"%string ∧ getBuildingConfig type = market_config)
  ∨ (b_size (getBuildingConfig type) = 1).
Proof.
  unfold getBuildingConfig, BuildingRegistry, registry_get.
  repeat match goal with
         | |- context [String.eqb ?k type] => destruct (String.eqb_spec k type)
         end; subst; auto.
  destruct (inheritedKey type); auto.
Qed.

Lemma multiTile_not_grass (type : string) :
  1 < b_size (getBuildingConfig type) → type ≠ "grass"%string.
Proof. intros H ->. vm_compute in H. discriminate. Qed.

(** ** Writes to the grid *)

Lemma elem_of_footprint (row col size r c : Z) :
  (r, c) ∈ footprint row col size ↔ (row <= r < row + size) ∧ (col <= c < col + size).
Proof.
  unfold footprint. rewrite list_elem_of_bind. split.
  - intros (r' & Hc & Hr). apply list_elem_of_fmap in Hc as (c' & Heq & Hc).
    injection Heq as -> ->. apply elem_of_seqZ in Hr, Hc. auto.
  - intros [Hr Hc]. exists r. split; [|apply elem_of_seqZ; exact Hr].
    apply list_elem_of_fmap. exists c. split; [reflexivity|apply elem_of_seqZ; exact Hc].
Qed.

Lemma NoDup_footprint (row col size : Z) : NoDup (footprint row col size).
Proof.
  unfold footprint. apply NoDup_bind.
  - intros r1 r2 [r c] _ _ H1 H2.
    apply list_elem_of_fmap in H1 as (? & [= -> _] & _).
    apply list_elem_of_fmap in H2 as (? & [= -> _] & _). reflexivity.
  - intros r _. apply NoDup_fmap_2; [|apply NoDup_seqZ].
    intros c1 c2 [= ->]. reflexivity.
  - apply NoDup_seqZ.
Qed.

Lemma gridAt_alterTile_eq (f : Tile → Tile) (g : list (list Tile)) (r c : Z) :
  gridAt (alterTile f r c g) r c = f <$> gridAt g r c.
Proof.
  unfold gridAt, alterTile, gridAtN.
  destruct ((0 <=? r) && (0 <=? c)); [|reflexivity].
  rewrite list_lookup_alter_eq.
  destruct (g !! Z.to_nat r) as [rw|]; simpl; [|reflexivity].
  apply list_lookup_alter_eq.
Qed.

Lemma gridAt_alterTile_ne (f : Tile → Tile) (g : list (list Tile)) (r c r' c' : Z) :
  0 <= r → 0 <= c → (r', c') ≠ (r, c) →
  gridAt (alterTile f r c g) r' c' = gridAt g r' c'.
Proof.
  intros Hr Hc Hne. unfold gridAt, alterTile, gridAtN.
  destruct (0 <=? r') eqn:Hr', (0 <=? c') eqn:Hc'; simpl; try reflexivity.
  destruct (decide (Z.to_nat r = Z.to_nat r')) as [Heq|Hneq].
  - rewrite <- Heq, list_lookup_alter_eq.
    destruct (g !! Z.to_nat r) as [rw|]; simpl; [|reflexivity].
    apply list_lookup_alter_ne. intros Hcc. apply Hne. f_equal; lia.
  - rewrite list_lookup_alter_ne by exact Hneq. reflexivity.
Qed.

Section WriteFacts.

Variable gridSize : nat.

Lemma alterTile_wf (f : Tile → Tile) (r c : Z) (g : list (list Tile)) :
  grid_wf gridSize g → grid_wf gridSize (alterTile f r c g).
Proof.
  intros [Hlen Hrows]. split.
  - unfold alterTile. rewrite length_alter. exact Hlen.
  - unfold alterTile. apply Forall_alter; [exact Hrows|].
    intros rw _ Hrw. rewrite length_alter. exact Hrw.
Qed.

Lemma isValidCoord_bounds (r c : Z) :
  isValidCoord gridSize r c = true ↔
  0 <= r < Z.of_nat gridSize ∧ 0 <= c < Z.of_nat gridSize.
Proof. unfold isValidCoord. rewrite !andb_true_iff. lia. Qed.

Lemma saveGame_wf (s : Scene) :
  grid_wf gridSize (grid s) →
  saveGame gridSize s
  = Some (set_localStorage
            (Some (mkGameState (money s) (population s) (happiness s) (costs s)
                     (fmap (M := list) dataOfTile <$> grid s))) s).
Proof.
  intros Hwf. unfold saveGame. rewrite (getGridData_wf gridSize _ Hwf). reflexivity.
Qed.

(** Every footprint cell is inside the grid and free: the availability
    loop runs to its end. *)
Lemma checkArea_free (g : list (list Tile)) (coords : list (Z * Z)) :
  Forall (λ rc, isValidCoord gridSize (fst rc) (snd rc) = true
                ∧ ∃ t, gridAt g (fst rc) (snd rc) = Some t ∧ occupied t = false) coords →
  checkArea gridSize g coords = None.
Proof.
  induction 1 as [|[r c] rest (Hv & t & Ht & Hfree) _ IH]; simpl in *; [reflexivity|].
  rewrite Hv, Ht, Hfree. simpl. exact IH.
Qed.

Lemma checkArea_None (g : list (list Tile)) (coords : list (Z * Z)) :
  checkArea gridSize g coords = None →
  Forall (λ rc, isValidCoord gridSize (fst rc) (snd rc) = true
                ∧ ∃ t, gridAt g (fst rc) (snd rc) = Some t ∧ occupied t = false) coords.
Proof.
  induction coords as [|[r c] rest IH]; simpl; [constructor|].
  destruct (isValidCoord gridSize r c) eqn:Hv; simpl; [|discriminate].
  destruct (gridAt g r c) as [t|] eqn:Ht; [|discriminate].
  destruct (occupied t) eqn:Hocc; [discriminate|].
  intros H. constructor; [|apply IH; exact H]. simpl. eauto.
Qed.

Lemma checkArea_result (g : list (list Tile)) (coords : list (Z * Z)) (r : PlaceResult) :
  checkArea gridSize g coords = Some r →
  r = SpaceBlockedBounds ∨ r = SpaceBlockedOccupied ∨ r = ThrewTypeError.
Proof.
  induction coords as [|[r0 c0] rest IH]; simpl; [discriminate|].
  destruct (isValidCoord gridSize r0 c0); simpl; [|intros [= <-]; auto].
  destruct (gridAt g r0 c0) as [t|]; [|intros [= <-]; auto].
  destruct (occupied t); [intros [= <-]; auto|exact IH].
Qed.

(** A valid, existing, occupied cell in the footprint, with nothing
    outside the grid before it: the loop stops with "SPACE BLOCKED". *)
Lemma checkArea_occupied (g : list (list Tile)) (coords : list (Z * Z)) :
  grid_wf gridSize g →
  Forall (λ rc, isValidCoord gridSize (fst rc) (snd rc) = true) coords →
  Exists (λ rc, ∃ t, gridAt g (fst rc) (snd rc) = Some t ∧ occupied t = true) coords →
  checkArea gridSize g coords = Some SpaceBlockedOccupied.
Proof.
  intros Hwf Hall Hex. induction Hall as [|[r c] rest Hv Hall IH]; simpl in *.
  - inversion Hex.
  - rewrite Hv. simpl.
    destruct (gridAt_wf gridSize g r c Hwf Hv) as [t Ht]. rewrite Ht.
    destruct (occupied t) eqn:Hocc; [reflexivity|].
    apply IH. inversion Hex as [? ? (t' & Ht' & Hocc')|]; subst; [|assumption].
    simpl in Ht'. congruence.
Qed.

End WriteFacts.

(** The counters leave the grid alone. *)
Lemma grid_applyEffects (config : BuildingConfig) (s : Scene) :
  grid (applyEffects config s) = grid s.
Proof.
  unfold applyEffects.
  destruct (b_effects config) as [effects|]; [|reflexivity].
  destruct (eff_population effects) as [p|], (eff_happiness effects) as [h|];
    repeat match goal with |- context [Js.truthy ?x] => destruct (Js.truthy x) end; reflexivity.
Qed.

Lemma grid_reverseEffects (config : BuildingConfig) (s : Scene) :
  grid (reverseEffects config s) = grid s.
Proof.
  unfold reverseEffects.
  destruct (b_effects config) as [effects|]; [|reflexivity].
  destruct (eff_population effects) as [p|], (eff_happiness effects) as [h|];
    repeat match goal with |- context [Js.truthy ?x] => destruct (Js.truthy x) end; reflexivity.
Qed.

Lemma grid_incrementCost (type : string) (s : Scene) :
  grid (incrementCost type s) = grid s.
Proof.
  unfold incrementCost. destruct (costs s !! type) as [c|]; [|reflexivity].
  destruct (Qlt_le_dec 0 c); reflexivity.
Qed.

(** ** Placement *)

Section Placement.

Variable gridSize : nat.

Lemma placeTile_failure_frame (s s' : Scene) (row col : Z) (type : string)
    (r : PlaceResult) (reason : Reason) :
  placeTile gridSize row col type s = (r, s') → reasonOf r = Some reason → s' = s.
Proof.
  intros H Hr. unfold placeTile, finishPlace in H.
  repeat match type of H with
         | context [match ?x with _ => _ end] =>
             match x with
             | checkArea _ _ _ => fail 1
             | _ => destruct x eqn:?
             end
         end;
    try (injection H as <- <-; try reflexivity; discriminate).
Qed.

Lemma placeTile_blocked_area (s : Scene) (row col : Z) (type : string) :
  grid_wf gridSize (grid s) →
  1 < b_size (getBuildingConfig type) →
  Forall (λ rc, isValidCoord gridSize (fst rc) (snd rc) = true)
         (footprint row col (b_size (getBuildingConfig type))) →
  Exists (λ rc, ∃ t, gridAt (grid s) (fst rc) (snd rc) = Some t ∧ occupied t = true)
         (footprint row col (b_size (getBuildingConfig type))) →
  placeTile gridSize row col type s = (SpaceBlockedOccupied, s).
Proof.
  intros Hwf Hmulti Hall Hex. unfold placeTile.
  assert (Hin : (row, col) ∈ footprint row col (b_size (getBuildingConfig type)))
    by (apply elem_of_footprint; lia).
  rewrite Forall_forall in Hall. pose proof (Hall _ Hin) as Hv. simpl in Hv.
  rewrite Hv. simpl.
  apply Z.ltb_lt in Hmulti. rewrite Hmulti.
  rewrite (checkArea_occupied gridSize (grid s) _ Hwf); [reflexivity| |exact Hex].
  apply Forall_forall. exact Hall.
Qed.

(** A free cell holds grass and has no master. *)
Lemma occupied_false (t : Tile) :
  occupied t = false → key t = "grass"%string ∧ masterTile t = None.
Proof.
  unfold occupied. intros H. apply orb_false_elim in H as [Hk Hm].
  apply negb_false_iff, String.eqb_eq in Hk.
  apply bool_decide_eq_false in Hm.
  split; [exact Hk|]. destruct (masterTile t); [exfalso; apply Hm; eauto|reflexivity].
Qed.

Lemma footprint_anchor (row col : Z) (type : string) :
  (row, col) ∈ footprint row col (b_size (getBuildingConfig type)).
Proof.
  apply elem_of_footprint.
  destruct (getBuildingConfig_cases type) as [[_ ->]|[[_ ->]| ->]]; simpl; lia.
Qed.

Lemma placeTile_need_money (s : Scene) (row col : Z) (type : string) (cost : Q) :
  Forall (λ rc, isValidCoord gridSize (fst rc) (snd rc) = true
                ∧ ∃ t, gridAt (grid s) (fst rc) (snd rc) = Some t ∧ occupied t = false)
         (footprint row col (b_size (getBuildingConfig type))) →
  type ≠ "grass"%string →
  cost = Js.or_else (costs s !! type) (b_cost (getBuildingConfig type)) →
  (0 < cost)%Q → (money s < cost)%Q →
  placeTile gridSize row col type s = (NeedMoney cost, s).
Proof.
  intros Hfree Hng -> Hpos Hshort. unfold placeTile.
  pose proof (footprint_anchor row col type) as Hin.
  pose proof Hfree as Hall. rewrite Forall_forall in Hall.
  destruct (Hall _ Hin) as (Hv & t & Ht & Hocc). simpl in Hv, Ht.
  rewrite Hv. simpl.
  rewrite (checkArea_free gridSize (grid s) _ Hfree).
  assert (Hcheck : (if 1 <? b_size (getBuildingConfig type)
                    then @None PlaceResult else None) = None)
    by (destruct (1 <? _); reflexivity).
  rewrite Hcheck, Ht, Hocc.
  apply occupied_false in Hocc as [Hkey _]. rewrite Hkey.
  assert (Hne : String.eqb "grass" type = false)
    by (apply String.eqb_neq; congruence).
  rewrite Hne. rewrite !andb_false_r. simpl.
  destruct (Qlt_le_dec 0 _) as [_|Hle]; [|lra].
  destruct (Qlt_le_dec (money s) _) as [_|Hle]; [reflexivity|lra].
Qed.

Lemma placeTile_reorient (s : Scene) (row col : Z) (k : string) (t : Tile) :
  grid_wf gridSize (grid s) →
  isValidCoord gridSize row col = true →
  gridAt (grid s) row col = Some t →
  key t = k →
  b_size (getBuildingConfig k) = 1 →
  isFlipped t ≠ previewFlipped s →
  placeTile gridSize row col k s
  = (Placed,
     set_localStorage
       (Some (mkGameState (money s) (population s) (happiness s) (costs s)
                (fmap (M := list) dataOfTile
                   <$> alterTile (retile k (previewFlipped s)) row col (grid s))))
       (set_grid (alterTile (retile k (previewFlipped s)) row col (grid s)) s)).
Proof.
  intros Hwf Hv Ht Hk Hsize Hflip. unfold placeTile.
  rewrite Hv, Hsize, Ht, Hk. simpl.
  rewrite String.eqb_refl. simpl. rewrite andb_false_r. simpl.
  assert (Hf : Bool.eqb (isFlipped t) (previewFlipped s) = false)
    by (apply Bool.eqb_false_iff; exact Hflip).
  rewrite Hf. simpl. unfold finishPlace. simpl.
  rewrite (saveGame_wf gridSize); [reflexivity|].
  simpl. apply alterTile_wf. exact Hwf.
Qed.

(** The set-up loop writes exactly the cells of the footprint. *)
Lemma gridAt_setupMultiTile (row col : Z) (type : string) (fl : bool)
    (coords : list (Z * Z)) (g : list (list Tile)) (r c : Z) :
  NoDup coords →
  Forall (λ rc, 0 <= fst rc ∧ 0 <= snd rc) coords →
  gridAt (setupMultiTile row col type fl coords g) r c
  = if decide ((r, c) ∈ coords)
    then markTile row col type fl r c <$> gridAt g r c
    else gridAt g r c.
Proof.
  unfold setupMultiTile. intros Hnd Hpos. revert g.
  induction Hnd as [|[r0 c0] rest Hnotin Hnd IH]; intros g; cbn [foldl fst snd].
  - case_decide as Hin; [inversion Hin|reflexivity].
  - apply Forall_cons in Hpos as [[Hr0 Hc0] Hpos]. simpl in Hr0, Hc0.
    rewrite (IH Hpos).
    destruct (decide ((r, c) = (r0, c0))) as [Heq|Hne].
    + injection Heq as -> ->.
      rewrite (decide_False (P := (r0, c0) ∈ rest)) by exact Hnotin.
      rewrite (decide_True (P := (r0, c0) ∈ (r0, c0) :: rest)) by left.
      apply gridAt_alterTile_eq.
    + rewrite (gridAt_alterTile_ne _ g r0 c0 r c Hr0 Hc0 Hne).
      destruct (decide ((r, c) ∈ rest)) as [Hin|Hnin].
      * rewrite (decide_True (P := (r, c) ∈ (r0, c0) :: rest)) by (right; exact Hin).
        reflexivity.
      * rewrite (decide_False (P := (r, c) ∈ (r0, c0) :: rest)); [reflexivity|].
        intros [?|?]%elem_of_cons; contradiction.
Qed.

(** A multi-tile placement that goes through found the whole footprint
    free and wrote it with the set-up loop. *)
Lemma placeTile_multi_placed (s s' : Scene) (row col : Z) (type : string) :
  1 < b_size (getBuildingConfig type) →
  placeTile gridSize row col type s = (Placed, s') →
  checkArea gridSize (grid s) (footprint row col (b_size (getBuildingConfig type))) = None
  ∧ grid s' = setupMultiTile row col type (previewFlipped s)
                (footprint row col (b_size (getBuildingConfig type))) (grid s).
Proof.
  intros Hmulti H. pose proof (multiTile_not_grass type Hmulti) as Hng.
  unfold placeTile in H.
  destruct (isValidCoord gridSize row col) eqn:Hv; simpl in H; [|discriminate].
  pose proof Hmulti as Hm. apply Z.ltb_lt in Hm. rewrite Hm in H.
  destruct (checkArea gridSize (grid s) _) as [r0|] eqn:Hcheck.
  { apply checkArea_result in Hcheck as [-> | [-> | ->]]; discriminate. }
  split; [reflexivity|].
  pose proof (checkArea_None gridSize _ _ Hcheck) as Hfree.
  rewrite Forall_forall in Hfree.
  destruct (Hfree _ (footprint_anchor row col type)) as (_ & t & Ht & Hocc).
  simpl in Ht. rewrite Ht in H. simpl in H.
  apply occupied_false in Hocc as [Hkey Hmaster]. rewrite Hkey, Hmaster in H.
  assert (Hne : String.eqb "grass" type = false)
    by (apply String.eqb_neq; congruence).
  rewrite Hne in H. simpl in H.
  unfold finishPlace in H. simpl in H.
  repeat match type of H with
         | context [match ?x with _ => _ end] => destruct x eqn:?
         end;
    try discriminate;
    injection H as <-; simpl;
    match goal with
    | Hs : saveGame _ _ = Some _ |- _ =>
        unfold saveGame in Hs;
        destruct (getGridData _ _); simpl in Hs; [|discriminate];
        injection Hs as <-
    end; simpl;
    repeat match goal with
           | |- context [Qlt_le_dec ?a ?b] => destruct (Qlt_le_dec a b)
           end;
    rewrite ?grid_applyEffects, ?grid_incrementCost; reflexivity.
Qed.

Lemma markTile_occupied (row col : Z) (type : string) (fl : bool) (r c : Z) (t : Tile) :
  occupied (markTile row col type fl r c t) = true
  ∧ masterTile (markTile row col type fl r c t) = Some (row, col)
  ∧ isMaster (markTile row col type fl r c t) = bool_decide ((r, c) = (row, col)).
Proof.
  unfold markTile, occupied.
  destruct ((r =? row) && (c =? col)) eqn:Hrc; cbn [key masterTile isMaster].
  - apply andb_prop in Hrc as [Hr Hc]. apply Z.eqb_eq in Hr, Hc. subst.
    split_and!; [|reflexivity|symmetry; apply bool_decide_eq_true_2; reflexivity].
    apply orb_true_intro. right. apply bool_decide_eq_true_2. eauto.
  - split_and!; [|reflexivity|symmetry; apply bool_decide_eq_false_2].
    + apply orb_true_intro. right. apply bool_decide_eq_true_2. eauto.
    + intros [= -> ->]. rewrite !Z.eqb_refl in Hrc. discriminate.
Qed.

(** A single-tile placement of a building that goes through leaves the
    cell with the new type and without a master. *)
Lemma placeTile_single_placed (s s' : Scene) (row col : Z) (type : string) :
  b_size (getBuildingConfig type) <= 1 →
  type ≠ "grass"%string →
  placeTile gridSize row col type s = (Placed, s') →
  ∃ t, gridAt (grid s) row col = Some t
       ∧ gridAt (grid s') row col = Some (retile type (previewFlipped s) t).
Proof.
  intros Hsingle Hng H. unfold placeTile in H.
  destruct (isValidCoord gridSize row col) eqn:Hv; simpl in H; [|discriminate].
  assert (Hm : (1 <? b_size (getBuildingConfig type)) = false) by (apply Z.ltb_ge; lia).
  rewrite Hm in H.
  destruct (gridAt (grid s) row col) as [t|] eqn:Ht; [|discriminate].
  exists t. split; [reflexivity|].
  assert (Hg : String.eqb type "grass" = false) by (apply String.eqb_neq; exact Hng).
  rewrite Hg in H. simpl in H.
  destruct (String.eqb (key t) type) eqn:Hsame; simpl in H.
  - rewrite andb_false_r in H. simpl in H. rewrite andb_true_r in H.
    destruct (Bool.eqb (isFlipped t) (previewFlipped s)); [discriminate|].
    unfold finishPlace in H. simpl in H.
    destruct (saveGame gridSize _) as [s2|] eqn:Hs; [|discriminate].
    injection H as <-. unfold saveGame in Hs.
    destruct (getGridData _ _); simpl in Hs; [|discriminate].
    injection Hs as <-. simpl. rewrite gridAt_alterTile_eq, Ht. reflexivity.
  - rewrite andb_true_r in H.
    destruct (occupied t) eqn:Hocc; [discriminate|].
    apply occupied_false in Hocc as [Hkey Hmaster]. rewrite Hkey, Hmaster in H.
    simpl in H. unfold finishPlace in H. simpl in H.
    repeat match type of H with
           | context [match ?x with _ => _ end] => destruct x eqn:?
           end;
      try discriminate;
      injection H as <-; simpl;
      match goal with
      | Hs : saveGame _ _ = Some _ |- _ =>
          unfold saveGame in Hs;
          destruct (getGridData _ _); simpl in Hs; [|discriminate];
          injection Hs as <-
      end; simpl;
      repeat match goal with
             | |- context [Qlt_le_dec ?a ?b] => destruct (Qlt_le_dec a b)
             end;
      rewrite gridAt_alterTile_eq, ?grid_applyEffects, ?grid_incrementCost;
      simpl; rewrite ?grid_reverseEffects, ?grid_incrementCost; simpl; rewrite Ht;
      reflexivity.
Qed.

End Placement.

(** ** initGrid *)

Lemma dataOfTile_tileOfData (d : TileData) : dataOfTile (tileOfData d) = d.
Proof. destruct d as [ty [|] m im]; reflexivity. Qed.

Lemma fmap_const_seq {A : Type} (x : A) (a n : nat) :
  (λ _, x) <$> seq a n = replicate n x.
Proof.
  revert a. induction n as [|n IH]; intros a; simpl; [reflexivity|].
  rewrite IH. reflexivity.
Qed.

Section InitGrid.

Variable gridSize : nat.

(** The inner loop on a saved row that is long enough. *)
Lemma initCells_saved (data : list (list TileData)) (r : nat) (row : list TileData)
    (k a : nat) (acc : list Tile) :
  data !! r = Some row → (a + k <= length row)%nat →
  initCells (Some data) r (seq a k) acc
  = (acc ++ (tileOfData <$> take k (drop a row)), true).
Proof.
  intros Hr. revert a acc. induction k as [|k IH]; intros a acc Hlen; simpl.
  - rewrite app_nil_r. reflexivity.
  - rewrite Hr. simpl.
    destruct (row !! a) as [d|] eqn:Hd.
    + rewrite IH by lia. rewrite <- app_assoc. simpl.
      rewrite (drop_S row d a Hd). reflexivity.
    + apply lookup_ge_None in Hd. lia.
Qed.

Lemma initCells_fresh (r k a : nat) (acc : list Tile) :
  initCells None r (seq a k) acc
  = (acc ++ replicate k (tileOfData defaultTileData), true).
Proof.
  revert a acc. induction k as [|k IH]; intros a acc; simpl.
  - rewrite app_nil_r. reflexivity.
  - rewrite IH, <- app_assoc. reflexivity.
Qed.

Lemma setRow_take_drop (r : nat) (row : list Tile) (g : list (list Tile)) :
  (r <= length g)%nat → setRow r row g = take r g ++ row :: drop (S r) g.
Proof.
  intros Hr. unfold setRow. destruct (r <? length g)%nat eqn:Hlt.
  - apply Nat.ltb_lt in Hlt. apply list_eq. intros i.
    destruct (decide (i = r)) as [->|Hne].
    + rewrite list_lookup_insert_eq by exact Hlt.
      rewrite lookup_app_r by (rewrite length_take; lia).
      rewrite length_take, Nat.min_l by lia. rewrite Nat.sub_diag. reflexivity.
    + rewrite list_lookup_insert_ne by congruence.
      destruct (decide (i < r)%nat) as [Hi|Hi].
      * rewrite lookup_app_l by (rewrite length_take; lia).
        rewrite lookup_take_lt by exact Hi. reflexivity.
      * rewrite lookup_app_r by (rewrite length_take; lia).
        rewrite length_take, Nat.min_l by lia.
        destruct (i - r)%nat as [|j] eqn:Hj; [lia|]. simpl.
        rewrite lookup_drop. f_equal. lia.
  - apply Nat.ltb_ge in Hlt. assert (r = length g) by lia. subst r.
    rewrite firstn_all. rewrite drop_ge by lia. reflexivity.
Qed.

(** The outer loop, when each inner loop [F r] runs to its end. *)
Lemma initRows_ok (saved : option (list (list TileData))) (F : nat → list Tile)
    (k a : nat) (g : list (list Tile)) :
  (∀ r, (a <= r < a + k)%nat → initCells saved r (seq 0 gridSize) [] = (F r, true)) →
  (a <= length g)%nat →
  initRows gridSize saved (seq a k) g
  = (take a g ++ (F <$> seq a k) ++ drop (a + k) g, true).
Proof.
  revert a g. induction k as [|k IH]; intros a g HF Ha; simpl.
  - rewrite Nat.add_0_r, take_drop. reflexivity.
  - rewrite (HF a) by lia.
    rewrite setRow_take_drop by exact Ha.
    rewrite IH.
    + f_equal.
      rewrite take_app_ge by (rewrite length_take; lia).
      rewrite length_take, Nat.min_l by lia.
      replace (S a - a)%nat with 1%nat by lia. simpl. rewrite take_0.
      rewrite <- app_assoc. simpl. do 3 f_equal.
      rewrite drop_app_ge by (rewrite length_take; lia).
      rewrite length_take, Nat.min_l by lia.
      match goal with
      | |- drop ?n (_ :: _) = _ => replace n with (S k) by lia
      end.
      cbn [drop]. rewrite drop_drop. f_equal. lia.
    + intros r Hr. apply HF. lia.
    + rewrite length_app, length_take. simpl. lia.
Qed.

Lemma initGrid_fresh : initGrid gridSize None [] = (freshGrid gridSize, true).
Proof.
  unfold initGrid.
  rewrite (initRows_ok None (λ _, replicate gridSize (tileOfData defaultTileData))).
  - rewrite drop_nil, app_nil_r. cbn [take app]. f_equal. apply fmap_const_seq.
  - intros r _. apply initCells_fresh.
  - simpl. lia.
Qed.

Lemma initGrid_saved (data : list (list TileData)) (g : list (list Tile)) :
  data_wf gridSize data → (length g <= gridSize)%nat →
  initGrid gridSize (Some data) g = (fmap (M := list) tileOfData <$> data, true).
Proof.
  intros [Hlen Hrows] Hg. unfold initGrid.
  rewrite (initRows_ok (Some data)
             (λ r, match data !! r with
                   | Some row => tileOfData <$> row
                   | None => []
                   end)).
  - rewrite drop_ge by (simpl; lia). rewrite app_nil_r, take_0. cbn [app]. f_equal.
    apply list_eq. intros i. rewrite !list_lookup_fmap.
    destruct (decide (i < gridSize)%nat) as [Hi|Hi].
    + rewrite lookup_seq_lt by exact Hi. simpl.
      destruct (lookup_lt_is_Some_2 data i) as [row Hrow]; [lia|].
      rewrite Hrow. reflexivity.
    + rewrite lookup_seq_ge by lia.
      rewrite (lookup_ge_None_2 data i) by lia. reflexivity.
  - intros r Hr.
    destruct (lookup_lt_is_Some_2 data r) as [row Hrow]; [lia|]. rewrite Hrow.
    rewrite Forall_lookup in Hrows. pose proof (Hrows _ _ Hrow) as Hl.
    rewrite (initCells_saved data r row gridSize 0 [] Hrow) by (simpl; lia).
    simpl. rewrite drop_0, take_ge by lia. reflexivity.
  - lia.
Qed.

Lemma freshGrid_wf : grid_wf gridSize (freshGrid gridSize).
Proof.
  unfold freshGrid. split; [apply length_replicate|].
  apply Forall_replicate. apply length_replicate.
Qed.

Lemma tileOfData_wf (data : list (list TileData)) :
  data_wf gridSize data → grid_wf gridSize (fmap (M := list) tileOfData <$> data).
Proof.
  intros [Hlen Hrows]. split; [rewrite length_fmap; exact Hlen|].
  apply Forall_fmap. eapply Forall_impl; [exact Hrows|].
  intros row Hrow. simpl. rewrite length_fmap. exact Hrow.
Qed.

Lemma dataOfTile_wf (g : list (list Tile)) :
  grid_wf gridSize g → data_wf gridSize (fmap (M := list) dataOfTile <$> g).
Proof.
  intros [Hlen Hrows]. split; [rewrite length_fmap; exact Hlen|].
  apply Forall_fmap. eapply Forall_impl; [exact Hrows|].
  intros row Hrow. simpl. rewrite length_fmap. exact Hrow.
Qed.

End InitGrid.

(** ** What every reachable scene satisfies *)

Section Invariant.

Variable gridSize : nat.

Lemma inv_same (s t : Scene) :
  grid t = grid s → dom (costs s) ⊆ dom (costs t) →
  costs t !! "grass"%string = costs s !! "grass"%string →
  localStorage t = localStorage s →
  scene_inv gridSize s → scene_inv gridSize t.
Proof.
  intros Hg Hc Hgr Hl (Hwf & Hdom & Hfree & Hdoc). unfold scene_inv.
  rewrite Hg, Hl, Hgr. split_and!; [assumption|etrans; eassumption|assumption..].
Qed.

Lemma inv_incrementCost (type : string) (s : Scene) :
  scene_inv gridSize s → scene_inv gridSize (incrementCost type s).
Proof.
  intros Hinv. pose proof Hinv as (_ & _ & Hfree & _). revert Hinv.
  apply inv_same; [apply grid_incrementCost|..];
    unfold incrementCost; destruct (costs s !! type) as [c|] eqn:Hc; try reflexivity;
    destruct (Qlt_le_dec 0 c) as [Hpos|Hneg]; try reflexivity; simpl.
  - rewrite dom_insert. apply union_subseteq_r.
  - apply lookup_insert_ne. intros ->.
    rewrite Hfree in Hc. injection Hc as <-. revert Hpos. apply Qlt_irrefl.
Qed.

Lemma inv_applyEffects (config : BuildingConfig) (s : Scene) :
  scene_inv gridSize s → scene_inv gridSize (applyEffects config s).
Proof.
  apply inv_same; [apply grid_applyEffects|..]; unfold applyEffects;
    (destruct (b_effects config) as [effects|]; [|reflexivity]);
    destruct (eff_population effects), (eff_happiness effects);
    repeat match goal with |- context [Js.truthy ?x] => destruct (Js.truthy x) end;
    reflexivity.
Qed.

Lemma inv_reverseEffects (config : BuildingConfig) (s : Scene) :
  scene_inv gridSize s → scene_inv gridSize (reverseEffects config s).
Proof.
  apply inv_same; [apply grid_reverseEffects|..]; unfold reverseEffects;
    (destruct (b_effects config) as [effects|]; [|reflexivity]);
    destruct (eff_population effects), (eff_happiness effects);
    repeat match goal with |- context [Js.truthy ?x] => destruct (Js.truthy x) end;
    reflexivity.
Qed.

Lemma inv_set_grid (g : list (list Tile)) (s : Scene) :
  grid_wf gridSize g → scene_inv gridSize s → scene_inv gridSize (set_grid g s).
Proof. intros Hg (_ & Hdom & Hfree & Hdoc). split_and!; assumption. Qed.

Lemma clearCells_wf (coords : list (Z * Z)) (g : list (list Tile)) :
  grid_wf gridSize g → grid_wf gridSize (fst (clearCells coords g)).
Proof.
  revert g. induction coords as [|[r c] rest IH]; intros g Hwf; simpl; [exact Hwf|].
  destruct (gridAt g r c); [|exact Hwf]. apply IH, alterTile_wf, Hwf.
Qed.

Lemma inv_clearMultiTile (m : Z * Z) (s : Scene) :
  scene_inv gridSize s → scene_inv gridSize (fst (clearMultiTile m s)).
Proof.
  intros Hinv. unfold clearMultiTile.
  destruct (gridAt (grid s) m.1 m.2) as [master|]; [|exact Hinv].
  destruct (b_effects (getBuildingConfig (key master))); [|exact Hinv].
  pose proof (inv_reverseEffects (getBuildingConfig (key master)) s Hinv) as Hinv1.
  pose proof (clearCells_wf
                (footprint m.1 m.2 (b_size (getBuildingConfig (key master))))
                _ (proj1 Hinv1)) as Hwf.
  destruct (clearCells _ _) as [g ok]. simpl in *.
  apply inv_set_grid; assumption.
Qed.

Lemma setupMultiTile_wf (row col : Z) (type : string) (fl : bool)
    (coords : list (Z * Z)) (g : list (list Tile)) :
  grid_wf gridSize g → grid_wf gridSize (setupMultiTile row col type fl coords g).
Proof.
  unfold setupMultiTile. revert g.
  induction coords as [|rc rest IH]; intros g Hwf; simpl; [exact Hwf|].
  apply IH, alterTile_wf, Hwf.
Qed.

Lemma inv_saveGame (s s' : Scene) :
  scene_inv gridSize s → saveGame gridSize s = Some s' → scene_inv gridSize s'.
Proof.
  intros (Hwf & Hdom & Hfree & Hdoc) H. rewrite (saveGame_wf gridSize s Hwf) in H.
  injection H as <-. split_and!; [assumption..|].
  simpl. intros doc [= <-]. simpl. split; [apply dataOfTile_wf, Hwf|exact Hfree].
Qed.

Lemma inv_finishPlace (row col : Z) (type : string) (multiTile fl : bool)
    (s s' : Scene) (r : PlaceResult) :
  scene_inv gridSize s →
  finishPlace gridSize row col type multiTile fl s = (r, s') → scene_inv gridSize s'.
Proof.
  intros Hinv. unfold finishPlace.
  set (s1 := if negb multiTile then _ else s).
  assert (Hinv1 : scene_inv gridSize s1).
  { subst s1. destruct (negb multiTile); [|exact Hinv].
    apply inv_set_grid; [apply alterTile_wf, Hinv|exact Hinv]. }
  destruct (saveGame gridSize s1) as [s2|] eqn:Hs; intros [= <- <-].
  - eapply inv_saveGame; eauto.
  - exact Hinv1.
Qed.

Lemma inv_placeTile (row col : Z) (type : string) (s s' : Scene) (r : PlaceResult) :
  scene_inv gridSize s →
  placeTile gridSize row col type s = (r, s') → scene_inv gridSize s'.
Proof.
  intros Hinv H. unfold placeTile in H.
  destruct (negb (isValidCoord gridSize row col)); [injection H as <- <-; exact Hinv|].
  destruct (if 1 <? b_size (getBuildingConfig type) then _ else None) as [r0|];
    [injection H as <- <-; exact Hinv|].
  destruct (gridAt (grid s) row col) as [oldTile|]; [|injection H as <- <-; exact Hinv].
  destruct (negb (1 <? b_size (getBuildingConfig type)) && _ && _ && _);
    [injection H as <- <-; exact Hinv|].
  destruct (String.eqb (key oldTile) type && _ && _);
    [injection H as <- <-; exact Hinv|].
  destruct (String.eqb (key oldTile) type); [eapply inv_finishPlace; eauto|].
  match type of H with
  | (if ?b then _ else _) = _ => destruct b; [injection H as <- <-; exact Hinv|]
  end.
  match type of H with
  | match ?x with Some _ => _ | None => _ end = _ =>
      destruct x; [injection H as <- <-; exact Hinv|]
  end.
  match type of H with
  | context [clearMultiTile _ ?s1] =>
      assert (Hinv1 : scene_inv gridSize s1);
      [ destruct (Qlt_le_dec 0 _);
        [apply inv_incrementCost; eapply inv_same; [..|exact Hinv]; reflexivity
        |exact Hinv]
      | let x := fresh "s1" in set (x := s1) in *; clearbody x ]
  end.
  match type of H with
  | (let '(_, _) := ?x in _) = _ =>
      assert (Hinv2 : scene_inv gridSize (fst x));
      [ destruct (masterTile oldTile);
        [ apply inv_clearMultiTile; exact Hinv1
        | destruct (negb _); [destruct (b_effects _)|]; simpl;
          [apply inv_reverseEffects; exact Hinv1|exact Hinv1..] ]
      | destruct x as [s2 ok] ]
  end.
  simpl in Hinv2.
  destruct (negb ok); [injection H as <- <-; exact Hinv2|].
  destruct (b_effects (getBuildingConfig type)); [|injection H as <- <-; exact Hinv2].
  eapply inv_finishPlace; [|exact H].
  pose proof (inv_applyEffects (getBuildingConfig type) s2 Hinv2) as Hinv3.
  destruct (1 <? b_size (getBuildingConfig type)); [|exact Hinv3].
  apply inv_set_grid; [|exact Hinv3].
  apply setupMultiTile_wf. exact (proj1 Hinv3).
Qed.

Lemma inv_handleTick (s s' : Scene) :
  scene_inv gridSize s → handleTick gridSize s = Some s' → scene_inv gridSize s'.
Proof.
  intros Hinv H. apply handleTick_frame in H as (Hg & _ & _ & Hc & _ & Hl).
  eapply inv_same; [exact Hg|rewrite Hc; reflexivity|rewrite Hc; reflexivity
                   |exact Hl|exact Hinv].
Qed.

Lemma inv_newScene (stored : option GameState) :
  (∀ doc, stored = Some doc →
          data_wf gridSize (gs_grid doc) ∧ gs_costs doc !! "grass"%string = Some 0%Q) →
  scene_inv gridSize (newScene gridSize stored).
Proof.
  intros Hdoc. unfold newScene, loadGame. rewrite initGrid_fresh. simpl.
  destruct stored as [doc|]; simpl.
  - destruct (Hdoc doc eq_refl) as [Hdata Hfree].
    rewrite (initGrid_saved gridSize (gs_grid doc) (freshGrid gridSize) Hdata)
      by (rewrite (proj1 (freshGrid_wf gridSize)); lia).
    split_and!; simpl.
    + apply tileOfData_wf, Hdata.
    + rewrite dom_union. apply union_subseteq_r.
    + apply lookup_union_Some_l. exact Hfree.
    + exact Hdoc.
  - split_and!; simpl; [apply freshGrid_wf|reflexivity|reflexivity|discriminate].
Qed.

Lemma reachable_inv (s : Scene) : reachable gridSize s → scene_inv gridSize s.
Proof.
  induction 1 as [|s row col type r s' _ IH Hp|s _ IH|s s' _ IH Ht|s _ IH].
  - apply inv_newScene. discriminate.
  - eapply inv_placeTile; eauto.
  - eapply inv_same; [..|exact IH]; reflexivity.
  - eapply inv_handleTick; eauto.
  - apply inv_newScene. apply IH.
Qed.

(** Saved entries win over the defaults, and every default has a saved
    entry: the merged object is the saved one. *)
Lemma costs_merge (saved defaults : gmap string Q) :
  dom defaults ⊆ dom saved → saved ∪ defaults = saved.
Proof.
  intros Hdom. apply map_eq. intros i. rewrite lookup_union.
  destruct (saved !! i) as [x|] eqn:Hs; [destruct (defaults !! i); reflexivity|].
  destruct (defaults !! i) as [y|] eqn:Hd; [|reflexivity].
  exfalso. apply not_elem_of_dom in Hs. apply Hs, Hdom. apply elem_of_dom. eauto.
Qed.

(** Loading a document saved from a scene with the invariant. *)
Lemma save_load (s : Scene) :
  scene_inv gridSize s →
  ∃ s1 data,
    saveGame gridSize s = Some s1
    ∧ getGridData gridSize (grid s) = Some data
    ∧ getGridData gridSize (grid (newScene gridSize (localStorage s1))) = Some data
    ∧ money (newScene gridSize (localStorage s1)) = money s
    ∧ population (newScene gridSize (localStorage s1)) = population s
    ∧ happiness (newScene gridSize (localStorage s1)) = happiness s
    ∧ costs (newScene gridSize (localStorage s1)) = costs s.
Proof.
  intros (Hwf & Hdom & _ & Hdoc).
  eexists _, _. split; [apply saveGame_wf; exact Hwf|].
  split; [apply getGridData_wf; exact Hwf|].
  simpl. unfold newScene, loadGame. rewrite initGrid_fresh. simpl.
  rewrite (initGrid_saved gridSize _ (freshGrid gridSize)
             (dataOfTile_wf gridSize _ Hwf))
    by (rewrite (proj1 (freshGrid_wf gridSize)); lia).
  simpl. rewrite !Qplus_0_r_eq. split_and!; try reflexivity.
  - rewrite getGridData_wf by (apply tileOfData_wf, dataOfTile_wf, Hwf).
    f_equal. rewrite <- !list_fmap_compose.
    apply list_fmap_ext. intros _ row _. simpl.
    rewrite <- !list_fmap_compose.
    apply list_fmap_ext. intros _ t _. simpl. apply dataOfTile_tileOfData.
  - apply costs_merge. exact Hdom.
Qed.

(** The document and the reloaded grid, tile by tile. *)
Lemma save_load_tiles (s : Scene) :
  scene_inv gridSize s →
  ∃ s1 doc,
    saveGame gridSize s = Some s1
    ∧ localStorage s1 = Some doc
    ∧ gs_money doc = money s ∧ gs_population doc = population s
    ∧ gs_happiness doc = happiness s ∧ gs_costs doc = costs s
    ∧ gs_grid doc = (fmap (M := list) dataOfTile <$> grid s)
    ∧ grid (newScene gridSize (localStorage s1))
      = (fmap (M := list) tileOfData <$> (fmap (M := list) dataOfTile <$> grid s)).
Proof.
  intros (Hwf & Hdom & _ & Hdoc).
  eexists _, _. split; [apply saveGame_wf; exact Hwf|].
  split; [reflexivity|]. split_and!; try reflexivity.
  simpl. unfold newScene, loadGame. rewrite initGrid_fresh. simpl.
  rewrite (initGrid_saved gridSize _ (freshGrid gridSize)
             (dataOfTile_wf gridSize _ Hwf))
    by (rewrite (proj1 (freshGrid_wf gridSize)); lia).
  reflexivity.
Qed.

End Invariant.

(** ** The example game is reachable *)

Lemma ticks_reachable (gridSize n : nat) (s t : Scene) :
  reachable gridSize s → ticks gridSize n s = Some t → reachable gridSize t.
Proof.
  intros Hs. revert t. induction n as [|n IH]; intros t Ht.
  - injection Ht as <-. exact Hs.
  - unfold ticks in Ht. simpl in Ht. fold (ticks gridSize n s) in Ht.
    destruct (ticks gridSize n s) as [t0|]; [|discriminate].
    simpl in Ht. eapply reach_tick; [apply IH; reflexivity|exact Ht].
Qed.

Lemma shopTown_reachable : reachable 8 shopTown.
Proof.
  unfold shopTown.
  eapply (reach_place 8 houseTown 0 1 "shop"); [|apply surjective_pairing].
  unfold houseTown.
  eapply (reach_place 8 (newScene 8 None) 0 0 "house"); [|apply surjective_pairing].
  apply reach_new.
Qed.

(** * The claims *)

(** ** Tick economy *)



(** C10.  A tick never lowers the balance: the income is added only when
    it is positive, and a zero or negative income (a negative clamped
    happiness) leaves the scene as it is. *)
Theorem tick_never_decreases_balance (gridSize : nat) (s : Scene) :
  grid_wf gridSize (grid s) →
  ∃ income s',
    calculateIncome gridSize s = Some income
    ∧ handleTick gridSize s = Some s'
    ∧ (money s <= money s')%Q
    ∧ ((income <= 0)%Q → s' = s)
    ∧ ((0 < income)%Q → money s' = (money s + income)%Q).
Proof.
  intros Hwf.
  pose proof (countTiles_wf gridSize "shop" (grid s) Hwf) as Hs.
  pose proof (countTiles_wf gridSize "market" (grid s) Hwf) as Hm.
  destruct (calculateIncome_counts gridSize s _ _ Hs Hm) as (income & Hinc & _).
  exists income. unfold handleTick. rewrite Hinc. simpl.
  eexists. split_and!; [reflexivity..| | |];
    destruct (Qlt_le_dec 0 income) as [Hpos|Hneg]; simpl; intros; try reflexivity; lra.
Qed.

Lemma tick_never_decreases_balance_witness :
  ∃ income s',
    calculateIncome 8 shopTown = Some income
    ∧ handleTick 8 shopTown = Some s'
    ∧ (money shopTown <= money s')%Q
    ∧ ((income <= 0)%Q → s' = shopTown)
    ∧ ((0 < income)%Q → money s' = (money shopTown + income)%Q).
Proof.
  apply (tick_never_decreases_balance 8 shopTown).
  split; [reflexivity|]. vm_compute. repeat constructor.
Defined.

(** ** Depth sort *)

(** C6.  The comparator orders two sprites by the key [row + col], plus
    [size - 1] for a kind whose footprint is larger than one cell, plus a
    bias of one tenth for any texture other than grass.  The size is the one
    the registry gives the kind: the key of a university or a market, the
    kinds of size 2, is [row + col + 1.1]; the key of a house, a shop or a
    park is [row + col + 0.1]; the key of grass is [row + col]; a texture
    that is no kind of the registry gets the bias of one tenth only.  When
    the keys of two sprites differ the comparator returns their difference,
    so the smaller key sorts first; in particular a building and a grass
    tile with the same [row + col] never tie: the building sorts after the
    tile. *)
Theorem depth_key_orders_sprites (a b : Sprite) :
  (∀ k cfg, textureKey a = Some k → registry_get BuildingRegistry k = Some cfg →
     (depthOf a == spec_key (rowOf a) (colOf a) (b_size cfg) (notGrass a))%Q)
  ∧ (∀ k, textureKey a = Some k →
          k = "university"%string ∨ k = "market"%string →
          (depthOf a == inject_Z (rowOf a + colOf a) + 1 + (1 # 10))%Q)
  ∧ (∀ k, textureKey a = Some k →
          k = "house"%string ∨ k = "shop"%string ∨ k = "park"%string →
          (depthOf a == inject_Z (rowOf a + colOf a) + (1 # 10))%Q)
  ∧ (textureKey a = Some "grass"%string →
     (depthOf a == inject_Z (rowOf a + colOf a))%Q)
  ∧ (∀ k, textureKey a = Some k → registry_get BuildingRegistry k = None →
          (depthOf a == inject_Z (rowOf a + colOf a) + (1 # 10))%Q)
  ∧ (¬ (depthOf a == depthOf b)%Q →
     depthCompare a b = (depthOf a - depthOf b)%Q
     ∧ ((depthCompare a b < 0)%Q ↔ (depthOf a < depthOf b)%Q))
  ∧ (notGrass a = true → notGrass b = false →
     rowOf a + colOf a = rowOf b + colOf b →
     (0 < depthCompare a b)%Q).
Proof.
  split_and!.
  - intros k cfg Hk Hcfg. unfold depthOf, spec_key, spriteConfig, getBuildingConfig.
    rewrite Hk, Hcfg. destruct (1 <? b_size cfg), (notGrass a); lra.
  - intros k Hk [-> | ->]; unfold depthOf, spriteConfig, notGrass; rewrite Hk;
      cbn -[Qplus inject_Z Z.add]; change (inject_Z (2 - 1)) with 1%Q; lra.
  - intros k Hk [-> | [-> | ->]]; unfold depthOf, spriteConfig, notGrass; rewrite Hk;
      cbn -[Qplus inject_Z Z.add]; lra.
  - intros Hk. unfold depthOf, spriteConfig, notGrass. rewrite Hk.
    cbn -[Qplus inject_Z Z.add]. lra.
  - intros k Hk Hnone. unfold depthOf, spriteConfig, notGrass, getBuildingConfig.
    rewrite Hk, Hnone.
    assert (Hng : String.eqb k "grass" = false).
    { apply String.eqb_neq. intros ->. discriminate. }
    rewrite Hng. destruct (inheritedKey k); cbn -[Qplus inject_Z Z.add]; lra.
  - intros Hne.
    assert (Hk : key10 a ≠ key10 b) by (rewrite <- depth_eq_key10; exact Hne).
    split.
    + unfold depthCompare.
      destruct (Qlt_le_dec (1 # 100) (Js.abs (depthOf a - depthOf b))) as [_|Hnear];
        [reflexivity|].
      exfalso. apply abs_small_iff in Hnear.
      destruct (Z.lt_trichotomy (key10 a) (key10 b)) as [Hlt|[Heq|Hgt]]; [|contradiction|].
      * pose proof (depth_gap a b Hlt). lra.
      * pose proof (depth_gap b a Hgt). lra.
    + rewrite depthCompare_lt, depth_lt_key10. split; [intros [?|[? _]]|]; tauto.
  - intros Ha Hb Hrc. apply depthCompare_gt. left.
    unfold key10. rewrite Ha, Hb, Hrc.
    assert (Hcfg : spriteConfig b = grass_config).
    { unfold notGrass, spriteConfig in *. destruct (textureKey b) as [k|]; [|discriminate].
      apply negb_false_iff, String.eqb_eq in Hb. subst k. reflexivity. }
    rewrite Hcfg. simpl.
    destruct (1 <? b_size (spriteConfig a)) eqn:Hsz; [apply Z.ltb_lt in Hsz|]; lia.
Qed.

Lemma depth_key_orders_sprites_witness :
  let university := spriteOfTile 2 2 (mkTile "university" false (Some (2, 2)) true true) in
  let house := spriteOfTile 2 2 (mkTile "house" false None false true) in
  let ground := spriteOfTile 3 2 (mkTile "grass" false None false true) in
  (depthOf university == inject_Z (2 + 2) + 1 + (1 # 10))%Q
  ∧ (depthOf house == inject_Z (2 + 2) + (1 # 10))%Q
  ∧ (depthOf ground == inject_Z (3 + 2))%Q
  ∧ depthCompare university ground = (depthOf university - depthOf ground)%Q
  ∧ (0 < depthCompare university ground)%Q
  ∧ (depthCompare house ground < 0)%Q.
Proof.
  intros university house ground.
  destruct (depth_key_orders_sprites university ground) as (_ & Hbig & _ & _ & _ & Hdiff & _).
  destruct (depth_key_orders_sprites house ground) as (_ & _ & Hsmall & _ & _ & Hdiff' & _).
  destruct (depth_key_orders_sprites ground house) as (_ & _ & _ & Hgrass & _).
  assert (Hne : ¬ (depthOf university == depthOf ground)%Q)
    by (intros H; vm_compute in H; discriminate).
  assert (Hne' : ¬ (depthOf house == depthOf ground)%Q)
    by (intros H; vm_compute in H; discriminate).
  split_and!.
  - apply (Hbig "university"%string); [reflexivity|left; reflexivity].
  - apply (Hsmall "house"%string); [reflexivity|left; reflexivity].
  - apply Hgrass. reflexivity.
  - apply (Hdiff Hne).
  - rewrite (proj1 (Hdiff Hne)). vm_compute. reflexivity.
  - apply (proj2 (Hdiff' Hne')). vm_compute. reflexivity.
Defined.



(** The claim C7 as it is stated fails: the order is not total on the
    attributes.  A house at (2,3) and a size-2 building anchored at (2,2)
    are two distinct sprites with the same key 5.1 and the same row; the
    comparator returns 0 both ways, and the sorted output follows the input
    order. *)
Lemma equal_keys_follow_input_order :
  let house := spriteOfTile 2 3 (mkTile "house" false None false true) in
  let university := spriteOfTile 2 2 (mkTile "university" false (Some (2, 2)) true true) in
  house ≠ university
  ∧ (depthOf house == 51 # 10)%Q ∧ (depthOf university == 51 # 10)%Q
  ∧ rowOf house = rowOf university
  ∧ isPreview house = false ∧ isPreview university = false
  ∧ (depthCompare house university == 0)%Q
  ∧ (depthCompare university house == 0)%Q
  ∧ updateDepths [house; university] = [house; university]
  ∧ updateDepths [university; house] = [university; house]
  ∧ updateDepths [house; university] ≠ updateDepths [university; house].
Proof.
  cbv zeta. split_and!; try (vm_compute; reflexivity); try discriminate.
Qed.

(** ** Placement *)

(** C3.  A call of [placeTile] that ends for one of the reasons
    OutOfBounds, Occupied, InsufficientFunds or PrerequisiteNotMet leaves
    the whole scene as it was: grid, balance, population, happiness,
    costs.  On a grid of at least 7 by 7 cells, a kind of size 2 placed at
    (5,5) while one of (5,6), (6,5), (6,6) is occupied ends with Occupied
    and the scene unchanged. *)
Theorem failed_placement_mutates_nothing (gridSize : nat) (s : Scene) :
  (∀ row col type r s' reason,
     placeTile gridSize row col type s = (r, s') → reasonOf r = Some reason → s' = s)
  ∧ (∀ type r c t,
       (7 <= gridSize)%nat →
       grid_wf gridSize (grid s) →
       b_size (getBuildingConfig type) = 2 →
       (r, c) ∈ [(5, 6); (6, 5); (6, 6)] →
       gridAt (grid s) r c = Some t → occupied t = true →
       placeTile gridSize 5 5 type s = (SpaceBlockedOccupied, s)
       ∧ reasonOf SpaceBlockedOccupied = Some Occupied).
Proof.
  split.
  - intros row col type r s' reason. apply placeTile_failure_frame.
  - intros type r c t Hsize Hwf Htwo Hin Ht Hocc. split; [|reflexivity].
    apply placeTile_blocked_area; [exact Hwf|lia| |].
    + rewrite Htwo. apply Forall_forall. intros [r' c'] Hrc.
      apply elem_of_footprint in Hrc. simpl.
      apply isValidCoord_bounds. lia.
    + rewrite Htwo. apply Exists_exists. exists (r, c). split; [|simpl; eauto].
      apply elem_of_footprint.
      repeat (apply elem_of_cons in Hin as [[= -> ->]|Hin]; [lia|]).
      inversion Hin.
Qed.

Lemma failed_placement_mutates_nothing_witness :
  snd (placeTile 8 9 0 "house" shopTown) = shopTown
  ∧ placeTile 8 5 5 "university" cornerTown = (SpaceBlockedOccupied, cornerTown).
Proof.
  split.
  - apply (proj1 (failed_placement_mutates_nothing 8 shopTown)
             9 0 "house"%string InvalidCoord _ OutOfBounds); vm_compute; reflexivity.
  - apply (proj2 (failed_placement_mutates_nothing 8 cornerTown)
             "university"%string 6 6 (mkTile "house" false None false true)).
    + lia.
    + split; [reflexivity|]. vm_compute. repeat constructor.
    + reflexivity.
    + do 2 right. left.
    + vm_compute. reflexivity.
    + reflexivity.
Defined.

(** C4.  Placing a kind on free cells inside the grid, when its current
    cost is positive and exceeds the balance, ends with InsufficientFunds
    ("NEED $cost") and leaves the balance, and the whole scene, unchanged.
    This holds in every scene a player can reach, and in any scene
    whatever for a kind other than grass (the kind that removal places). *)
Theorem unaffordable_placement_is_refused (gridSize : nat) (s : Scene)
    (row col : Z) (type : string) (cost : Q) :
  reachable gridSize s ∨ type ≠ "grass"%string →
  Forall (λ rc, isValidCoord gridSize (fst rc) (snd rc) = true
                ∧ ∃ t, gridAt (grid s) (fst rc) (snd rc) = Some t ∧ occupied t = false)
         (footprint row col (b_size (getBuildingConfig type))) →
  cost = Js.or_else (costs s !! type) (b_cost (getBuildingConfig type)) →
  (0 < cost)%Q → (money s < cost)%Q →
  ∃ r s', placeTile gridSize row col type s = (r, s')
          ∧ r = NeedMoney cost ∧ reasonOf r = Some InsufficientFunds
          ∧ money s' = money s ∧ s' = s.
Proof.
  intros Hkind Hfree Hcost Hpos Hshort.
  assert (Hng : type ≠ "grass"%string).
  { destruct Hkind as [Hreach|Hng]; [|exact Hng].
    intros ->. apply reachable_inv in Hreach as (_ & _ & Hzero & _).
    rewrite Hzero in Hcost. subst cost. revert Hpos. apply Qlt_irrefl. }
  exists (NeedMoney cost), s. split_and!; try reflexivity.
  apply placeTile_need_money; assumption.
Qed.

Lemma unaffordable_placement_is_refused_witness :
  ∃ r s', placeTile 8 2 2 "market" shopTown = (r, s')
          ∧ r = NeedMoney 10000 ∧ reasonOf r = Some InsufficientFunds
          ∧ money s' = money shopTown ∧ s' = shopTown.
Proof.
  apply (unaffordable_placement_is_refused 8 shopTown 2 2 "market" 10000).
  - left. exact shopTown_reachable.
  - vm_compute. repeat (constructor; [split; [reflexivity|eexists; split; reflexivity]|]).
    constructor.
  - vm_compute. reflexivity.
  - reflexivity.
  - reflexivity.
Defined.

(** C9.  Where a cell holds a single-tile building of kind [k], placing
    [k] on it again with the other orientation goes through without a
    vacancy check: nothing is charged, no effect is applied twice, and
    only the flip flag of that cell changes; balance, population,
    happiness, costs and every other cell stay as they were. *)
Theorem reorientation_changes_only_flip (gridSize : nat) (s : Scene)
    (row col : Z) (k : string) (t : Tile) :
  grid_wf gridSize (grid s) →
  isValidCoord gridSize row col = true →
  gridAt (grid s) row col = Some t →
  key t = k → b_size (getBuildingConfig k) = 1 →
  masterTile t = None → isMaster t = false →
  isFlipped t ≠ previewFlipped s →
  ∃ s', placeTile gridSize row col k s = (Placed, s')
        ∧ money s' = money s ∧ population s' = population s
        ∧ happiness s' = happiness s ∧ costs s' = costs s
        ∧ gridAt (grid s') row col
          = Some (mkTile (key t) (previewFlipped s) (masterTile t) (isMaster t) (visible t))
        ∧ ∀ r c, (r, c) ≠ (row, col) → gridAt (grid s') r c = gridAt (grid s) r c.
Proof.
  intros Hwf Hv Ht Hk Hsize Hm Him Hflip.
  eexists. split; [apply (placeTile_reorient gridSize s row col k t); assumption|].
  simpl. split_and!; try reflexivity.
  - rewrite gridAt_alterTile_eq, Ht. simpl. unfold retile. rewrite Hk, Hm, Him. reflexivity.
  - intros r c Hne. apply isValidCoord_bounds in Hv.
    apply gridAt_alterTile_ne; [lia|lia|exact Hne].
Qed.

Lemma reorientation_changes_only_flip_witness :
  let s := set_previewFlipped true shopTown in
  ∃ s', placeTile 8 0 0 "house" s = (Placed, s')
        ∧ money s' = money s ∧ population s' = population s
        ∧ happiness s' = happiness s ∧ costs s' = costs s
        ∧ gridAt (grid s') 0 0 = Some (mkTile "house" true None false true)
        ∧ ∀ r c, (r, c) ≠ (0, 0) → gridAt (grid s') r c = gridAt (grid s) r c.
Proof.
  apply (reorientation_changes_only_flip 8 (set_previewFlipped true shopTown) 0 0
           "house" (mkTile "house" false None false true)).
  - split; [reflexivity|]. vm_compute. repeat constructor.
  - reflexivity.
  - vm_compute. reflexivity.
  - reflexivity.
  - reflexivity.
  - reflexivity.
  - reflexivity.
  - discriminate.
Defined.

(** C2 (as amended).  After a placement of a kind of footprint size
    [N > 1] at [(row, col)] that went through, every one of the N by N
    covered cells is occupied and refers to the master [(row, col)]; the
    master cell carries the type, the orientation and the [isMaster] flag,
    the other cells do not.  After a placement of a single-tile building
    that went through, the cell carries the type and is occupied, and has
    no master reference. *)
Theorem multi_tile_footprint_shares_anchor (gridSize : nat) (s s' : Scene)
    (row col : Z) (type : string) :
  placeTile gridSize row col type s = (Placed, s') →
  (1 < b_size (getBuildingConfig type) →
     gridAt (grid s') row col
     = Some (mkTile type (previewFlipped s) (Some (row, col)) true true)
     ∧ ∀ r c,
         row <= r < row + b_size (getBuildingConfig type) →
         col <= c < col + b_size (getBuildingConfig type) →
         ∃ t, gridAt (grid s') r c = Some t
              ∧ occupied t = true
              ∧ masterTile t = Some (row, col)
              ∧ isMaster t = bool_decide ((r, c) = (row, col)))
  ∧ (b_size (getBuildingConfig type) <= 1 → type ≠ "grass"%string →
     ∃ t, gridAt (grid s') row col = Some t
          ∧ key t = type ∧ occupied t = true ∧ masterTile t = None).
Proof.
  intros Hplaced. split.
  - intros Hmulti.
    destruct (placeTile_multi_placed gridSize s s' row col type Hmulti Hplaced)
      as [Hcheck Hgrid].
    pose proof (checkArea_None gridSize _ _ Hcheck) as Hfree.
    rewrite Forall_forall in Hfree.
    assert (Hcell : ∀ r c,
               (r, c) ∈ footprint row col (b_size (getBuildingConfig type)) →
               ∃ t0, gridAt (grid s) r c = Some t0
                     ∧ gridAt (grid s') r c
                       = Some (markTile row col type (previewFlipped s) r c t0)).
    { intros r c Hin. destruct (Hfree _ Hin) as (_ & t0 & Ht0 & _). simpl in Ht0.
      exists t0. split; [exact Ht0|].
      rewrite Hgrid, gridAt_setupMultiTile.
      - rewrite decide_True by exact Hin. rewrite Ht0. reflexivity.
      - apply NoDup_footprint.
      - apply Forall_forall. intros [r' c'] Hin'.
        destruct (Hfree _ Hin') as (Hv & _). simpl in *.
        apply isValidCoord_bounds in Hv. lia. }
    split.
    + destruct (Hcell row col (footprint_anchor row col type)) as (t0 & _ & Ht).
      rewrite Ht. unfold markTile. rewrite !Z.eqb_refl. reflexivity.
    + intros r c Hr Hc.
      destruct (Hcell r c) as (t0 & _ & Ht); [apply elem_of_footprint; auto|].
      eexists. split; [exact Ht|]. apply markTile_occupied.
  - intros Hsingle Hng.
    destruct (placeTile_single_placed gridSize s s' row col type Hsingle Hng Hplaced)
      as (t & _ & Ht).
    eexists. split; [exact Ht|]. unfold retile, occupied. simpl.
    split_and!; try reflexivity.
    apply orb_true_intro. left. apply negb_true_iff, String.eqb_neq. exact Hng.
Qed.

Lemma tickedTown_ticks : ticks 8 130 shopTown = Some tickedTown.
Proof. vm_compute. reflexivity. Qed.

Lemma universityTown_placed :
  placeTile 8 5 5 "university" tickedTown = (Placed, universityTown).
Proof. vm_compute. reflexivity. Qed.

Lemma universityTown_reachable : reachable 8 universityTown.
Proof.
  eapply reach_place; [|exact universityTown_placed].
  eapply ticks_reachable; [exact shopTown_reachable|exact tickedTown_ticks].
Qed.

Lemma multi_tile_footprint_shares_anchor_witness :
  gridAt (grid universityTown) 5 5
  = Some (mkTile "university" (previewFlipped tickedTown) (Some (5, 5)) true true)
  ∧ ∀ r c, 5 <= r < 5 + 2 → 5 <= c < 5 + 2 →
      ∃ t, gridAt (grid universityTown) r c = Some t
           ∧ occupied t = true
           ∧ masterTile t = Some (5, 5)
           ∧ isMaster t = bool_decide ((r, c) = (5, 5)).
Proof.
  apply (proj1 (multi_tile_footprint_shares_anchor 8 tickedTown universityTown 5 5
                  "university" universityTown_placed)).
  reflexivity.
Defined.

(** The claim C2 as it is stated fails for a footprint of size 1: the house
    placed at (0,0) of a fresh town went through, its cell is occupied,
    and the cell has no master reference. *)
Lemma single_tile_has_no_anchor_reference :
  placeTile 8 0 0 "house" (newScene 8 None) = (Placed, houseTown)
  ∧ b_size (getBuildingConfig "house") = 1
  ∧ ∃ t, gridAt (grid houseTown) 0 0 = Some t
         ∧ occupied t = true
         ∧ masterTile t = None
         ∧ masterTile t ≠ Some (0, 0).
Proof.
  split_and!; [vm_compute; reflexivity|reflexivity|].
  eexists. split_and!; [vm_compute; reflexivity|reflexivity|reflexivity|discriminate].
Qed.

(** C1, where the code departs from it.  In the town with a university on
    (5,5)..(6,6), removal at the non-master cell (5,6) does nothing when
    the preview is not flipped; when it is flipped, only that cell is
    written: it loses its master reference, the happiness and population
    deltas of the university are not reversed, and the master and the two
    other cells still hold the building.  Removal at the master (5,5)
    reverses the deltas and clears all four cells. *)
Theorem removal_at_non_anchor_cell_keeps_building :
  reachable 8 universityTown
  ∧ gridAt (grid universityTown) 5 5
    = Some (mkTile "university" false (Some (5, 5)) true true)
  ∧ gridAt (grid universityTown) 5 6
    = Some (mkTile "grass" false (Some (5, 5)) false false)
  ∧ placeTile 8 5 6 "grass" universityTown = (Unchanged, universityTown)
  ∧ (let flipped := set_previewFlipped true universityTown in
     let after := snd (placeTile 8 5 6 "grass" flipped) in
     fst (placeTile 8 5 6 "grass" flipped) = Placed
     ∧ happiness after = happiness universityTown
     ∧ population after = population universityTown
     ∧ gridAt (grid after) 5 5 = gridAt (grid universityTown) 5 5
     ∧ gridAt (grid after) 6 5 = gridAt (grid universityTown) 6 5
     ∧ gridAt (grid after) 6 6 = gridAt (grid universityTown) 6 6
     ∧ gridAt (grid after) 5 6 = Some (mkTile "grass" true None false false))
  ∧ (let after := snd (placeTile 8 5 5 "grass" universityTown) in
     fst (placeTile 8 5 5 "grass" universityTown) = Placed
     ∧ (happiness after == happiness universityTown - (5 # 10))%Q
     ∧ (population after == population universityTown + 1)%Q
     ∧ Forall (λ rc, gridAt (grid after) (fst rc) (snd rc)
                     = Some (mkTile "grass" false None false true))
              (footprint 5 5 2)).
Proof.
  split; [exact universityTown_reachable|].
  split; [vm_compute; reflexivity|].
  split; [vm_compute; reflexivity|].
  split; [vm_compute; reflexivity|].
  split.
  - cbv zeta. repeat (split; [vm_compute; reflexivity|]). vm_compute; reflexivity.
  - cbv zeta. repeat (split; [vm_compute; reflexivity|]).
    repeat (constructor; [vm_compute; reflexivity|]). constructor.
Qed.

(** ** Persistence *)

(** C8.  From every scene a player can reach, [saveGame] writes a
    document that holds the balance, the population, the happiness and the
    costs of the scene and, for every cell, the type, the orientation, the
    master reference and the master flag of the tile that stands there.  A
    page load that reads this document back ends in a scene of the same
    size whose tile at every cell has the same type, orientation, master
    reference and master flag as the tile that was saved, and with the same
    balance, population, happiness and costs. *)
Theorem save_then_load_roundtrip (gridSize : nat) (s : Scene) :
  reachable gridSize s →
  ∃ s1 doc,
    saveGame gridSize s = Some s1
    ∧ localStorage s1 = Some doc
    ∧ gs_money doc = money s ∧ gs_population doc = population s
    ∧ gs_happiness doc = happiness s ∧ gs_costs doc = costs s
    ∧ (∀ r c t, gridAt (grid s) r c = Some t →
         (gs_grid doc !! Z.to_nat r ≫= λ row, row !! Z.to_nat c)
         = Some (mkTileData (key t) (isFlipped t) (masterTile t) (isMaster t))
         ∧ ∃ t', gridAt (grid (newScene gridSize (localStorage s1))) r c = Some t'
                 ∧ key t' = key t ∧ isFlipped t' = isFlipped t
                 ∧ masterTile t' = masterTile t ∧ isMaster t' = isMaster t)
    ∧ (∀ r c, gridAt (grid s) r c = None →
              gridAt (grid (newScene gridSize (localStorage s1))) r c = None)
    ∧ getGridData gridSize (grid (newScene gridSize (localStorage s1)))
      = getGridData gridSize (grid s)
    ∧ is_Some (getGridData gridSize (grid s))
    ∧ money (newScene gridSize (localStorage s1)) = money s
    ∧ population (newScene gridSize (localStorage s1)) = population s
    ∧ happiness (newScene gridSize (localStorage s1)) = happiness s
    ∧ costs (newScene gridSize (localStorage s1)) = costs s.
Proof.
  intros Hreach. pose proof (reachable_inv gridSize s Hreach) as Hinv.
  destruct (save_load_tiles gridSize s Hinv)
    as (s1 & doc & Hsave & Hls & Hm & Hp & Hh & Hc & Hg & Hg').
  destruct (save_load gridSize s Hinv)
    as (s2 & data & Hsave2 & Hdata & Hdata' & Hm' & Hp' & Hh' & Hc').
  rewrite Hsave in Hsave2. injection Hsave2 as <-.
  exists s1, doc. split_and!; try assumption.
  - intros r c t Ht. rewrite Hg, Hg'. unfold gridAt, gridAtN in *.
    destruct ((0 <=? r) && (0 <=? c)); [|discriminate].
    rewrite !list_lookup_fmap.
    destruct (grid s !! Z.to_nat r) as [row|]; [|discriminate]. simpl in *.
    rewrite !list_lookup_fmap, Ht. simpl. split; [reflexivity|].
    eexists. split; [reflexivity|].
    destruct t as [k [|] m im v]; simpl; auto.
  - intros r c Hnone. rewrite Hg'. unfold gridAt, gridAtN in *.
    destruct ((0 <=? r) && (0 <=? c)); [|reflexivity].
    rewrite !list_lookup_fmap.
    destruct (grid s !! Z.to_nat r) as [row|]; [|reflexivity]. simpl in *.
    rewrite !list_lookup_fmap, Hnone. reflexivity.
  - rewrite Hdata, Hdata'. reflexivity.
  - rewrite Hdata. eauto.
Qed.

Lemma save_then_load_roundtrip_witness :
  ∃ s1 doc,
    saveGame 8 universityTown = Some s1
    ∧ localStorage s1 = Some doc
    ∧ gs_money doc = money universityTown
    ∧ (gs_grid doc !! 5%nat ≫= λ row, row !! 5%nat)
      = Some (mkTileData "university" false (Some (5, 5)) true)
    ∧ (∃ t', gridAt (grid (newScene 8 (localStorage s1))) 5 5 = Some t'
             ∧ key t' = "university"%string ∧ isFlipped t' = false
             ∧ masterTile t' = Some (5, 5) ∧ isMaster t' = true)
    ∧ (gs_grid doc !! 5%nat ≫= λ row, row !! 6%nat)
      = Some (mkTileData "grass" false (Some (5, 5)) false)
    ∧ money (newScene 8 (localStorage s1)) = money universityTown
    ∧ costs (newScene 8 (localStorage s1)) = costs universityTown.
Proof.
  destruct (save_then_load_roundtrip 8 universityTown universityTown_reachable)
    as (s1 & doc & Hsave & Hls & Hm & _ & _ & _ & Htiles & _ & _ & _ & Hm' & _ & _ & Hc').
  exists s1, doc.
  destruct (Htiles 5 5 (mkTile "university" false (Some (5, 5)) true true))
    as [Hdoc Hback]; [vm_compute; reflexivity|].
  destruct (Htiles 5 6 (mkTile "grass" false (Some (5, 5)) false false))
    as [Hdoc' _]; [vm_compute; reflexivity|].
  split_and!; assumption.
Defined.

(** * Further properties *)

(** ** Costs *)

Lemma round_bounds (x : Q) :
  (x - (1 # 2) < Js.round x)%Q ∧ (Js.round x <= x + (1 # 2))%Q.
Proof.
  unfold Js.round.
  pose proof (Qfloor_le (x + (1 # 2))) as H1.
  pose proof (Qlt_floor (x + (1 # 2))) as H2.
  rewrite inject_Z_plus in H2. change (inject_Z 1) with 1%Q in H2.
  split; lra.
Qed.

(** X3.  [incrementCost] leaves the scene alone when the type has no cost
    or a cost that is not positive.  Otherwise it replaces that one cost by
    the whole number nearest to 1.1 times it, and touches nothing else; a
    cost of at least 5 becomes strictly larger. *)
Theorem incrementCost_raises (type : string) (s : Scene) :
  (costs s !! type = None → incrementCost type s = s)
  ∧ (∀ c, costs s !! type = Some c → (c <= 0)%Q → incrementCost type s = s)
  ∧ (∀ c, costs s !! type = Some c → (0 < c)%Q →
       ∃ n : Z,
         incrementCost type s = set_costs (<[type := inject_Z n]> (costs s)) s
         ∧ (c * (11 # 10) - (1 # 2) < inject_Z n)%Q
         ∧ (inject_Z n <= c * (11 # 10) + (1 # 2))%Q
         ∧ ((5 <= c)%Q → (c < inject_Z n)%Q)).
Proof.
  unfold incrementCost. split_and!.
  - intros ->. reflexivity.
  - intros c -> Hc. destruct (Qlt_le_dec 0 c); [lra|reflexivity].
  - intros c -> Hc. destruct (Qlt_le_dec 0 c); [|lra].
    exists (Qfloor (c * (11 # 10) + (1 # 2))).
    destruct (round_bounds (c * (11 # 10))) as [Hlo Hhi]. unfold Js.round in *.
    split_and!; [reflexivity|exact Hlo|exact Hhi|intros; lra].
Qed.

Lemma incrementCost_raises_witness :
  ∃ n : Z,
    incrementCost "house" houseTown
    = set_costs (<["house"%string := inject_Z n]> (costs houseTown)) houseTown
    ∧ (66 * (11 # 10) - (1 # 2) < inject_Z n)%Q
    ∧ (inject_Z n <= 66 * (11 # 10) + (1 # 2))%Q
    ∧ ((5 <= 66)%Q → (66 < inject_Z n)%Q).
Proof.
  apply (proj2 (proj2 (incrementCost_raises "house" houseTown)) 66%Q).
  - vm_compute. reflexivity.
  - reflexivity.
Defined.

(** ** Ticks *)

(** X4.  Ticks compose: when the income of a scene is [income], [n] ticks
    in a row all go through, add [n] times the income to the balance if
    the income is positive and nothing otherwise, and leave the grid,
    population, happiness, costs, preview and saved document as they were. *)
Theorem ticks_add_income (gridSize n : nat) (s : Scene) (income : Q) :
  calculateIncome gridSize s = Some income →
  ∃ s', ticks gridSize n s = Some s'
        ∧ (money s' ==
           money s + inject_Z (Z.of_nat n) * (if Qlt_le_dec 0 income then income else 0))%Q
        ∧ grid s' = grid s ∧ population s' = population s
        ∧ happiness s' = happiness s ∧ costs s' = costs s
        ∧ previewFlipped s' = previewFlipped s
        ∧ localStorage s' = localStorage s.
Proof.
  intros Hinc. induction n as [|n IH].
  - exists s. split; [reflexivity|].
    split; [change (inject_Z (Z.of_nat 0)) with 0%Q; lra|]. auto 10.
  - destruct IH as (s' & Hticks & Hmoney & Hg & Hp & Hh & Hc & Hf & Hl).
    change (ticks gridSize (S n) s) with (ticks gridSize n s ≫= handleTick gridSize).
    rewrite Hticks. simpl.
    assert (Hinc' : calculateIncome gridSize s' = Some income).
    { rewrite <- Hinc. apply calculateIncome_reads; congruence. }
    unfold handleTick. rewrite Hinc'. simpl.
    eexists. split; [reflexivity|].
    rewrite Nat2Z.inj_succ, <- Z.add_1_r, inject_Z_plus.
    change (inject_Z 1) with 1%Q.
    destruct (Qlt_le_dec 0 income); simpl; (split; [lra|auto 10]).
Qed.

Lemma ticks_add_income_witness :
  ∃ s', ticks 8 130 shopTown = Some s'
        ∧ (money s' ==
           money shopTown + inject_Z (Z.of_nat 130) * (if Qlt_le_dec 0 9 then 9 else 0))%Q
        ∧ grid s' = grid shopTown ∧ population s' = population shopTown
        ∧ happiness s' = happiness shopTown ∧ costs s' = costs shopTown
        ∧ previewFlipped s' = previewFlipped shopTown
        ∧ localStorage s' = localStorage shopTown.
Proof.
  apply (ticks_add_income 8 130 shopTown 9).
  vm_compute. reflexivity.
Defined.

(** ** Sorting twice *)

(** X5.  Sorting is idempotent: on a display list with at most one
    preview, a second [updateDepths] leaves the order of the first. *)
Theorem updateDepths_idempotent (l : list Sprite) :
  onePreview l → updateDepths (updateDepths l) = updateDepths l.
Proof.
  intros H1. unfold updateDepths at 1. apply sortBy_sorted.
  apply updateDepths_cmpLe. exact H1.
Qed.

Lemma updateDepths_idempotent_witness :
  let house := spriteOfTile 2 3 (mkTile "house" false None false true) in
  let ground := spriteOfTile 3 2 (mkTile "grass" false None false true) in
  let cursor := mkSprite (Some 2) (Some 3) (Some "house"%string) true in
  updateDepths (updateDepths [cursor; house; ground]) = updateDepths [cursor; house; ground].
Proof.
  intros house ground cursor.
  apply (updateDepths_idempotent [cursor; house; ground]).
  unfold onePreview. vm_compute. lia.
Defined.

(** ** No grid access fails in a reachable scene *)

Lemma gridAt_foldl_alter (F : Z → Z → Tile → Tile) (coords : list (Z * Z))
    (g : list (list Tile)) (r c : Z) :
  NoDup coords →
  Forall (λ rc, 0 <= fst rc ∧ 0 <= snd rc) coords →
  gridAt (foldl (λ g' rc, alterTile (F (fst rc) (snd rc)) (fst rc) (snd rc) g') g coords) r c
  = if decide ((r, c) ∈ coords) then F r c <$> gridAt g r c else gridAt g r c.
Proof.
  intros Hnd Hpos. revert g.
  induction Hnd as [|[r0 c0] rest Hnotin Hnd IH]; intros g; cbn [foldl fst snd].
  - case_decide as Hin; [inversion Hin|reflexivity].
  - apply Forall_cons in Hpos as [[Hr0 Hc0] Hpos]. simpl in Hr0, Hc0.
    rewrite (IH Hpos).
    destruct (decide ((r, c) = (r0, c0))) as [Heq|Hne].
    + injection Heq as -> ->.
      rewrite (decide_False (P := (r0, c0) ∈ rest)) by exact Hnotin.
      rewrite (decide_True (P := (r0, c0) ∈ (r0, c0) :: rest)) by left.
      apply gridAt_alterTile_eq.
    + rewrite (gridAt_alterTile_ne _ g r0 c0 r c Hr0 Hc0 Hne).
      destruct (decide ((r, c) ∈ rest)) as [Hin|Hnin].
      * rewrite (decide_True (P := (r, c) ∈ (r0, c0) :: rest)) by (right; exact Hin).
        reflexivity.
      * rewrite (decide_False (P := (r, c) ∈ (r0, c0) :: rest)); [reflexivity|].
        intros [?|?]%elem_of_cons; contradiction.
Qed.

Section Safety.

Variable gridSize : nat.

(** On a well-formed grid the clearing loop over cells inside the grid
    runs to its end and is a sequence of writes. *)
Lemma clearCells_ok (coords : list (Z * Z)) (g : list (list Tile)) :
  grid_wf gridSize g →
  Forall (λ rc, isValidCoord gridSize (fst rc) (snd rc) = true) coords →
  clearCells coords g
  = (foldl (λ g' rc, alterTile clearedTile (fst rc) (snd rc) g') g coords, true).
Proof.
  intros Hwf Hall. revert g Hwf.
  induction Hall as [|[r c] rest Hv Hall IH]; intros g Hwf; simpl; [reflexivity|].
  simpl in Hv. destruct (gridAt_wf gridSize g r c Hwf Hv) as [t Ht]. rewrite Ht.
  apply IH. apply alterTile_wf. exact Hwf.
Qed.

Lemma footprint_valid (row col size : Z) :
  0 <= row → 0 <= col →
  row + size <= Z.of_nat gridSize → col + size <= Z.of_nat gridSize →
  Forall (λ rc, isValidCoord gridSize (fst rc) (snd rc) = true) (footprint row col size).
Proof.
  intros Hr Hc Hrs Hcs. apply Forall_forall. intros [r c] Hin.
  apply elem_of_footprint in Hin. simpl. apply isValidCoord_bounds. lia.
Qed.

Lemma valid_nonneg (coords : list (Z * Z)) :
  Forall (λ rc, isValidCoord gridSize (fst rc) (snd rc) = true) coords →
  Forall (λ rc, 0 <= fst rc ∧ 0 <= snd rc) coords.
Proof.
  intros Hall. eapply Forall_impl; [exact Hall|]. intros [r c] Hv. simpl in *.
  apply isValidCoord_bounds in Hv. lia.
Qed.

(** The grid after the clearing loop. *)
Lemma gridAt_clearCells (row col size : Z) (g : list (list Tile)) (r c : Z) :
  grid_wf gridSize g →
  Forall (λ rc, isValidCoord gridSize (fst rc) (snd rc) = true) (footprint row col size) →
  snd (clearCells (footprint row col size) g) = true
  ∧ gridAt (fst (clearCells (footprint row col size) g)) r c
    = if decide ((r, c) ∈ footprint row col size)
      then clearedTile <$> gridAt g r c else gridAt g r c.
Proof.
  intros Hwf Hall. rewrite (clearCells_ok _ g Hwf Hall). split; [reflexivity|].
  cbn [fst].
  apply (gridAt_foldl_alter (λ _ _, clearedTile));
    [apply NoDup_footprint|apply valid_nonneg; exact Hall].
Qed.

Lemma masters_ok_alter (f : Tile → Tile) (r c : Z) (g : list (list Tile)) :
  0 <= r → 0 <= c →
  masters_ok gridSize g →
  (∀ t m, gridAt g r c = Some t → masterTile (f t) = Some m →
          key (f t) ≠ "grass"%string →
          m = (r, c)
          ∧ r + b_size (getBuildingConfig (key (f t))) <= Z.of_nat gridSize
          ∧ c + b_size (getBuildingConfig (key (f t))) <= Z.of_nat gridSize) →
  masters_ok gridSize (alterTile f r c g).
Proof.
  intros Hr Hc Hok Hf r' c' t m Ht Hm Hk.
  destruct (decide ((r', c') = (r, c))) as [[= -> ->]|Hne].
  - rewrite gridAt_alterTile_eq in Ht.
    destruct (gridAt g r c) as [t0|] eqn:Ht0; [|discriminate].
    injection Ht as <-. eapply Hf; eauto.
  - rewrite gridAt_alterTile_ne in Ht by assumption. eapply Hok; eauto.
Qed.

Lemma masters_ok_clear (coords : list (Z * Z)) (g : list (list Tile)) :
  Forall (λ rc, 0 <= fst rc ∧ 0 <= snd rc) coords →
  masters_ok gridSize g →
  masters_ok gridSize (foldl (λ g' rc, alterTile clearedTile (fst rc) (snd rc) g') g coords).
Proof.
  intros Hpos. revert g. induction Hpos as [|[r c] rest [Hr Hc] _ IH]; intros g Hok; simpl.
  - exact Hok.
  - apply IH. apply masters_ok_alter; [assumption..|].
    intros t m _ Hm. discriminate.
Qed.

Lemma masters_ok_roundtrip (g : list (list Tile)) :
  masters_ok gridSize g →
  masters_ok gridSize (fmap (M := list) tileOfData <$> (fmap (M := list) dataOfTile <$> g)).
Proof.
  intros Hok r c t m Ht Hm Hk.
  unfold gridAt, gridAtN in Ht.
  destruct ((0 <=? r) && (0 <=? c)) eqn:Hrc; [|discriminate].
  rewrite !list_lookup_fmap in Ht.
  destruct (g !! Z.to_nat r) as [rw|] eqn:Hrow; [|discriminate]. simpl in Ht.
  rewrite !list_lookup_fmap in Ht.
  destruct (rw !! Z.to_nat c) as [t0|] eqn:Hcell; [|discriminate]. simpl in Ht.
  injection Ht as <-. simpl in Hm, Hk |- *.
  apply (Hok r c t0 m); [|exact Hm|exact Hk].
  unfold gridAt, gridAtN. rewrite Hrc, Hrow. simpl. exact Hcell.
Qed.
End Safety.

Lemma costs_applyEffects (config : BuildingConfig) (s : Scene) :
  costs (applyEffects config s) = costs s.
Proof.
  unfold applyEffects.
  destruct (b_effects config) as [effects|]; [|reflexivity].
  destruct (eff_population effects) as [p|], (eff_happiness effects) as [h|];
    repeat match goal with |- context [Js.truthy ?x] => destruct (Js.truthy x) end; reflexivity.
Qed.

Lemma costs_reverseEffects (config : BuildingConfig) (s : Scene) :
  costs (reverseEffects config s) = costs s.
Proof.
  unfold reverseEffects.
  destruct (b_effects config) as [effects|]; [|reflexivity].
  destruct (eff_population effects) as [p|], (eff_happiness effects) as [h|];
    repeat match goal with |- context [Js.truthy ?x] => destruct (Js.truthy x) end; reflexivity.
Qed.

Lemma storage_applyEffects (config : BuildingConfig) (s : Scene) :
  localStorage (applyEffects config s) = localStorage s.
Proof.
  unfold applyEffects.
  destruct (b_effects config) as [effects|]; [|reflexivity].
  destruct (eff_population effects) as [p|], (eff_happiness effects) as [h|];
    repeat match goal with |- context [Js.truthy ?x] => destruct (Js.truthy x) end; reflexivity.
Qed.

Lemma storage_reverseEffects (config : BuildingConfig) (s : Scene) :
  localStorage (reverseEffects config s) = localStorage s.
Proof.
  unfold reverseEffects.
  destruct (b_effects config) as [effects|]; [|reflexivity].
  destruct (eff_population effects) as [p|], (eff_happiness effects) as [h|];
    repeat match goal with |- context [Js.truthy ?x] => destruct (Js.truthy x) end; reflexivity.
Qed.

Lemma storage_incrementCost (type : string) (s : Scene) :
  localStorage (incrementCost type s) = localStorage s.
Proof.
  unfold incrementCost. destruct (costs s !! type) as [c|]; [|reflexivity].
  destruct (Qlt_le_dec 0 c); reflexivity.
Qed.

Section SafetyOfPlacement.

Variable gridSize : nat.

Lemma checkArea_wf (g : list (list Tile)) (coords : list (Z * Z)) (r : PlaceResult) :
  grid_wf gridSize g → checkArea gridSize g coords = Some r → r ≠ ThrewTypeError.
Proof.
  intros Hwf. induction coords as [|[r0 c0] rest IH]; simpl; [discriminate|].
  destruct (isValidCoord gridSize r0 c0) eqn:Hv; simpl; [|intros [= <-]; discriminate].
  destruct (gridAt_wf gridSize g r0 c0 Hwf Hv) as [t Ht]. rewrite Ht.
  destruct (occupied t); [intros [= <-]; discriminate|exact IH].
Qed.

Lemma masters_ok_setup (row col : Z) (type : string) (fl : bool) (g : list (list Tile)) :
  checkArea gridSize g (footprint row col (b_size (getBuildingConfig type))) = None →
  masters_ok gridSize g →
  masters_ok gridSize
    (setupMultiTile row col type fl (footprint row col (b_size (getBuildingConfig type))) g).
Proof.
  intros Hcheck Hok r c t m Ht Hm Hk.
  pose proof (checkArea_None gridSize _ _ Hcheck) as Hfree.
  assert (Hvalid : Forall (λ rc, isValidCoord gridSize (fst rc) (snd rc) = true)
                     (footprint row col (b_size (getBuildingConfig type)))).
  { eapply Forall_impl; [exact Hfree|]. intros rc [Hv _]. exact Hv. }
  rewrite gridAt_setupMultiTile in Ht;
    [|apply NoDup_footprint|apply (valid_nonneg gridSize); exact Hvalid].
  rewrite Forall_forall in Hfree.
  destruct (decide ((r, c) ∈ footprint row col (b_size (getBuildingConfig type))))
    as [Hin|Hnin]; [|eapply Hok; eauto].
  destruct (Hfree _ Hin) as (_ & t0 & Ht0 & Hocc). simpl in Ht0.
  rewrite Ht0 in Ht. injection Ht as <-.
  apply occupied_false in Hocc as [Hkey0 _].
  unfold markTile in *.
  destruct ((r =? row) && (c =? col)) eqn:Hrc; simpl in *; [|congruence].
  apply andb_prop in Hrc as [Hr Hc]. apply Z.eqb_eq in Hr, Hc. subst r c.
  injection Hm as <-. split; [reflexivity|].
  apply elem_of_footprint in Hin.
  set (N := b_size (getBuildingConfig type)) in *.
  assert (Hlast : (row + N - 1, col + N - 1) ∈ footprint row col N)
    by (apply elem_of_footprint; lia).
  destruct (Hfree _ Hlast) as (Hv & _). simpl in Hv.
  apply isValidCoord_bounds in Hv. lia.
Qed.

(** *** Names inherited from [Object.prototype] *)

Lemma inheritedKey_config (type : string) :
  inheritedKey type = true → getBuildingConfig type = InheritedMember.
Proof.
  unfold inheritedKey. intros H. apply existsb_exists in H as (k & Hin & Heq).
  apply String.eqb_eq in Heq. subst k. unfold objectPrototypeKeys in Hin.
  repeat (destruct Hin as [<-|Hin]; [reflexivity|]). destruct Hin.
Qed.

Lemma effects_None_iff (type : string) :
  b_effects (getBuildingConfig type) = None ↔ inheritedKey type = true.
Proof.
  split; [|intros H; rewrite (inheritedKey_config type H); reflexivity].
  unfold getBuildingConfig, BuildingRegistry, registry_get.
  repeat match goal with
         | |- context [String.eqb ?k type] =>
             destruct (String.eqb k type); [discriminate|]
         end.
  destruct (inheritedKey type); [reflexivity|discriminate].
Qed.

Lemma effects_Some (type : string) :
  inheritedKey type = false → is_Some (b_effects (getBuildingConfig type)).
Proof.
  intros H. destruct (b_effects (getBuildingConfig type)) eqn:He; [eauto|].
  apply effects_None_iff in He. congruence.
Qed.

Lemma multiTile_has_effects (type : string) :
  1 < b_size (getBuildingConfig type) → is_Some (b_effects (getBuildingConfig type)).
Proof.
  destruct (getBuildingConfig type); simpl; [eauto|lia].
Qed.

Lemma grass_has_effects : is_Some (b_effects (getBuildingConfig "grass")).
Proof. eexists. reflexivity. Qed.

Lemma kinds_ok_alter (f : Tile → Tile) (r c : Z) (g : list (list Tile)) :
  0 <= r → 0 <= c →
  kinds_ok g →
  (∀ t, gridAt g r c = Some t → is_Some (b_effects (getBuildingConfig (key (f t))))) →
  kinds_ok (alterTile f r c g).
Proof.
  intros Hr Hc Hok Hf r' c' t Ht.
  destruct (decide ((r', c') = (r, c))) as [[= -> ->]|Hne].
  - rewrite gridAt_alterTile_eq in Ht.
    destruct (gridAt g r c) as [t0|] eqn:Ht0; [|discriminate].
    injection Ht as <-. apply Hf. reflexivity.
  - rewrite gridAt_alterTile_ne in Ht by assumption. eapply Hok; eauto.
Qed.

Lemma kinds_ok_clear (coords : list (Z * Z)) (g : list (list Tile)) :
  Forall (λ rc, 0 <= fst rc ∧ 0 <= snd rc) coords →
  kinds_ok g →
  kinds_ok (foldl (λ g' rc, alterTile clearedTile (fst rc) (snd rc) g') g coords).
Proof.
  intros Hpos. revert g. induction Hpos as [|[r c] rest [Hr Hc] _ IH]; intros g Hok; simpl.
  - exact Hok.
  - apply IH. apply kinds_ok_alter; [assumption..|].
    intros t _. apply grass_has_effects.
Qed.

Lemma kinds_ok_setup (row col : Z) (type : string) (fl : bool) (coords : list (Z * Z))
    (g : list (list Tile)) :
  Forall (λ rc, 0 <= fst rc ∧ 0 <= snd rc) coords →
  is_Some (b_effects (getBuildingConfig type)) →
  kinds_ok g → kinds_ok (setupMultiTile row col type fl coords g).
Proof.
  intros Hpos Htype. unfold setupMultiTile. revert g.
  induction Hpos as [|[r c] rest [Hr Hc] _ IH]; intros g Hok; simpl; [exact Hok|].
  apply IH. apply kinds_ok_alter; [assumption..|].
  intros t Ht. unfold markTile.
  destruct ((r =? row) && (c =? col)); simpl; [exact Htype|].
  eapply Hok. exact Ht.
Qed.

Lemma kinds_ok_roundtrip (g : list (list Tile)) :
  kinds_ok g →
  kinds_ok (fmap (M := list) tileOfData <$> (fmap (M := list) dataOfTile <$> g)).
Proof.
  intros Hok r c t Ht.
  unfold gridAt, gridAtN in Ht.
  destruct ((0 <=? r) && (0 <=? c)) eqn:Hrc; [|discriminate].
  rewrite !list_lookup_fmap in Ht.
  destruct (g !! Z.to_nat r) as [rw|] eqn:Hrow; [|discriminate]. simpl in Ht.
  rewrite !list_lookup_fmap in Ht.
  destruct (rw !! Z.to_nat c) as [t0|] eqn:Hcell; [|discriminate]. simpl in Ht.
  injection Ht as <-. simpl.
  apply (Hok r c t0).
  unfold gridAt, gridAtN. rewrite Hrc, Hrow. simpl. exact Hcell.
Qed.

Lemma registryCosts_lookup (type : string) :
  registryCosts !! type = b_cost <$> registry_get BuildingRegistry type.
Proof.
  unfold registryCosts, BuildingRegistry. cbn [foldl registry_get snd b_type b_cost].
  repeat match goal with
         | |- context [String.eqb ?k type] =>
             destruct (String.eqb_spec k type) as [<-|?];
             [vm_compute; reflexivity|rewrite lookup_insert_ne by assumption]
         end.
  reflexivity.
Qed.

Lemma costs_ok_registry : costs_ok registryCosts.
Proof.
  intros type H. rewrite registryCosts_lookup.
  unfold getBuildingConfig in H.
  destruct (registry_get BuildingRegistry type) as [cfg|] eqn:Hcfg; [|reflexivity].
  exfalso. revert Hcfg H. unfold BuildingRegistry, registry_get.
  repeat match goal with
         | |- context [String.eqb ?k type] =>
             destruct (String.eqb k type); [intros [= <-]; discriminate|]
         end.
  discriminate.
Qed.

Lemma costs_ok_incrementCost (type : string) (s : Scene) :
  costs_ok (costs s) → costs_ok (costs (incrementCost type s)).
Proof.
  intros Hok. unfold incrementCost.
  destruct (costs s !! type) as [c|] eqn:Hc; [|exact Hok].
  destruct (Qlt_le_dec 0 c); [|exact Hok].
  simpl. intros k Hk. rewrite lookup_insert_ne; [apply Hok; exact Hk|].
  intros <-. rewrite (Hok _ Hk) in Hc. discriminate.
Qed.

Lemma finishPlace_safe (row col : Z) (type : string) (multiTile fl : bool)
    (s s' : Scene) (r : PlaceResult) :
  (multiTile = false →
   0 <= row ∧ 0 <= col ∧ is_Some (b_effects (getBuildingConfig type))) →
  safe_inv gridSize s →
  finishPlace gridSize row col type multiTile fl s = (r, s') →
  r = Placed ∧ safe_inv gridSize s'.
Proof.
  intros Hpos (Hinv & Hok & Hkinds & Hcosts & Hdoc) H.
  assert (Hinv' : scene_inv gridSize s') by (eapply inv_finishPlace; eauto).
  unfold finishPlace in H.
  set (s1 := if negb multiTile then _ else s) in H.
  assert (H1 : grid_wf gridSize (grid s1) ∧ masters_ok gridSize (grid s1)
               ∧ kinds_ok (grid s1) ∧ costs s1 = costs s).
  { subst s1. destruct multiTile; simpl; [split_and!; [apply Hinv|assumption..|reflexivity]|].
    destruct (Hpos eq_refl) as (Hr & Hc & Htype).
    split_and!; [apply alterTile_wf, Hinv| | |reflexivity].
    - apply masters_ok_alter; [assumption..|]. intros t m _ Hm. discriminate.
    - apply kinds_ok_alter; [assumption..|]. intros t _. exact Htype. }
  destruct H1 as (Hwf1 & Hok1 & Hkinds1 & Hc1).
  rewrite (saveGame_wf gridSize s1 Hwf1) in H. injection H as <- <-.
  split; [reflexivity|]. split_and!; [exact Hinv'|exact Hok1|exact Hkinds1| |].
  - simpl. rewrite Hc1. exact Hcosts.
  - simpl. intros doc [= <-]. simpl.
    split_and!; [apply masters_ok_roundtrip; exact Hok1
                |apply kinds_ok_roundtrip; exact Hkinds1
                |rewrite Hc1; exact Hcosts].
Qed.

Lemma safe_same (s t : Scene) :
  scene_inv gridSize t → grid t = grid s → costs t = costs s →
  localStorage t = localStorage s →
  safe_inv gridSize s → safe_inv gridSize t.
Proof.
  intros Hinv Hg Hc Hl (_ & Hok & Hkinds & Hcosts & Hdoc). unfold safe_inv.
  rewrite Hg, Hc, Hl. auto.
Qed.

(** A call of [placeTile] in a scene with the invariant keeps it, and
    throws only at [config.effects] of an inherited name, before anything
    is written. *)
Lemma placeTile_safe (row col : Z) (type : string) (s s' : Scene) (r : PlaceResult) :
  safe_inv gridSize s →
  placeTile gridSize row col type s = (r, s') →
  safe_inv gridSize s'
  ∧ (r = ThrewTypeError → b_effects (getBuildingConfig type) = None ∧ s' = s).
Proof.
  intros Hsafe H. pose proof Hsafe as (Hinv & Hok & Hkinds & Hcosts & Hdoc).
  pose proof (proj1 Hinv) as Hwf.
  unfold placeTile in H.
  destruct (isValidCoord gridSize row col) eqn:Hv; simpl in H;
    [|injection H as <- <-; split; [exact Hsafe|discriminate]].
  pose proof Hv as Hb. apply isValidCoord_bounds in Hb.
  destruct (gridAt_wf gridSize (grid s) row col Hwf Hv) as [oldTile Hold].
  set (cost := Js.or_else (costs s !! type) (b_cost (getBuildingConfig type))) in H.
  set (s1 := if Qlt_le_dec 0 cost then incrementCost type (updateMoney (- cost)%Q s) else s)
    in H.
  assert (Hs1 : safe_inv gridSize s1).
  { subst s1. destruct (Qlt_le_dec 0 cost); [|exact Hsafe].
    assert (Hinv1 : scene_inv gridSize (incrementCost type (updateMoney (- cost)%Q s))).
    { apply inv_incrementCost. eapply inv_same; [..|exact Hinv]; reflexivity. }
    split_and!; [exact Hinv1|rewrite grid_incrementCost; exact Hok
                |rewrite grid_incrementCost; exact Hkinds
                |apply costs_ok_incrementCost; exact Hcosts
                |rewrite storage_incrementCost; exact Hdoc]. }
  assert (Hg1 : grid s1 = grid s).
  { subst s1. destruct (Qlt_le_dec 0 cost); [|reflexivity].
    rewrite grid_incrementCost. reflexivity. }
  assert (Hnone : b_effects (getBuildingConfig type) = None → s1 = s).
  { intros Hn. subst s1 cost. rewrite (Hcosts type Hn).
    apply effects_None_iff in Hn. rewrite (inheritedKey_config type Hn). reflexivity. }
  clearbody s1.
  destruct (1 <? b_size (getBuildingConfig type)) eqn:Hm.
  - (* a multi-tile type *)
    destruct (multiTile_has_effects type ltac:(apply Z.ltb_lt; exact Hm)) as [eff Heff].
    destruct (checkArea gridSize (grid s) _) as [r0|] eqn:Hcheck.
    { injection H as <- <-. split; [exact Hsafe|].
      intros ->. exfalso. eapply checkArea_wf; eauto. }
    pose proof (checkArea_None gridSize _ _ Hcheck) as Hfree.
    pose proof Hfree as Hall. rewrite Forall_forall in Hfree.
    destruct (Hfree _ (footprint_anchor row col type)) as (_ & t & Ht & Hocc).
    simpl in Ht. rewrite Hold in Ht. injection Ht as <-.
    rewrite Hold in H. simpl in H.
    apply occupied_false in Hocc as [Hkey Hmaster]. rewrite Hkey, Hmaster in H.
    assert (Hne : String.eqb "grass" type = false).
    { apply String.eqb_neq. intros <-. vm_compute in Hm. discriminate. }
    rewrite Hne in H. simpl in H.
    match type of H with
    | (if ?b then _ else _) = _ =>
        destruct b; [injection H as <- <-; split; [exact Hsafe|discriminate]|]
    end.
    match type of H with
    | match ?x with Some _ => _ | None => _ end = _ =>
        destruct x; [injection H as <- <-; split; [exact Hsafe|discriminate]|]
    end.
    rewrite Heff in H.
    apply finishPlace_safe in H as [-> Hs']; [split; [exact Hs'|discriminate]|discriminate|].
    pose proof (inv_applyEffects gridSize (getBuildingConfig type) s1 (proj1 Hs1)) as Hinv3.
    destruct Hs1 as (_ & _ & _ & Hcosts1 & Hdoc1).
    split_and!.
    + apply inv_set_grid; [|exact Hinv3]. apply setupMultiTile_wf. exact (proj1 Hinv3).
    + simpl. rewrite grid_applyEffects, Hg1. apply masters_ok_setup; assumption.
    + simpl. rewrite grid_applyEffects, Hg1. apply kinds_ok_setup; [|eauto|exact Hkinds].
      apply (valid_nonneg gridSize). eapply Forall_impl; [exact Hall|].
      intros rc [Hvrc _]. exact Hvrc.
    + simpl. rewrite costs_applyEffects. exact Hcosts1.
    + simpl. rewrite storage_applyEffects. exact Hdoc1.
  - (* a single-tile type *)
    rewrite Hold in H. simpl in H.
    match type of H with
    | (if ?b then (OccupiedCell, _) else _) = _ =>
        destruct b eqn:Hblock; [injection H as <- <-; split; [exact Hsafe|discriminate]|]
    end.
    match type of H with
    | (if ?b then (Unchanged, _) else _) = _ =>
        destruct b; [injection H as <- <-; split; [exact Hsafe|discriminate]|]
    end.
    destruct (String.eqb (key oldTile) type) eqn:Hsame.
    { apply String.eqb_eq in Hsame.
      apply finishPlace_safe in H as [-> Hs']; [split; [exact Hs'|discriminate]| |exact Hsafe].
      intros _. split_and!; [lia|lia|]. rewrite <- Hsame. eapply Hkinds. exact Hold. }
    match type of H with
    | (if ?b then _ else _) = _ =>
        destruct b; [injection H as <- <-; split; [exact Hsafe|discriminate]|]
    end.
    match type of H with
    | match ?x with Some _ => _ | None => _ end = _ =>
        destruct x; [injection H as <- <-; split; [exact Hsafe|discriminate]|]
    end.
    destruct (Hkinds _ _ _ Hold) as [effOld HeffOld].
    assert (Hclean : ∃ s2,
               (match masterTile oldTile with
                | Some m => clearMultiTile m s1
                | None =>
                    if negb (String.eqb (key oldTile) "grass")
                    then match b_effects (getBuildingConfig (key oldTile)) with
                         | None => (s1, false)
                         | Some _ => (reverseEffects (getBuildingConfig (key oldTile)) s1, true)
                         end
                    else (s1, true)
                end) = (s2, true) ∧ safe_inv gridSize s2
               ∧ (occupied oldTile = false → s2 = s1)).
    { destruct (masterTile oldTile) as [m|] eqn:Hmaster.
      - assert (Hocc : occupied oldTile = true).
        { unfold occupied. rewrite Hmaster. apply orb_true_intro. right.
          apply bool_decide_eq_true_2. eauto. }
        rewrite Hocc in Hblock. simpl in Hblock.
        rewrite !andb_true_r in Hblock. apply negb_false_iff, String.eqb_eq in Hblock.
        subst type. apply String.eqb_neq in Hsame.
        destruct (Hok row col oldTile m Hold Hmaster Hsame) as (-> & Hrow & Hcol).
        unfold clearMultiTile. cbn [fst snd]. rewrite Hg1, Hold, HeffOld.
        pose proof (footprint_valid gridSize row col
                      (b_size (getBuildingConfig (key oldTile)))
                      ltac:(lia) ltac:(lia) Hrow Hcol) as Hvalid.
        rewrite grid_reverseEffects, Hg1.
        rewrite (clearCells_ok gridSize _ (grid s) Hwf Hvalid).
        eexists. split; [reflexivity|].
        pose proof (inv_reverseEffects gridSize (getBuildingConfig (key oldTile)) s1
                      (proj1 Hs1)) as Hinv2.
        destruct Hs1 as (_ & _ & _ & Hcosts1 & Hdoc1).
        split; [|rewrite Hocc; discriminate].
        split_and!.
        + apply inv_set_grid; [|exact Hinv2].
          pose proof (clearCells_wf gridSize
                        (footprint row col (b_size (getBuildingConfig (key oldTile))))
                        (grid s) Hwf) as Hwf2.
          rewrite (clearCells_ok gridSize _ (grid s) Hwf Hvalid) in Hwf2. exact Hwf2.
        + simpl. apply masters_ok_clear; [|exact Hok].
          apply (valid_nonneg gridSize). exact Hvalid.
        + simpl. apply kinds_ok_clear; [|exact Hkinds].
          apply (valid_nonneg gridSize). exact Hvalid.
        + simpl. rewrite costs_reverseEffects. exact Hcosts1.
        + simpl. rewrite storage_reverseEffects. exact Hdoc1.
      - destruct (negb (String.eqb (key oldTile) "grass")) eqn:Hg;
          [rewrite HeffOld|]; eexists; (split; [reflexivity|]).
        + split; [|intros Hocc; apply occupied_false in Hocc as [Hk _];
                   rewrite Hk in Hg; discriminate].
          apply (safe_same s1); [apply inv_reverseEffects, Hs1|apply grid_reverseEffects
                                |apply costs_reverseEffects
                                |apply storage_reverseEffects|exact Hs1].
        + split; [exact Hs1|reflexivity]. }
    destruct Hclean as (s2 & Hclean & Hs2 & Hfree2). rewrite Hclean in H. simpl in H.
    destruct (b_effects (getBuildingConfig type)) as [eff|] eqn:Heff.
    + apply finishPlace_safe in H as [-> Hs']; [split; [exact Hs'|discriminate]| |].
      * intros _. split_and!; [lia|lia|rewrite Heff; eauto].
      * apply (safe_same s2); [apply inv_applyEffects, Hs2|apply grid_applyEffects
                              |apply costs_applyEffects
                              |apply storage_applyEffects|exact Hs2].
    + injection H as <- <-.
      assert (Hocc : occupied oldTile = false).
      { destruct (occupied oldTile); [|reflexivity]. exfalso.
        destruct (String.eqb type "grass") eqn:Hgr; simpl in Hblock; [|discriminate].
        apply String.eqb_eq in Hgr. subst type. discriminate. }
      rewrite (Hfree2 Hocc), (Hnone eq_refl).
      split; [exact Hsafe|]. intros _. split; reflexivity.
Qed.

Lemma masters_ok_fresh : masters_ok gridSize (freshGrid gridSize).
Proof.
  intros r c t m Ht _ Hk. exfalso. apply Hk.
  unfold gridAt, gridAtN, freshGrid in Ht.
  destruct ((0 <=? r) && (0 <=? c)); [|discriminate].
  destruct (replicate gridSize _ !! Z.to_nat r) as [rw|] eqn:Hrow; [|discriminate].
  apply lookup_replicate in Hrow as [-> _]. simpl in Ht.
  apply lookup_replicate in Ht as [-> _]. reflexivity.
Qed.

Lemma kinds_ok_fresh : kinds_ok (freshGrid gridSize).
Proof.
  intros r c t Ht.
  unfold gridAt, gridAtN, freshGrid in Ht.
  destruct ((0 <=? r) && (0 <=? c)); [|discriminate].
  destruct (replicate gridSize _ !! Z.to_nat r) as [rw|] eqn:Hrow; [|discriminate].
  apply lookup_replicate in Hrow as [-> _]. simpl in Ht.
  apply lookup_replicate in Ht as [-> _]. apply grass_has_effects.
Qed.

Lemma costs_ok_union (saved defaults : gmap string Q) :
  costs_ok saved → costs_ok defaults → costs_ok (saved ∪ defaults).
Proof.
  intros Hs Hd type H. rewrite lookup_union, (Hs type H), (Hd type H). reflexivity.
Qed.

Lemma safe_newScene (stored : option GameState) :
  (∀ doc, stored = Some doc →
          (data_wf gridSize (gs_grid doc) ∧ gs_costs doc !! "grass"%string = Some 0%Q)
          ∧ masters_ok gridSize (fmap (M := list) tileOfData <$> gs_grid doc)
          ∧ kinds_ok (fmap (M := list) tileOfData <$> gs_grid doc)
          ∧ costs_ok (gs_costs doc)) →
  safe_inv gridSize (newScene gridSize stored).
Proof.
  intros Hdoc. split; [apply inv_newScene; intros doc Hs; apply Hdoc; exact Hs|].
  unfold newScene, loadGame. rewrite initGrid_fresh. simpl.
  destruct stored as [doc|]; simpl.
  - destruct (Hdoc doc eq_refl) as ([Hdata _] & Hmasters & Hkinds & Hcosts).
    rewrite (initGrid_saved gridSize (gs_grid doc) (freshGrid gridSize) Hdata)
      by (rewrite (proj1 (freshGrid_wf gridSize)); lia).
    simpl. split_and!; [exact Hmasters|exact Hkinds| |].
    + apply costs_ok_union; [exact Hcosts|apply costs_ok_registry].
    + intros doc' [= <-]. auto.
  - split_and!; [apply masters_ok_fresh|apply kinds_ok_fresh|apply costs_ok_registry
                |discriminate].
Qed.

Lemma reachable_safe (s : Scene) : reachable gridSize s → safe_inv gridSize s.
Proof.
  induction 1 as [|s row col type r s' _ IH Hp|s _ IH|s s' Hr IH Ht|s _ IH].
  - apply safe_newScene. discriminate.
  - eapply placeTile_safe; eauto.
  - eapply safe_same; [|..|exact IH]; [|reflexivity..].
    eapply inv_same; [..|exact (proj1 IH)]; reflexivity.
  - pose proof (inv_handleTick gridSize s s' (proj1 IH) Ht) as Hinv.
    apply handleTick_frame in Ht as (Hg & _ & _ & Hc & _ & Hl).
    eapply safe_same; eauto.
  - apply safe_newScene. intros doc Hdoc. destruct IH as (Hinv & _ & _ & _ & Hm).
    split; [apply Hinv; exact Hdoc|apply Hm; exact Hdoc].
Qed.

(** On a free cell of a scene with the invariant, a name of
    [Object.prototype] makes [placeTile] throw. *)
Lemma placeTile_inherited (row col : Z) (type : string) (s : Scene) (t : Tile) :
  safe_inv gridSize s →
  inheritedKey type = true →
  isValidCoord gridSize row col = true →
  gridAt (grid s) row col = Some t → occupied t = false →
  placeTile gridSize row col type s = (ThrewTypeError, s).
Proof.
  intros (_ & _ & _ & Hcosts & _) Hin Hv Ht Hocc.
  pose proof (proj2 (effects_None_iff type) Hin) as Hnone.
  unfold placeTile. rewrite Hv, Ht, Hocc, (Hcosts type Hnone).
  rewrite (inheritedKey_config type Hin). cbn [b_size b_cost b_requirements b_effects negb].
  apply occupied_false in Hocc as [Hkey Hmaster]. rewrite Hkey, Hmaster.
  assert (Hne : String.eqb "grass" type = false).
  { apply String.eqb_neq. intros <-. discriminate. }
  rewrite Hne. simpl. rewrite andb_false_r. reflexivity.
Qed.

End SafetyOfPlacement.

(** X6.  In a scene a player can reach, [placeTile] throws in one case
    only: the type is a name every object inherits from
    [Object.prototype] ([constructor], [toString], ...), for which the
    registry lookup yields a member without [effects]; the call then leaves
    the scene as it was, and it does throw whenever the clicked cell is
    free.  For every other type no call throws, whatever the cell; a tick
    computes its income and [saveGame] writes a document.  In such a scene
    every building tile that carries a master reference is its own master,
    with its footprint inside the grid, and no tile carries such a name. *)
Theorem placeTile_throws_only_on_inherited_names (gridSize : nat) (s : Scene) :
  reachable gridSize s →
  (∀ row col type,
     fst (placeTile gridSize row col type s) = ThrewTypeError →
     inheritedKey type = true ∧ snd (placeTile gridSize row col type s) = s)
  ∧ (∀ row col type t,
       inheritedKey type = true →
       isValidCoord gridSize row col = true →
       gridAt (grid s) row col = Some t → occupied t = false →
       placeTile gridSize row col type s = (ThrewTypeError, s))
  ∧ is_Some (handleTick gridSize s)
  ∧ is_Some (saveGame gridSize s)
  ∧ masters_ok gridSize (grid s)
  ∧ kinds_ok (grid s).
Proof.
  intros Hreach. pose proof (reachable_safe gridSize s Hreach) as Hsafe.
  pose proof (proj1 (proj1 Hsafe)) as Hwf.
  split_and!.
  - intros row col type Hthrow.
    destruct (placeTile gridSize row col type s) as [r s'] eqn:Hp.
    cbn [fst snd] in *.
    destruct (placeTile_safe gridSize row col type s s' r Hsafe Hp) as [_ Hr].
    destruct (Hr Hthrow) as [Hnone ->].
    split; [apply effects_None_iff; exact Hnone|reflexivity].
  - intros row col type t. apply placeTile_inherited. exact Hsafe.
  - pose proof (countTiles_wf gridSize "shop" (grid s) Hwf) as Hs.
    pose proof (countTiles_wf gridSize "market" (grid s) Hwf) as Hm.
    destruct (calculateIncome_counts gridSize s _ _ Hs Hm) as (income & Hinc & _).
    unfold handleTick. rewrite Hinc. simpl. eauto.
  - rewrite (saveGame_wf gridSize s Hwf). eauto.
  - apply Hsafe.
  - apply Hsafe.
Qed.

Lemma placeTile_throws_only_on_inherited_names_witness :
  (∀ row col type,
     fst (placeTile 8 row col type universityTown) = ThrewTypeError →
     inheritedKey type = true ∧ snd (placeTile 8 row col type universityTown) = universityTown)
  ∧ (∀ row col type t,
       inheritedKey type = true →
       isValidCoord 8 row col = true →
       gridAt (grid universityTown) row col = Some t → occupied t = false →
       placeTile 8 row col type universityTown = (ThrewTypeError, universityTown))
  ∧ is_Some (handleTick 8 universityTown)
  ∧ is_Some (saveGame 8 universityTown)
  ∧ masters_ok 8 (grid universityTown)
  ∧ kinds_ok (grid universityTown).
Proof.
  apply (placeTile_throws_only_on_inherited_names 8 universityTown).
  exact universityTown_reachable.
Defined.

(** ** Removal *)

Lemma applyEffects_values (config : BuildingConfig) (s : Scene) :
  (population (applyEffects config s) == population s + popDelta config)%Q
  ∧ (happiness (applyEffects config s) == happiness s + happyDelta config)%Q
  ∧ money (applyEffects config s) = money s
  ∧ costs (applyEffects config s) = costs s
  ∧ previewFlipped (applyEffects config s) = previewFlipped s.
Proof.
  unfold applyEffects, popDelta, happyDelta, Js.truthy.
  destruct (b_effects config) as [effects|]; [|simpl; split_and!; try reflexivity; lra].
  cbn [mbind option_bind].
  destruct (eff_population effects) as [p|], (eff_happiness effects) as [h|];
    repeat match goal with |- context [Qeq_dec ?a ?b] => destruct (Qeq_dec a b) end;
    simpl; split_and!; try reflexivity; lra.
Qed.

Lemma reverseEffects_values (config : BuildingConfig) (s : Scene) :
  (population (reverseEffects config s) == population s - popDelta config)%Q
  ∧ (happiness (reverseEffects config s) == happiness s - happyDelta config)%Q
  ∧ money (reverseEffects config s) = money s
  ∧ costs (reverseEffects config s) = costs s
  ∧ previewFlipped (reverseEffects config s) = previewFlipped s.
Proof.
  unfold reverseEffects, popDelta, happyDelta, Js.truthy.
  destruct (b_effects config) as [effects|]; [|simpl; split_and!; try reflexivity; lra].
  cbn [mbind option_bind].
  destruct (eff_population effects) as [p|], (eff_happiness effects) as [h|];
    repeat match goal with |- context [Qeq_dec ?a ?b] => destruct (Qeq_dec a b) end;
    simpl; split_and!; try reflexivity; lra.
Qed.

Lemma applyEffects_grass (s : Scene) : applyEffects (getBuildingConfig "grass") s = s.
Proof. reflexivity. Qed.

(** X7.  Removal at the master cell of a building: where the tile at
    [(row, col)] is not grass (nor carries a name of [Object.prototype], at
    which [clearMultiTile] throws) and is its own master, its footprint lies
    in the grid and grass is free, placing grass there goes through, takes
    the effects of the building back once, charges nothing, turns every
    cell of the footprint into visible, unflipped grass without master
    (the clicked cell takes the orientation of the preview), and leaves
    every other cell as it was. *)
Theorem removal_at_master_clears_footprint (gridSize : nat) (s : Scene)
    (row col : Z) (t : Tile) :
  grid_wf gridSize (grid s) →
  isValidCoord gridSize row col = true →
  gridAt (grid s) row col = Some t →
  key t ≠ "grass"%string →
  inheritedKey (key t) = false →
  masterTile t = Some (row, col) →
  row + b_size (getBuildingConfig (key t)) <= Z.of_nat gridSize →
  col + b_size (getBuildingConfig (key t)) <= Z.of_nat gridSize →
  (currentCost s "grass" <= 0)%Q →
  ∃ s', placeTile gridSize row col "grass" s = (Placed, s')
        ∧ (population s' == population s - popDelta (getBuildingConfig (key t)))%Q
        ∧ (happiness s' == happiness s - happyDelta (getBuildingConfig (key t)))%Q
        ∧ money s' = money s ∧ costs s' = costs s
        ∧ gridAt (grid s') row col = Some (mkTile "grass" (previewFlipped s) None false true)
        ∧ (∀ r c, (r, c) ∈ footprint row col (b_size (getBuildingConfig (key t))) →
                  (r, c) ≠ (row, col) →
                  gridAt (grid s') r c = Some (mkTile "grass" false None false true))
        ∧ (∀ r c, (r, c) ∉ footprint row col (b_size (getBuildingConfig (key t))) →
                  (r, c) ≠ (row, col) →
                  gridAt (grid s') r c = gridAt (grid s) r c).
Proof.
  intros Hwf Hv Ht Hk Hinh Hm Hrow Hcol Hfree.
  pose proof Hv as Hb. apply isValidCoord_bounds in Hb.
  destruct (effects_Some (key t) Hinh) as [eff Heff].
  set (cfg := getBuildingConfig (key t)) in *.
  pose proof (footprint_valid gridSize row col (b_size cfg)
                ltac:(lia) ltac:(lia) Hrow Hcol) as Hvalid.
  assert (Hclear : clearCells (footprint row col (b_size cfg)) (grid s)
                   = (foldl (λ g' rc, alterTile clearedTile (fst rc) (snd rc) g')
                        (grid s) (footprint row col (b_size cfg)), true))
    by (apply (clearCells_ok gridSize); assumption).
  set (g2 := foldl (λ g' rc, alterTile clearedTile (fst rc) (snd rc) g')
               (grid s) (footprint row col (b_size cfg))) in *.
  assert (Hg2 : ∀ r c, gridAt g2 r c
                       = if decide ((r, c) ∈ footprint row col (b_size cfg))
                         then clearedTile <$> gridAt (grid s) r c else gridAt (grid s) r c).
  { intros r c. subst g2. apply (gridAt_foldl_alter (λ _ _, clearedTile));
      [apply NoDup_footprint|apply (valid_nonneg gridSize); exact Hvalid]. }
  assert (Hwf2 : grid_wf gridSize g2).
  { pose proof (clearCells_wf gridSize (footprint row col (b_size cfg)) (grid s) Hwf) as H.
    rewrite Hclear in H. exact H. }
  destruct (reverseEffects_values cfg s) as (Hpop & Hhap & Hmon & Hcos & Hfl).
  exists (set_localStorage
            (Some (mkGameState (money s) (population (reverseEffects cfg s))
                     (happiness (reverseEffects cfg s)) (costs s)
                     (fmap (M := list) dataOfTile
                        <$> alterTile (retile "grass" (previewFlipped s)) row col g2)))
            (set_grid (alterTile (retile "grass" (previewFlipped s)) row col g2)
               (reverseEffects cfg s))).
  split.
  - unfold placeTile. rewrite Hv. simpl. rewrite Ht. simpl.
    assert (Hne : String.eqb (key t) "grass" = false) by (apply String.eqb_neq; exact Hk).
    rewrite Hne. simpl.
    unfold currentCost in Hfree. simpl in Hfree.
    match goal with
    | |- context [Qlt_le_dec 0 ?c] => destruct (Qlt_le_dec 0 c) as [Hpos|_]; [lra|]
    end.
    rewrite Hm. unfold clearMultiTile. cbn [fst snd]. rewrite Ht.
    fold cfg. rewrite Heff, grid_reverseEffects, Hclear. simpl.
    unfold finishPlace. simpl.
    rewrite (saveGame_wf gridSize); [|simpl; apply alterTile_wf; exact Hwf2].
    simpl. rewrite ?Hmon, ?Hcos, ?Hfl, ?applyEffects_grass.
    unfold set_grid, set_localStorage.
    cbn [money population happiness costs grid previewFlipped localStorage].
    reflexivity.
  - simpl. split_and!; [exact Hpop|exact Hhap|exact Hmon|exact Hcos| | |].
    + rewrite gridAt_alterTile_eq, Hg2, Ht.
      rewrite decide_True; [reflexivity|].
      subst cfg. apply footprint_anchor.
    + intros r c Hin Hne.
      rewrite gridAt_alterTile_ne by (first [lia | exact Hne]).
      rewrite Hg2, decide_True by exact Hin.
      rewrite Forall_forall in Hvalid. pose proof (Hvalid _ Hin) as Hvrc. simpl in Hvrc.
      destruct (gridAt_wf gridSize (grid s) r c Hwf Hvrc) as [t0 Ht0]. rewrite Ht0.
      reflexivity.
    + intros r c Hnin Hne.
      rewrite gridAt_alterTile_ne by (first [lia | exact Hne]).
      rewrite Hg2, decide_False by exact Hnin. reflexivity.
Qed.

Lemma removal_at_master_clears_footprint_witness :
  ∃ s', placeTile 8 5 5 "grass" universityTown = (Placed, s')
        ∧ (population s'
           == population universityTown - popDelta (getBuildingConfig (key universityTile)))%Q
        ∧ (happiness s'
           == happiness universityTown - happyDelta (getBuildingConfig (key universityTile)))%Q
        ∧ money s' = money universityTown ∧ costs s' = costs universityTown
        ∧ gridAt (grid s') 5 5
          = Some (mkTile "grass" (previewFlipped universityTown) None false true)
        ∧ (∀ r c, (r, c) ∈ footprint 5 5 (b_size (getBuildingConfig (key universityTile))) →
                  (r, c) ≠ (5, 5) →
                  gridAt (grid s') r c = Some (mkTile "grass" false None false true))
        ∧ (∀ r c, (r, c) ∉ footprint 5 5 (b_size (getBuildingConfig (key universityTile))) →
                  (r, c) ≠ (5, 5) →
                  gridAt (grid s') r c = gridAt (grid universityTown) r c).
Proof.
  refine (removal_at_master_clears_footprint 8 universityTown 5 5 universityTile
            _ _ _ _ _ _ _ _ _).
  - exact (proj1 (reachable_inv 8 _ universityTown_reachable)).
  - reflexivity.
  - vm_compute. reflexivity.
  - discriminate.
  - reflexivity.
  - reflexivity.
  - vm_compute. discriminate.
  - vm_compute. discriminate.
  - vm_compute. discriminate.
Defined.

(** X8.  Removal of a single-tile building: where the tile at
    [(row, col)] is not grass (nor carries a name of [Object.prototype], at
    which reading [oldConfig.effects] throws) and has no master, and grass
    is free, placing grass there goes through, takes the effects of the building
    back once, refunds and charges nothing, turns the cell into grass with
    the orientation of the preview, and leaves every other cell as it was. *)
Theorem removal_of_single_building (gridSize : nat) (s : Scene)
    (row col : Z) (t : Tile) :
  grid_wf gridSize (grid s) →
  isValidCoord gridSize row col = true →
  gridAt (grid s) row col = Some t →
  key t ≠ "grass"%string →
  inheritedKey (key t) = false →
  masterTile t = None →
  (currentCost s "grass" <= 0)%Q →
  ∃ s', placeTile gridSize row col "grass" s = (Placed, s')
        ∧ (population s' == population s - popDelta (getBuildingConfig (key t)))%Q
        ∧ (happiness s' == happiness s - happyDelta (getBuildingConfig (key t)))%Q
        ∧ money s' = money s ∧ costs s' = costs s
        ∧ gridAt (grid s') row col
          = Some (mkTile "grass" (previewFlipped s) None false (visible t))
        ∧ (∀ r c, (r, c) ≠ (row, col) → gridAt (grid s') r c = gridAt (grid s) r c).
Proof.
  intros Hwf Hv Ht Hk Hinh Hm Hfree.
  pose proof Hv as Hb. apply isValidCoord_bounds in Hb.
  destruct (effects_Some (key t) Hinh) as [eff Heff].
  set (cfg := getBuildingConfig (key t)) in *.
  destruct (reverseEffects_values cfg s) as (Hpop & Hhap & Hmon & Hcos & Hfl).
  exists (set_localStorage
            (Some (mkGameState (money s) (population (reverseEffects cfg s))
                     (happiness (reverseEffects cfg s)) (costs s)
                     (fmap (M := list) dataOfTile
                        <$> alterTile (retile "grass" (previewFlipped s)) row col (grid s))))
            (set_grid (alterTile (retile "grass" (previewFlipped s)) row col (grid s))
               (reverseEffects cfg s))).
  split.
  - unfold placeTile. rewrite Hv. simpl. rewrite Ht. simpl.
    assert (Hne : String.eqb (key t) "grass" = false) by (apply String.eqb_neq; exact Hk).
    rewrite Hne. simpl.
    unfold currentCost in Hfree. simpl in Hfree.
    match goal with
    | |- context [Qlt_le_dec 0 ?c] => destruct (Qlt_le_dec 0 c) as [Hpos|_]; [lra|]
    end.
    rewrite Hm. simpl. fold cfg. rewrite Heff. simpl.
    unfold finishPlace. simpl. rewrite applyEffects_grass, ?grid_reverseEffects.
    rewrite (saveGame_wf gridSize); [|simpl; apply alterTile_wf; exact Hwf].
    simpl. rewrite ?Hmon, ?Hcos, ?Hfl, ?applyEffects_grass.
    unfold set_grid, set_localStorage.
    cbn [money population happiness costs grid previewFlipped localStorage].
    reflexivity.
  - simpl. split_and!; [exact Hpop|exact Hhap|exact Hmon|exact Hcos| |].
    + rewrite gridAt_alterTile_eq, Ht. reflexivity.
    + intros r c Hne. apply gridAt_alterTile_ne; [lia|lia|exact Hne].
Qed.

Lemma removal_of_single_building_witness :
  ∃ s', placeTile 8 0 1 "grass" shopTown = (Placed, s')
        ∧ (population s' == population shopTown - popDelta (getBuildingConfig (key shopTile)))%Q
        ∧ (happiness s' == happiness shopTown - happyDelta (getBuildingConfig (key shopTile)))%Q
        ∧ money s' = money shopTown ∧ costs s' = costs shopTown
        ∧ gridAt (grid s') 0 1
          = Some (mkTile "grass" (previewFlipped shopTown) None false (visible shopTile))
        ∧ (∀ r c, (r, c) ≠ (0, 1) → gridAt (grid s') r c = gridAt (grid shopTown) r c).
Proof.
  refine (removal_of_single_building 8 shopTown 0 1 shopTile _ _ _ _ _ _ _).
  - exact (proj1 (reachable_inv 8 _ shopTown_reachable)).
  - reflexivity.
  - vm_compute. reflexivity.
  - discriminate.
  - reflexivity.
  - reflexivity.
  - vm_compute. discriminate.
Defined.

(** ** A placement that goes through *)

Section Building.

Variable gridSize : nat.

(** The checks of [placeTile] on a free footprint: what is left is the
    funds test, the requirement test and the writes. *)
Lemma placeTile_on_free (s : Scene) (row col : Z) (type : string) :
  Forall (λ rc, isValidCoord gridSize (fst rc) (snd rc) = true
                ∧ ∃ t, gridAt (grid s) (fst rc) (snd rc) = Some t ∧ occupied t = false)
         (footprint row col (b_size (getBuildingConfig type))) →
  type ≠ "grass"%string →
  placeTile gridSize row col type s
  = let config := getBuildingConfig type in
    let multiTile := 1 <? b_size config in
    let cost := Js.or_else (costs s !! type) (b_cost config) in
    if (if Qlt_le_dec 0 cost then if Qlt_le_dec (money s) cost then true else false else false)
    then (NeedMoney cost, s) else
    match
      match b_requirements config with
      | Some req =>
          match req_population req with
          | Some n =>
              if Js.truthy (Some n) && (if Qlt_le_dec (population s) n then true else false)
              then Some n else None
          | None => None
          end
      | None => None
      end
    with
    | Some n => (NeedPopulation n, s)
    | None =>
        let s1 := if Qlt_le_dec 0 cost
                  then incrementCost type (updateMoney (- cost)%Q s) else s in
        match b_effects config with
        | None => (ThrewTypeError, s1)
        | Some _ =>
            let s3 := applyEffects config s1 in
            let s4 := if multiTile
                      then set_grid (setupMultiTile row col type (previewFlipped s)
                                       (footprint row col (b_size config)) (grid s3)) s3
                      else s3 in
            finishPlace gridSize row col type multiTile (previewFlipped s) s4
        end
    end.
Proof.
  intros Hfree Hng. unfold placeTile.
  pose proof (footprint_anchor row col type) as Hin.
  pose proof Hfree as Hall. rewrite Forall_forall in Hall.
  destruct (Hall _ Hin) as (Hv & t & Ht & Hocc). simpl in Hv, Ht.
  rewrite Hv. simpl.
  rewrite (checkArea_free gridSize (grid s) _ Hfree).
  assert (Hcheck : (if 1 <? b_size (getBuildingConfig type)
                    then @None PlaceResult else None) = None)
    by (destruct (1 <? _); reflexivity).
  rewrite Hcheck, Ht, Hocc.
  apply occupied_false in Hocc as [Hkey Hmaster]. rewrite Hkey, Hmaster.
  assert (Hne : String.eqb "grass" type = false)
    by (apply String.eqb_neq; congruence).
  rewrite Hne. rewrite !andb_false_r. simpl. reflexivity.
Qed.

End Building.

Lemma costs_incrementCost_updateMoney (type : string) (a : Q) (s : Scene) :
  costs (incrementCost type (updateMoney a s)) = costs (incrementCost type s)
  ∧ money (incrementCost type (updateMoney a s)) = (money s + a)%Q
  ∧ population (incrementCost type (updateMoney a s)) = population s
  ∧ happiness (incrementCost type (updateMoney a s)) = happiness s
  ∧ previewFlipped (incrementCost type (updateMoney a s)) = previewFlipped s.
Proof.
  unfold incrementCost. simpl. destruct (costs s !! type) as [c|]; [|auto].
  destruct (Qlt_le_dec 0 c); auto.
Qed.

(** X9.  A type other than grass, and other than the names inherited from
    [Object.prototype] (at which [placeTile] throws, see X6), placed on a
    free footprint inside the grid with enough money and population, goes
    through: the balance falls by
    exactly the current cost (by nothing when the cost is not positive),
    the costs become those [incrementCost] gives, population and happiness
    change by the effects of the kind, every cell outside the footprint
    stays as it was, and the saved document holds the new values. *)
Theorem placement_debits_and_applies (gridSize : nat) (s : Scene)
    (row col : Z) (type : string) :
  grid_wf gridSize (grid s) →
  Forall (λ rc, isValidCoord gridSize (fst rc) (snd rc) = true
                ∧ ∃ t, gridAt (grid s) (fst rc) (snd rc) = Some t ∧ occupied t = false)
         (footprint row col (b_size (getBuildingConfig type))) →
  type ≠ "grass"%string →
  inheritedKey type = false →
  (currentCost s type <= 0 ∨ currentCost s type <= money s)%Q →
  (∀ req n, b_requirements (getBuildingConfig type) = Some req →
            req_population req = Some n → (n <= population s)%Q) →
  ∃ s', placeTile gridSize row col type s = (Placed, s')
        ∧ (money s' == money s - Js.max 0 (currentCost s type))%Q
        ∧ costs s' = (if Qlt_le_dec 0 (currentCost s type)
                      then costs (incrementCost type s) else costs s)
        ∧ (population s' == population s + popDelta (getBuildingConfig type))%Q
        ∧ (happiness s' == happiness s + happyDelta (getBuildingConfig type))%Q
        ∧ (∀ r c, (r, c) ∉ footprint row col (b_size (getBuildingConfig type)) →
                  gridAt (grid s') r c = gridAt (grid s) r c)
        ∧ localStorage s'
          = Some (mkGameState (money s') (population s') (happiness s') (costs s')
                    (fmap (M := list) dataOfTile <$> grid s')).
Proof.
  intros Hwf Hfree Hng Hinh Hfunds Hreq.
  rewrite (placeTile_on_free gridSize s row col type Hfree Hng). cbv zeta.
  unfold currentCost in *.
  destruct (effects_Some type Hinh) as [eff Heff].
  set (cfg := getBuildingConfig type) in *.
  set (cost := Js.or_else (costs s !! type) (b_cost cfg)) in *.
  assert (Hvalid : Forall (λ rc, isValidCoord gridSize (fst rc) (snd rc) = true)
                     (footprint row col (b_size cfg))).
  { eapply Forall_impl; [exact Hfree|]. intros rc [Hv _]. exact Hv. }
  pose proof (footprint_anchor row col type) as Hanchor. fold cfg in Hanchor.
  assert (Hfunds' : (if Qlt_le_dec 0 cost
                     then if Qlt_le_dec (money s) cost then true else false
                     else false) = false).
  { destruct (Qlt_le_dec 0 cost); [|reflexivity].
    destruct (Qlt_le_dec (money s) cost); [lra|reflexivity]. }
  rewrite Hfunds'.
  assert (Hreq' : match b_requirements cfg with
                  | Some req =>
                      match req_population req with
                      | Some n =>
                          if Js.truthy (Some n)
                             && (if Qlt_le_dec (population s) n then true else false)
                          then Some n else None
                      | None => None
                      end
                  | None => None
                  end = None).
  { destruct (b_requirements cfg) as [req|] eqn:Hr; [|reflexivity].
    destruct (req_population req) as [n|] eqn:Hn; [|reflexivity].
    pose proof (Hreq req n eq_refl Hn) as Hle.
    destruct (Qlt_le_dec (population s) n); [lra|]. rewrite andb_false_r. reflexivity. }
  rewrite Hreq', Heff.
  set (s1 := if Qlt_le_dec 0 cost then incrementCost type (updateMoney (- cost)%Q s) else s).
  assert (H1 : grid s1 = grid s
               ∧ (money s1 == money s - Js.max 0 cost)%Q
               ∧ costs s1 = (if Qlt_le_dec 0 cost then costs (incrementCost type s) else costs s)
               ∧ population s1 = population s ∧ happiness s1 = happiness s).
  { subst s1. unfold Js.max. destruct (Qlt_le_dec 0 cost).
    - destruct (costs_incrementCost_updateMoney type (- cost)%Q s) as (Hc & Hm & Hp & Hh & _).
      rewrite grid_incrementCost, Hc, Hm, Hp, Hh. split_and!; try reflexivity; lra.
    - split_and!; try reflexivity; lra. }
  destruct H1 as (Hg1 & Hm1 & Hc1 & Hp1 & Hh1). clearbody s1.
  destruct (applyEffects_values cfg s1) as (Hp3 & Hh3 & Hm3 & Hc3 & _).
  pose proof (grid_applyEffects cfg s1) as Hg3.
  rewrite Hp1 in Hp3. rewrite Hh1 in Hh3. rewrite <- Hm3 in Hm1. rewrite <- Hc3 in Hc1.
  set (s3 := applyEffects cfg s1) in *. clearbody s3.
  unfold finishPlace.
  destruct (1 <? b_size cfg) eqn:Hmulti; cbn [negb].
  - rewrite (saveGame_wf gridSize);
      [|simpl; apply setupMultiTile_wf; rewrite Hg3, Hg1; exact Hwf].
    eexists. split; [reflexivity|]. simpl.
    split_and!; [exact Hm1|exact Hc1|exact Hp3|exact Hh3| |reflexivity].
    intros r c Hnin. rewrite Hg3, Hg1, gridAt_setupMultiTile;
      [|apply NoDup_footprint|apply (valid_nonneg gridSize); exact Hvalid].
    rewrite decide_False by exact Hnin. reflexivity.
  - rewrite (saveGame_wf gridSize);
      [|simpl; apply alterTile_wf; rewrite Hg3, Hg1; exact Hwf].
    eexists. split; [reflexivity|]. simpl.
    split_and!; [exact Hm1|exact Hc1|exact Hp3|exact Hh3| |reflexivity].
    intros r c Hnin. rewrite Hg3, Hg1.
    rewrite Forall_forall in Hvalid. pose proof (Hvalid _ Hanchor) as Hv. simpl in Hv.
    apply isValidCoord_bounds in Hv.
    apply gridAt_alterTile_ne; [lia|lia|]. intros [= -> ->]. contradiction.
Qed.

Lemma placement_debits_and_applies_witness :
  ∃ s', placeTile 8 3 3 "park" (newScene 8 None) = (Placed, s')
        ∧ (money s' == money (newScene 8 None) - Js.max 0 (currentCost (newScene 8 None) "park"))%Q
        ∧ costs s' = (if Qlt_le_dec 0 (currentCost (newScene 8 None) "park")
                      then costs (incrementCost "park" (newScene 8 None))
                      else costs (newScene 8 None))
        ∧ (population s' == population (newScene 8 None) + popDelta (getBuildingConfig "park"))%Q
        ∧ (happiness s' == happiness (newScene 8 None) + happyDelta (getBuildingConfig "park"))%Q
        ∧ (∀ r c, (r, c) ∉ footprint 3 3 (b_size (getBuildingConfig "park")) →
                  gridAt (grid s') r c = gridAt (grid (newScene 8 None)) r c)
        ∧ localStorage s'
          = Some (mkGameState (money s') (population s') (happiness s') (costs s')
                    (fmap (M := list) dataOfTile <$> grid s')).
Proof.
  refine (placement_debits_and_applies 8 (newScene 8 None) 3 3 "park" _ _ _ _ _ _).
  - exact (proj1 (reachable_inv 8 _ (reach_new 8))).
  - vm_compute. repeat (constructor; [split; [reflexivity|eexists; split; reflexivity]|]).
    constructor.
  - discriminate.
  - reflexivity.
  - right. vm_compute. discriminate.
  - intros req n Hr. vm_compute in Hr. discriminate.
Defined.

(** X10.  A kind with a population requirement, placed on a free
    footprint with the money at hand while the population is below the
    requirement, is refused with "NEED n" and the scene stays as it was. *)
Theorem missing_population_is_refused (gridSize : nat) (s : Scene)
    (row col : Z) (type : string) (req : Requirements) (n : Q) :
  Forall (λ rc, isValidCoord gridSize (fst rc) (snd rc) = true
                ∧ ∃ t, gridAt (grid s) (fst rc) (snd rc) = Some t ∧ occupied t = false)
         (footprint row col (b_size (getBuildingConfig type))) →
  type ≠ "grass"%string →
  (currentCost s type <= 0 ∨ currentCost s type <= money s)%Q →
  b_requirements (getBuildingConfig type) = Some req →
  req_population req = Some n →
  ¬ (n == 0)%Q → (population s < n)%Q →
  placeTile gridSize row col type s = (NeedPopulation n, s)
  ∧ reasonOf (NeedPopulation n) = Some PrerequisiteNotMet.
Proof.
  intros Hfree Hng Hfunds Hreq Hn Hnz Hpop. split; [|reflexivity].
  rewrite (placeTile_on_free gridSize s row col type Hfree Hng). cbv zeta.
  unfold currentCost in Hfunds.
  match goal with
  | |- (if ?b then _ else _) = _ =>
      assert (Hf : b = false);
      [ destruct (Qlt_le_dec 0 _); [|reflexivity];
        destruct (Qlt_le_dec (money s) _); [lra|reflexivity]
      | rewrite Hf ]
  end.
  rewrite Hreq, Hn. unfold Js.truthy.
  destruct (Qeq_dec n 0); [contradiction|].
  destruct (Qlt_le_dec (population s) n); [reflexivity|lra].
Qed.

Lemma missing_population_is_refused_witness :
  placeTile 8 5 5 "university" (set_money 5000 (newScene 8 None))
  = (NeedPopulation 1, set_money 5000 (newScene 8 None))
  ∧ reasonOf (NeedPopulation 1) = Some PrerequisiteNotMet.
Proof.
  refine (missing_population_is_refused 8 (set_money 5000 (newScene 8 None)) 5 5
            "university" (mkRequirements (Some 1%Q)) 1 _ _ _ _ _ _ _).
  - vm_compute. repeat (constructor; [split; [reflexivity|eexists; split; reflexivity]|]).
    constructor.
  - discriminate.
  - right. vm_compute. discriminate.
  - reflexivity.
  - reflexivity.
  - discriminate.
  - reflexivity.
Defined.



(** ** Loading a document whose grid is too short *)

Section ShortDocument.

Variable gridSize : nat.

(** The outer loop of [initGrid] when the inner loop throws in row
    [a + k]: the rows before are built, that row holds what was pushed
    before the throw, the rows after it are the old ones. *)
Lemma initRows_stop (saved : option (list (list TileData))) (F : nat → list Tile)
    (partial : list Tile) (k m a : nat) (g : list (list Tile)) :
  (∀ r, (a <= r < a + k)%nat → initCells saved r (seq 0 gridSize) [] = (F r, true)) →
  initCells saved (a + k) (seq 0 gridSize) [] = (partial, false) →
  (a <= length g)%nat →
  initRows gridSize saved (seq a (k + S m)) g
  = (take a g ++ (F <$> seq a k) ++ partial :: drop (S (a + k)) g, false).
Proof.
  revert a g. induction k as [|k IH]; intros a g HF Hstop Ha.
  - rewrite Nat.add_0_r in Hstop. simpl. rewrite Hstop.
    rewrite setRow_take_drop by exact Ha. rewrite Nat.add_0_r. reflexivity.
  - cbn [Nat.add seq initRows]. rewrite (HF a) by lia.
    rewrite setRow_take_drop by exact Ha.
    rewrite IH.
    + f_equal.
      rewrite take_app_ge by (rewrite length_take; lia).
      rewrite length_take, Nat.min_l by lia.
      replace (S a - a)%nat with 1%nat by lia. simpl. rewrite take_0.
      rewrite <- app_assoc. simpl. do 4 f_equal.
      rewrite drop_app_ge by (rewrite length_take; lia).
      rewrite length_take, Nat.min_l by lia.
      match goal with
      | |- drop ?n (_ :: _) = _ => replace n with (S (S k)) by lia
      end.
      cbn [drop]. rewrite drop_drop. f_equal; lia.
    + intros r Hr. apply HF. lia.
    + replace (S a + k)%nat with (a + S k)%nat by lia. exact Hstop.
    + rewrite length_app, length_take. simpl. lia.
Qed.

(** X12.  [loadGame] is not all or nothing.  With a saved document whose
    grid has fewer than [gridSize] rows (each of full length), the
    [TypeError] of [initGrid] is caught after the fact: balance,
    population, happiness and costs are those of the document, the rows the
    document has are rebuilt, the next row is left empty and the rows after
    it are the old ones.  The grid is then no longer square, and [saveGame]
    throws. *)
Theorem loadGame_short_grid (s : Scene) (doc : GameState) :
  localStorage s = Some doc →
  (length (gs_grid doc) < gridSize)%nat →
  Forall (λ row, length row = gridSize) (gs_grid doc) →
  (length (gs_grid doc) <= length (grid s))%nat →
  money (loadGame gridSize s) = gs_money doc
  ∧ population (loadGame gridSize s) = gs_population doc
  ∧ happiness (loadGame gridSize s) = gs_happiness doc
  ∧ costs (loadGame gridSize s) = gs_costs doc ∪ costs s
  ∧ grid (loadGame gridSize s)
    = (fmap (M := list) tileOfData <$> gs_grid doc)
      ++ [] :: drop (S (length (gs_grid doc))) (grid s)
  ∧ ¬ grid_wf gridSize (grid (loadGame gridSize s))
  ∧ saveGame gridSize (loadGame gridSize s) = None.
Proof.
  intros Hdoc Hshort Hrows Hlen.
  set (data := gs_grid doc) in *. set (k := length data) in *.
  assert (Hinit : initGrid gridSize (Some data) (grid s)
                  = ((fmap (M := list) tileOfData <$> data)
                     ++ [] :: drop (S k) (grid s), false)).
  { unfold initGrid.
    replace (seq 0 gridSize) with (seq 0 (k + S (gridSize - S k))) by (f_equal; lia).
    rewrite (initRows_stop (Some data)
               (λ r, match data !! r with
                     | Some row => tileOfData <$> row
                     | None => []
                     end) [] k (gridSize - S k) 0 (grid s)).
    - rewrite take_0. cbn [app Nat.add]. do 2 f_equal.
      apply list_eq. intros i. rewrite !list_lookup_fmap.
      destruct (decide (i < k)%nat) as [Hi|Hi].
      + rewrite lookup_seq_lt by exact Hi. simpl.
        destruct (lookup_lt_is_Some_2 data i) as [row Hrow]; [exact Hi|].
        rewrite Hrow. reflexivity.
      + rewrite lookup_seq_ge by lia.
        rewrite (lookup_ge_None_2 data i) by (fold k; lia). reflexivity.
    - intros r Hr.
      destruct (lookup_lt_is_Some_2 data r) as [row Hrow]; [fold k; lia|]. rewrite Hrow.
      rewrite Forall_lookup in Hrows. pose proof (Hrows _ _ Hrow) as Hl.
      rewrite (initCells_saved data r row gridSize 0 [] Hrow) by (simpl; lia).
      simpl. rewrite drop_0, take_ge by lia. reflexivity.
    - cbn [Nat.add]. destruct gridSize as [|n]; [lia|]. simpl.
      rewrite (lookup_ge_None_2 data k) by (fold k; lia). reflexivity.
    - lia. }
  unfold loadGame. rewrite Hdoc. simpl. fold data. rewrite Hinit. simpl.
  split_and!; try reflexivity.
  - intros [_ Hall]. rewrite Forall_lookup in Hall.
    assert (Hrow : ((fmap (M := list) tileOfData <$> data)
                    ++ [] :: drop (S k) (grid s)) !! k = Some []).
    { rewrite lookup_app_r by (rewrite length_fmap; fold k; lia).
      rewrite length_fmap. fold k. rewrite Nat.sub_diag. reflexivity. }
    pose proof (Hall _ _ Hrow) as Hbad. simpl in Hbad. lia.
  - unfold saveGame, getGridData. simpl.
    rewrite mapM_None_2; [reflexivity|].
    apply Exists_exists. exists k. split; [apply elem_of_seq; lia|].
    apply mapM_None_2. apply Exists_exists. exists 0%nat.
    split; [apply elem_of_seq; lia|].
    unfold gridAtN.
    rewrite lookup_app_r by (rewrite length_fmap; fold k; lia).
    rewrite length_fmap. fold k. rewrite Nat.sub_diag. reflexivity.
Qed.

End ShortDocument.

Lemma loadGame_short_grid_witness :
  let doc := mkGameState 7 3 2 ∅ [] in
  let s := set_localStorage (Some doc) (newScene 2 None) in
  money (loadGame 2 s) = 7%Q
  ∧ population (loadGame 2 s) = 3%Q
  ∧ happiness (loadGame 2 s) = 2%Q
  ∧ costs (loadGame 2 s) = ∅ ∪ costs s
  ∧ grid (loadGame 2 s) = [] ++ [] :: drop 1 (grid s)
  ∧ ¬ grid_wf 2 (grid (loadGame 2 s))
  ∧ saveGame 2 (loadGame 2 s) = None.
Proof.
  intros doc s.
  refine (loadGame_short_grid 2 s doc _ _ _ _).
  - reflexivity.
  - simpl. lia.
  - constructor.
  - simpl. lia.
Defined.

(** ** What the saved document holds *)

Section SavedDocument.

Variable gridSize : nat.

(** A call of [placeTile] throws, or returns before it has changed
    anything, or ends with a [saveGame] that wrote a document. *)
Lemma placeTile_outcome (s s' : Scene) (row col : Z) (type : string) (r : PlaceResult) :
  placeTile gridSize row col type s = (r, s') →
  r = ThrewTypeError ∨ s' = s ∨ ∃ s1, saveGame gridSize s1 = Some s'.
Proof.
  intros H. unfold placeTile, finishPlace in H.
  repeat match type of H with
         | context [match ?x with _ => _ end] =>
             match x with
             | checkArea _ _ _ => fail 1
             | _ => destruct x eqn:?
             end
         end;
    injection H as <- <-;
    first [ left; reflexivity
          | right; left; reflexivity
          | right; right; eexists; eassumption ].
Qed.

Lemma saveGame_synced (s s' : Scene) :
  saveGame gridSize s = Some s' → synced gridSize s'.
Proof.
  unfold saveGame. destruct (getGridData gridSize (grid s)) as [data|] eqn:Hd;
    [|discriminate].
  simpl. intros [= <-]. unfold synced. simpl.
  split_and!; [reflexivity|exact Hd|reflexivity|reflexivity|apply Qle_refl].
Qed.

Lemma handleTick_money (s s' : Scene) :
  handleTick gridSize s = Some s' → (money s <= money s')%Q.
Proof.
  unfold handleTick. destruct (calculateIncome gridSize s) as [income|]; [|discriminate].
  simpl. intros [= <-]. destruct (Qlt_le_dec 0 income); simpl; lra.
Qed.

Lemma synced_first_visit : synced gridSize (newScene gridSize None).
Proof.
  unfold newScene, loadGame. rewrite initGrid_fresh. simpl. unfold synced. simpl.
  split_and!; [reflexivity..|apply Qle_refl].
Qed.

Lemma synced_reload (s : Scene) :
  scene_inv gridSize s → synced gridSize s →
  synced gridSize (newScene gridSize (localStorage s)).
Proof.
  intros (_ & Hdom & _ & Hdoc) Hsync. unfold synced in Hsync.
  destruct (localStorage s) as [doc|] eqn:Hl; [|apply synced_first_visit].
  destruct Hsync as (Hc & _ & _ & _ & _).
  destruct (Hdoc doc eq_refl) as [Hdata _].
  unfold newScene, loadGame. rewrite initGrid_fresh. simpl.
  rewrite (initGrid_saved gridSize (gs_grid doc) (freshGrid gridSize) Hdata)
    by (rewrite (proj1 (freshGrid_wf gridSize)); lia).
  simpl. unfold synced. simpl. rewrite !Qplus_0_r_eq.
  split_and!; [|..|reflexivity|reflexivity|apply Qle_refl].
  - symmetry. apply costs_merge. rewrite Hc. exact Hdom.
  - rewrite (getGridData_wf gridSize _ (tileOfData_wf gridSize _ Hdata)). f_equal.
    rewrite <- list_fmap_compose. rewrite <- (list_fmap_id (gs_grid doc)) at 2.
    apply list_fmap_ext. intros _ row _. simpl.
    rewrite <- list_fmap_compose. rewrite <- (list_fmap_id row) at 2.
    apply list_fmap_ext. intros _ d _. simpl. apply dataOfTile_tileOfData.
Qed.

Lemma reachable_synced (s : Scene) : reachable gridSize s → synced gridSize s.
Proof.
  induction 1 as [|s row col type r s' Hr IH Hp|s _ IH|s s' _ IH Ht|s Hr IH].
  - apply synced_first_visit.
  - destruct (placeTile_safe gridSize row col type s s' r
                (reachable_safe gridSize s Hr) Hp) as [_ Hthrow].
    destruct (placeTile_outcome s s' row col type r Hp) as [->|[->|[s1 Hs]]].
    + destruct (Hthrow eq_refl) as [_ ->]. exact IH.
    + exact IH.
    + eapply saveGame_synced. exact Hs.
  - exact IH.
  - pose proof (handleTick_money s s' Ht) as Hm.
    apply handleTick_frame in Ht as (Hg & Hp & Hh & Hc & _ & Hl).
    unfold synced in *. rewrite Hl, Hg, Hp, Hh, Hc.
    destruct (localStorage s) as [doc|];
      destruct IH as (? & ? & ? & ? & ?); split_and!; try assumption; lra.
  - apply synced_reload; [apply reachable_inv; exact Hr|exact IH].
Qed.

End SavedDocument.

(** X13.  In a scene a player can reach, the saved document is never out
    of date on the town: it holds the current costs, the current grid data,
    the current population and happiness.  Only the balance may have grown
    past the saved one, by the income of the ticks since the last
    placement.  While nothing has been saved, nothing has been built: the
    grid is the fresh one, the costs are the list prices, and the balance is
    at least the starting 100. *)
Theorem saved_document_tracks_scene (gridSize : nat) (s : Scene) :
  reachable gridSize s →
  match localStorage s with
  | Some doc =>
      gs_costs doc = costs s
      ∧ getGridData gridSize (grid s) = Some (gs_grid doc)
      ∧ gs_population doc = population s
      ∧ gs_happiness doc = happiness s
      ∧ (gs_money doc <= money s)%Q
  | None =>
      grid s = freshGrid gridSize
      ∧ costs s = registryCosts
      ∧ population s = 0%Q
      ∧ happiness s = 1%Q
      ∧ (100 <= money s)%Q
  end.
Proof. intros Hr. exact (reachable_synced gridSize s Hr). Qed.

Lemma saved_document_tracks_scene_witness :
  match localStorage universityTown with
  | Some doc =>
      gs_costs doc = costs universityTown
      ∧ getGridData 8 (grid universityTown) = Some (gs_grid doc)
      ∧ gs_population doc = population universityTown
      ∧ gs_happiness doc = happiness universityTown
      ∧ (gs_money doc <= money universityTown)%Q
  | None =>
      grid universityTown = freshGrid 8
      ∧ costs universityTown = registryCosts
      ∧ population universityTown = 0%Q
      ∧ happiness universityTown = 1%Q
      ∧ (100 <= money universityTown)%Q
  end.
Proof.
  exact (saved_document_tracks_scene 8 universityTown universityTown_reachable).
Defined.

(** X14.  Reloading the page in a reachable scene loses nothing of the
    town: the scene built from [localStorage] has the same grid data, costs,
    population and happiness.  The balance is the one of the last
    placement (or the starting 100), never more than before the reload. *)
Theorem reload_keeps_town (gridSize : nat) (s : Scene) :
  reachable gridSize s →
  getGridData gridSize (grid (newScene gridSize (localStorage s)))
  = getGridData gridSize (grid s)
  ∧ costs (newScene gridSize (localStorage s)) = costs s
  ∧ population (newScene gridSize (localStorage s)) = population s
  ∧ happiness (newScene gridSize (localStorage s)) = happiness s
  ∧ (money (newScene gridSize (localStorage s)) <= money s)%Q
  ∧ localStorage (newScene gridSize (localStorage s)) = localStorage s.
Proof.
  intros Hr.
  pose proof (reachable_synced gridSize s Hr) as Hs.
  pose proof (reachable_synced gridSize _ (reach_reload gridSize s Hr)) as Hn.
  assert (Hl : localStorage (newScene gridSize (localStorage s)) = localStorage s).
  { unfold newScene, loadGame. rewrite initGrid_fresh. simpl.
    destruct (localStorage s) as [doc|]; [|reflexivity]. simpl.
    destruct (initGrid gridSize (Some (gs_grid doc)) (freshGrid gridSize)) as [g [|]];
      reflexivity. }
  unfold synced in Hs, Hn. rewrite Hl in Hn.
  destruct (localStorage s) as [doc|] eqn:Hdoc.
  - destruct Hs as (Hc & Hg & Hp & Hh & Hm), Hn as (Hc' & Hg' & Hp' & Hh' & Hm').
    split_and!; [congruence..| |exact Hl].
    unfold newScene, loadGame. rewrite initGrid_fresh. simpl.
    destruct (initGrid gridSize (Some (gs_grid doc)) (freshGrid gridSize)) as [g [|]];
      simpl; rewrite ?Qplus_0_r_eq; exact Hm.
  - destruct Hs as (Hg & Hc & Hp & Hh & Hm), Hn as (Hg' & Hc' & Hp' & Hh' & Hm').
    split_and!; [congruence..| |exact Hl].
    unfold newScene, loadGame. rewrite initGrid_fresh. simpl. exact Hm.
Qed.

Lemma reload_keeps_town_witness :
  getGridData 8 (grid (newScene 8 (localStorage universityTown)))
  = getGridData 8 (grid universityTown)
  ∧ costs (newScene 8 (localStorage universityTown)) = costs universityTown
  ∧ population (newScene 8 (localStorage universityTown)) = population universityTown
  ∧ happiness (newScene 8 (localStorage universityTown)) = happiness universityTown
  ∧ (money (newScene 8 (localStorage universityTown)) <= money universityTown)%Q
  ∧ localStorage (newScene 8 (localStorage universityTown)) = localStorage universityTown.
Proof.
  exact (reload_keeps_town 8 universityTown universityTown_reachable).
Defined.

(** ** Prices *)

Section Prices.

Variable gridSize : nat.

Lemma costs_clearMultiTile (m : Z * Z) (s : Scene) :
  costs (fst (clearMultiTile m s)) = costs s.
Proof.
  unfold clearMultiTile. destruct (gridAt (grid s) m.1 m.2) as [master|]; [|reflexivity].
  destruct (b_effects (getBuildingConfig (key master))); [|reflexivity].
  destruct (clearCells _ _) as [g ok]. cbn [fst]. unfold set_grid. cbn [costs].
  apply costs_reverseEffects.
Qed.

Lemma costs_finishPlace (row col : Z) (type : string) (multiTile fl : bool)
    (s s' : Scene) (r : PlaceResult) :
  finishPlace gridSize row col type multiTile fl s = (r, s') → costs s' = costs s.
Proof.
  unfold finishPlace, saveGame.
  destruct (negb multiTile); simpl;
    match goal with |- context [getGridData ?n ?g] => destruct (getGridData n g) end;
    simpl; intros [= <- <-]; reflexivity.
Qed.

(** The only write to [costs] in a call of [placeTile] is the one of
    [incrementCost]. *)
Lemma placeTile_costs (row col : Z) (type : string) (s s' : Scene) (r : PlaceResult) :
  placeTile gridSize row col type s = (r, s') →
  costs s' = costs s ∨ costs s' = costs (incrementCost type s).
Proof.
  intros H. unfold placeTile in H.
  destruct (negb (isValidCoord gridSize row col)); [injection H as <- <-; left; reflexivity|].
  destruct (if 1 <? b_size (getBuildingConfig type) then _ else None) as [r0|];
    [injection H as <- <-; left; reflexivity|].
  destruct (gridAt (grid s) row col) as [oldTile|];
    [|injection H as <- <-; left; reflexivity].
  destruct (negb (1 <? b_size (getBuildingConfig type)) && _ && _ && _);
    [injection H as <- <-; left; reflexivity|].
  destruct (String.eqb (key oldTile) type && _ && _);
    [injection H as <- <-; left; reflexivity|].
  destruct (String.eqb (key oldTile) type);
    [left; eapply costs_finishPlace; exact H|].
  match type of H with
  | (if ?b then _ else _) = _ => destruct b; [injection H as <- <-; left; reflexivity|]
  end.
  match type of H with
  | match ?x with Some _ => _ | None => _ end = _ =>
      destruct x; [injection H as <- <-; left; reflexivity|]
  end.
  match type of H with
  | context [clearMultiTile _ ?s1] =>
      assert (Hc1 : costs s1 = costs s ∨ costs s1 = costs (incrementCost type s));
      [ destruct (Qlt_le_dec 0 _);
        [right; apply costs_incrementCost_updateMoney|left; reflexivity]
      | let x := fresh "s1" in set (x := s1) in *; clearbody x ]
  end.
  match type of H with
  | (let '(_, _) := ?x in _) = _ =>
      assert (Hc2 : costs (fst x) = costs s1);
      [ destruct (masterTile oldTile);
        [ apply costs_clearMultiTile
        | destruct (negb _); [destruct (b_effects _)|]; cbn [fst];
          [apply costs_reverseEffects|reflexivity..] ]
      | destruct x as [s2 ok] ]
  end.
  cbn [fst] in Hc2.
  destruct (negb ok); [injection H as <- <-; rewrite Hc2; exact Hc1|].
  destruct (b_effects (getBuildingConfig type));
    [|injection H as <- <-; rewrite Hc2; exact Hc1].
  apply costs_finishPlace in H. rewrite H.
  assert (Hc3 : costs (applyEffects (getBuildingConfig type) s2) = costs s1)
    by (rewrite costs_applyEffects; exact Hc2).
  destruct (1 <? b_size (getBuildingConfig type));
    unfold set_grid; cbn [costs]; rewrite Hc3; exact Hc1.
Qed.

Lemma round_whole_grows (n : Z) :
  (0 < inject_Z n)%Q →
  ∃ m : Z, Js.round (inject_Z n * (11 # 10)) = inject_Z m ∧ (n <= m)%Z.
Proof.
  intros Hpos. unfold Js.round. eexists. split; [reflexivity|].
  rewrite <- (Qfloor_Z n) at 1. apply Qfloor_resp_le. lra.
Qed.

Lemma prices_incrementCost (type : string) (s : Scene) :
  prices_ok (costs s) → prices_ok (costs (incrementCost type s)).
Proof.
  intros Hok. unfold incrementCost.
  destruct (costs s !! type) as [c|] eqn:Hc; [|exact Hok].
  destruct (Qlt_le_dec 0 c) as [Hpos|_]; [|exact Hok].
  simpl. intros t cfg Hcfg. destruct (Hok t cfg Hcfg) as (n & Hn & Hle).
  destruct (decide (type = t)) as [->|Hne].
  - rewrite Hn in Hc. injection Hc as <-.
    destruct (round_whole_grows n Hpos) as (m & -> & Hm).
    exists m. rewrite lookup_insert_eq. split; [reflexivity|].
    rewrite Zle_Qle in Hm. lra.
  - exists n. rewrite lookup_insert_ne by exact Hne. split; assumption.
Qed.

Lemma prices_list : prices_ok registryCosts.
Proof.
  intros type cfg H. unfold BuildingRegistry in H. cbn [registry_get] in H.
  repeat match type of H with
         | (if String.eqb ?k type then _ else _) = _ =>
             destruct (String.eqb_spec k type) as [<-|_];
             [ injection H as <-; exists (Qfloor (b_cost (getBuildingConfig k)));
               split; [vm_compute; reflexivity|vm_compute; discriminate] |]
         end.
  discriminate.
Qed.

Lemma reload_costs (s : Scene) :
  reachable gridSize s → costs (newScene gridSize (localStorage s)) = costs s.
Proof.
  intros Hr.
  pose proof (reachable_synced gridSize s Hr) as Hs.
  pose proof (reachable_synced gridSize _ (reach_reload gridSize s Hr)) as Hn.
  assert (Hl : localStorage (newScene gridSize (localStorage s)) = localStorage s).
  { unfold newScene, loadGame. rewrite initGrid_fresh. simpl.
    destruct (localStorage s) as [doc|]; [|reflexivity]. simpl.
    destruct (initGrid gridSize (Some (gs_grid doc)) (freshGrid gridSize)) as [g [|]];
      reflexivity. }
  unfold synced in Hs, Hn. rewrite Hl in Hn.
  destruct (localStorage s) as [doc|].
  - destruct Hs as (Hc & _), Hn as (Hc' & _). congruence.
  - destruct Hs as (_ & Hc & _), Hn as (_ & Hc' & _). congruence.
Qed.

Lemma reachable_prices (s : Scene) : reachable gridSize s → prices_ok (costs s).
Proof.
  induction 1 as [|s row col type r s' Hr IH Hp|s _ IH|s s' _ IH Ht|s Hr IH].
  - unfold newScene, loadGame. rewrite initGrid_fresh. simpl. apply prices_list.
  - destruct (placeTile_costs row col type s s' r Hp) as [->| ->];
      [exact IH|apply prices_incrementCost; exact IH].
  - exact IH.
  - apply handleTick_frame in Ht as (_ & _ & _ & -> & _). exact IH.
  - rewrite (reload_costs s Hr). exact IH.
Qed.

End Prices.

(** X15.  Prices only go up.  In a scene a player can reach, every type of
    the registry has a cost; that cost is a whole number and is never below
    the list price of the registry.  A call of [placeTile] changes no cost
    but the one of the type it is given, and never lowers it. *)
Theorem prices_never_below_list (gridSize : nat) (s : Scene) :
  reachable gridSize s →
  (∀ type cfg, registry_get BuildingRegistry type = Some cfg →
     ∃ n : Z, costs s !! type = Some (inject_Z n) ∧ (b_cost cfg <= inject_Z n)%Q)
  ∧ (∀ row col type other,
       other ≠ type →
       costs (snd (placeTile gridSize row col type s)) !! other = costs s !! other)
  ∧ (∀ row col type cfg,
       registry_get BuildingRegistry type = Some cfg →
       ∃ n m : Z,
         costs s !! type = Some (inject_Z n)
         ∧ costs (snd (placeTile gridSize row col type s)) !! type = Some (inject_Z m)
         ∧ (n <= m)%Z).
Proof.
  intros Hr. pose proof (reachable_prices gridSize s Hr) as Hok.
  split_and!.
  - exact Hok.
  - intros row col type other Hne.
    destruct (placeTile gridSize row col type s) as [r s'] eqn:Hp.
    destruct (placeTile_costs gridSize row col type s s' r Hp) as [Hc|Hc];
      cbn [snd]; rewrite Hc; [reflexivity|].
    unfold incrementCost. destruct (costs s !! type) as [c|]; [|reflexivity].
    destruct (Qlt_le_dec 0 c); [|reflexivity].
    simpl. apply lookup_insert_ne. congruence.
  - intros row col type cfg Hcfg.
    destruct (Hok type cfg Hcfg) as (n & Hn & _).
    destruct (placeTile gridSize row col type s) as [r s'] eqn:Hp.
    destruct (placeTile_costs gridSize row col type s s' r Hp) as [Hc'|Hc'];
      cbn [snd]; rewrite Hc'.
    + exists n, n. split_and!; [exact Hn|exact Hn|lia].
    + unfold incrementCost. rewrite Hn.
      destruct (Qlt_le_dec 0 (inject_Z n)) as [Hpos|_];
        [|exists n, n; split_and!; [reflexivity|exact Hn|lia]].
      simpl. rewrite lookup_insert_eq.
      destruct (round_whole_grows n Hpos) as (m & -> & Hm).
      exists n, m. split_and!; [reflexivity|reflexivity|exact Hm].
Qed.

Lemma prices_never_below_list_witness :
  (∀ type cfg, registry_get BuildingRegistry type = Some cfg →
     ∃ n : Z, costs universityTown !! type = Some (inject_Z n)
              ∧ (b_cost cfg <= inject_Z n)%Q)
  ∧ (∀ row col type other,
       other ≠ type →
       costs (snd (placeTile 8 row col type universityTown)) !! other
       = costs universityTown !! other)
  ∧ (∀ row col type cfg,
       registry_get BuildingRegistry type = Some cfg →
       ∃ n m : Z,
         costs universityTown !! type = Some (inject_Z n)
         ∧ costs (snd (placeTile 8 row col type universityTown)) !! type
           = Some (inject_Z m)
         ∧ (n <= m)%Z).
Proof.
  exact (prices_never_below_list 8 universityTown universityTown_reachable).
Defined.

(** ** The map of page.tsx *)

Section PageGrid.

Import Page.

Lemma cellAt_alterCell_eq (f : PageTile → PageTile) (g : list (list PageTile)) (y x : Z) :
  cellAt (alterCell f y x g) y x = f <$> cellAt g y x.
Proof.
  unfold cellAt, alterCell.
  destruct ((0 <=? y) && (0 <=? x)); [|reflexivity].
  rewrite list_lookup_alter_eq.
  destruct (g !! Z.to_nat y) as [rw|]; simpl; [|reflexivity].
  apply list_lookup_alter_eq.
Qed.

Lemma cellAt_alterCell_ne (f : PageTile → PageTile) (g : list (list PageTile))
    (y x y' x' : Z) :
  0 <= y → 0 <= x → (y', x') ≠ (y, x) →
  cellAt (alterCell f y x g) y' x' = cellAt g y' x'.
Proof.
  intros Hy Hx Hne. unfold cellAt, alterCell.
  destruct (0 <=? y') eqn:Hy', (0 <=? x') eqn:Hx'; simpl; try reflexivity.
  destruct (decide (Z.to_nat y = Z.to_nat y')) as [Heq|Hneq].
  - rewrite <- Heq, list_lookup_alter_eq.
    destruct (g !! Z.to_nat y) as [rw|]; simpl; [|reflexivity].
    apply list_lookup_alter_ne. intros Hcc. apply Hne. f_equal; lia.
  - rewrite list_lookup_alter_ne by exact Hneq. reflexivity.
Qed.

Lemma alterCell_wf (f : PageTile → PageTile) (y x : Z) (g : list (list PageTile)) :
  page_wf g → page_wf (alterCell f y x g).
Proof.
  intros [Hlen Hrows]. split.
  - unfold alterCell. rewrite length_alter. exact Hlen.
  - unfold alterCell. apply Forall_alter; [exact Hrows|].
    intros rw _ Hrw. rewrite length_alter. exact Hrw.
Qed.

Lemma cellAt_is_Some (g : list (list PageTile)) (y x : Z) :
  page_wf g → is_Some (cellAt g y x) ↔ (0 <= y < GRID_SIZE ∧ 0 <= x < GRID_SIZE).
Proof.
  intros [Hlen Hrows]. rewrite Forall_lookup in Hrows. unfold cellAt. split.
  - intros [t Ht].
    destruct (0 <=? y) eqn:Hy, (0 <=? x) eqn:Hx; simpl in Ht; try discriminate.
    destruct (g !! Z.to_nat y) as [rw|] eqn:Hrow; [|discriminate]. simpl in Ht.
    pose proof (lookup_lt_Some _ _ _ Hrow) as H1.
    pose proof (lookup_lt_Some _ _ _ Ht) as H2.
    rewrite (Hrows _ _ Hrow) in H2. lia.
  - intros [Hy Hx].
    rewrite (proj2 (Z.leb_le 0 y)), (proj2 (Z.leb_le 0 x)) by lia. simpl.
    destruct (lookup_lt_is_Some_2 g (Z.to_nat y)) as [rw Hrow]; [lia|].
    rewrite Hrow. simpl. apply lookup_lt_is_Some_2. rewrite (Hrows _ _ Hrow). lia.
Qed.

(** Two grids of the right shape with the same tiles are the same. *)
Lemma page_ext (g g' : list (list PageTile)) :
  page_wf g → page_wf g' → (∀ y x, cellAt g y x = cellAt g' y x) → g = g'.
Proof.
  intros [Hlen Hrows] [Hlen' Hrows'] Heq.
  rewrite Forall_lookup in Hrows. rewrite Forall_lookup in Hrows'.
  apply list_eq. intros i.
  destruct (g !! i) as [rw|] eqn:Hrow.
  - destruct (lookup_lt_is_Some_2 g' i) as [rw' Hrow'];
      [rewrite Hlen', <- Hlen; eapply lookup_lt_Some; exact Hrow|].
    rewrite Hrow'. f_equal. apply list_eq. intros j.
    specialize (Heq (Z.of_nat i) (Z.of_nat j)). unfold cellAt in Heq.
    rewrite (proj2 (Z.leb_le 0 (Z.of_nat i))) in Heq by lia.
    rewrite (proj2 (Z.leb_le 0 (Z.of_nat j))) in Heq by lia.
    rewrite !Nat2Z.id, Hrow, Hrow' in Heq. exact Heq.
  - symmetry. apply lookup_ge_None_2. rewrite Hlen', <- Hlen.
    apply lookup_ge_None_1. exact Hrow.
Qed.

Lemma cellAt_foldl_alter (F : Z → Z → PageTile → PageTile) (cells : list (Z * Z))
    (g : list (list PageTile)) (y x : Z) :
  NoDup cells →
  Forall (λ d, 0 <= fst d ∧ 0 <= snd d) cells →
  cellAt (foldl (λ g' d, alterCell (F (fst d) (snd d)) (fst d) (snd d) g') g cells) y x
  = if decide ((y, x) ∈ cells) then F y x <$> cellAt g y x else cellAt g y x.
Proof.
  intros Hnd Hpos. revert g.
  induction Hnd as [|[y0 x0] rest Hnotin Hnd IH]; intros g; cbn [foldl fst snd].
  - case_decide as Hin; [inversion Hin|reflexivity].
  - apply Forall_cons in Hpos as [[Hy0 Hx0] Hpos]. simpl in Hy0, Hx0.
    rewrite (IH Hpos).
    destruct (decide ((y, x) = (y0, x0))) as [Heq|Hne].
    + injection Heq as -> ->.
      rewrite (decide_False (P := (y0, x0) ∈ rest)) by exact Hnotin.
      rewrite (decide_True (P := (y0, x0) ∈ (y0, x0) :: rest)) by left.
      apply cellAt_alterCell_eq.
    + rewrite (cellAt_alterCell_ne _ g y0 x0 y x Hy0 Hx0 Hne).
      destruct (decide ((y, x) ∈ rest)) as [Hin|Hnin].
      * rewrite (decide_True (P := (y, x) ∈ (y0, x0) :: rest)) by (right; exact Hin).
        reflexivity.
      * rewrite (decide_False (P := (y, x) ∈ (y0, x0) :: rest)); [reflexivity|].
        intros [?|?]%elem_of_cons; contradiction.
Qed.

Lemma foldl_alterCell_wf (F : Z → Z → PageTile → PageTile) (cells : list (Z * Z))
    (g : list (list PageTile)) :
  page_wf g →
  page_wf (foldl (λ g' d, alterCell (F (fst d) (snd d)) (fst d) (snd d) g') g cells).
Proof.
  revert g. induction cells as [|d rest IH]; intros g Hwf; simpl; [exact Hwf|].
  apply IH, alterCell_wf, Hwf.
Qed.

(** *** The clearing loop *)

Lemma clearBuilding_fold (parentX parentY : Z) (cells : list (Z * Z))
    (g : list (list PageTile)) :
  page_wf g →
  Forall (λ d, 0 <= fst d < GRID_SIZE ∧ 0 <= snd d < GRID_SIZE) cells →
  clearBuilding parentX parentY cells g
  = Some (foldl (λ g' d, alterCell (clearTile parentX parentY (fst d) (snd d))
                           (fst d) (snd d) g') g cells).
Proof.
  intros Hwf Hall. revert g Hwf.
  induction Hall as [|[dy dx] rest Hv Hall IH]; intros g Hwf; simpl; [reflexivity|].
  simpl in Hv. destruct (proj2 (cellAt_is_Some g dy dx Hwf) Hv) as [t Ht]. rewrite Ht.
  apply IH. apply alterCell_wf. exact Hwf.
Qed.

(** On a grid of the right shape the loop ends, and it has replaced by
    bare ground the parent tile and the tiles that refer to it. *)
Lemma clearBuilding_cells (parentX parentY : Z) (g : list (list PageTile)) :
  page_wf g →
  ∃ g', clearBuilding parentX parentY (footprint 0 0 GRID_SIZE) g = Some g'
        ∧ page_wf g'
        ∧ ∀ y x, cellAt g' y x = clearTile parentX parentY y x <$> cellAt g y x.
Proof.
  intros Hwf. eexists. split; [|split].
  - apply clearBuilding_fold; [exact Hwf|].
    apply Forall_forall. intros [dy dx] Hin. apply elem_of_footprint in Hin.
    simpl. lia.
  - apply (foldl_alterCell_wf (clearTile parentX parentY)). exact Hwf.
  - intros y x.
    rewrite (cellAt_foldl_alter (clearTile parentX parentY));
      [|apply NoDup_footprint|].
    + case_decide as Hin; [reflexivity|].
      destruct (cellAt g y x) as [t|] eqn:Ht; [|reflexivity].
      exfalso. apply Hin. apply elem_of_footprint.
      assert (is_Some (cellAt g y x)) as Hs by (rewrite Ht; eauto).
      apply (cellAt_is_Some g y x Hwf) in Hs. lia.
    + apply Forall_forall. intros [dy dx] Hin. apply elem_of_footprint in Hin.
      simpl. lia.
Qed.

End PageGrid.

(** ** Clicks on the map *)

Section PageClicks.

Import Page.

(** *** Placing *)

Lemma markOccupied_fold (gridX gridY : Z) (offsets : list (Z * Z))
    (g : list (list PageTile)) :
  markOccupied gridX gridY offsets g
  = foldl (λ g' d, alterCell ((λ y x, if (x =? gridX) && (y =? gridY)
                                      then (λ t, t) else (λ _, coveredTile gridX gridY))
                                (fst d) (snd d)) (fst d) (snd d) g')
      g ((λ d, (gridY + fst d, gridX + snd d)) <$> offsets).
Proof.
  unfold markOccupied. revert g.
  induction offsets as [|[dy dx] rest IH]; intros g; [reflexivity|].
  cbn [foldl fmap list_fmap fst snd]. rewrite <- IH. f_equal.
  replace (gridX + dx =? gridX) with (dx =? 0) by lia.
  replace (gridY + dy =? gridY) with (dy =? 0) by lia.
  destruct ((dx =? 0) && (dy =? 0)); [|reflexivity].
  unfold alterCell. symmetry. apply list_alter_id. intros row.
  apply list_alter_id. reflexivity.
Qed.

Lemma elem_of_shifted_footprint (gridX gridY size y x : Z) :
  (y, x) ∈ (λ d : Z * Z, (gridY + fst d, gridX + snd d)) <$> footprint 0 0 size
  ↔ (y, x) ∈ footprint gridY gridX size.
Proof.
  rewrite list_elem_of_fmap, elem_of_footprint. split.
  - intros ([dy dx] & [= -> ->] & Hin). apply elem_of_footprint in Hin. simpl. lia.
  - intros [Hy Hx]. exists (y - gridY, x - gridX). split; [simpl; f_equal; lia|].
    apply elem_of_footprint. lia.
Qed.

Lemma markOccupied_wf (gridX gridY : Z) (offsets : list (Z * Z))
    (g : list (list PageTile)) :
  page_wf g → page_wf (markOccupied gridX gridY offsets g).
Proof.
  intros Hwf. rewrite markOccupied_fold.
  apply (foldl_alterCell_wf
           (λ y x, if (x =? gridX) && (y =? gridY)
                   then (λ t, t) else (λ _, coveredTile gridX gridY))).
  exact Hwf.
Qed.

(** The grid after the two writes of a placement: the parent tile at the
    clicked cell, covered tiles on the rest of the footprint. *)
Lemma place_cells (g : list (list PageTile)) (gridX gridY size : Z) (type : string)
    (now : Z) (y x : Z) :
  0 <= gridX → 0 <= gridY →
  cellAt (markOccupied gridX gridY (footprint 0 0 size)
            (alterCell (λ _, buildingTile type now) gridY gridX g)) y x
  = if decide ((y, x) = (gridY, gridX))
    then (λ _, buildingTile type now) <$> cellAt g y x
    else if decide ((y, x) ∈ footprint gridY gridX size)
         then (λ _, coveredTile gridX gridY) <$> cellAt g y x
         else cellAt g y x.
Proof.
  intros HX HY. rewrite markOccupied_fold.
  rewrite (cellAt_foldl_alter
             (λ y x, if (x =? gridX) && (y =? gridY)
                     then (λ t, t) else (λ _, coveredTile gridX gridY))).
  - destruct (decide ((y, x) = (gridY, gridX))) as [Heq|Hne].
    + injection Heq as -> ->. rewrite !Z.eqb_refl. cbn [andb].
      rewrite cellAt_alterCell_eq.
      destruct (cellAt g gridY gridX); case_decide; reflexivity.
    + rewrite (cellAt_alterCell_ne _ g gridY gridX y x HY HX Hne).
      assert (Htest : (x =? gridX) && (y =? gridY) = false).
      { apply andb_false_iff.
        destruct (Z.eqb_spec x gridX) as [->|]; [right|left; reflexivity].
        apply Z.eqb_neq. congruence. }
      rewrite Htest.
      destruct (decide ((y, x) ∈ footprint gridY gridX size)) as [Hin|Hnin].
      * rewrite decide_True by (apply elem_of_shifted_footprint; exact Hin). reflexivity.
      * rewrite decide_False; [reflexivity|].
        intros Hin. apply Hnin. apply elem_of_shifted_footprint. exact Hin.
  - apply NoDup_fmap_2; [|apply NoDup_footprint].
    intros [a b] [c d] [= H1 H2]. f_equal; lia.
  - apply Forall_forall. intros [y0 x0] Hin.
    apply elem_of_shifted_footprint, elem_of_footprint in Hin. simpl. lia.
Qed.

(** *** canPlace *)

Lemma canPlaceFrom_true (g : list (list PageTile)) (gridX gridY : Z)
    (offsets : list (Z * Z)) :
  canPlaceFrom g gridX gridY offsets = Some true →
  ∀ dy dx, (dy, dx) ∈ offsets →
    gridX + dx < GRID_SIZE ∧ gridY + dy < GRID_SIZE
    ∧ ∃ t, cellAt g (gridY + dy) (gridX + dx) = Some t
           ∧ pt_building t = "grass"%string ∧ pt_occupied t = false.
Proof.
  induction offsets as [|[dy0 dx0] rest IH]; intros H dy dx Hin; [inversion Hin|].
  cbn [canPlaceFrom] in H. cbv zeta in H.
  destruct ((GRID_SIZE <=? gridX + dx0) || (GRID_SIZE <=? gridY + dy0)) eqn:Hb;
    [discriminate|].
  apply orb_false_iff in Hb as [Hbx Hby].
  destruct (cellAt g (gridY + dy0) (gridX + dx0)) as [t|] eqn:Ht; [|discriminate].
  destruct (negb (String.eqb (pt_building t) "grass") || pt_occupied t) eqn:Hfree;
    [discriminate|].
  apply orb_false_iff in Hfree as [Hgrass Hocc].
  apply negb_false_iff, String.eqb_eq in Hgrass.
  apply elem_of_cons in Hin as [[= -> ->]|Hin].
  - split_and!; [lia|lia|]. exists t. auto.
  - apply IH; assumption.
Qed.

Lemma canPlaceFrom_total (g : list (list PageTile)) (gridX gridY : Z)
    (offsets : list (Z * Z)) :
  page_wf g → 0 <= gridX → 0 <= gridY →
  Forall (λ d, 0 <= fst d ∧ 0 <= snd d) offsets →
  is_Some (canPlaceFrom g gridX gridY offsets).
Proof.
  intros Hwf HX HY Hall.
  induction Hall as [|[dy dx] rest [Hdy Hdx] _ IH]; [eexists; reflexivity|].
  simpl in Hdy, Hdx. cbn [canPlaceFrom]. cbv zeta.
  destruct ((GRID_SIZE <=? gridX + dx) || (GRID_SIZE <=? gridY + dy)) eqn:Hb;
    [eexists; reflexivity|].
  apply orb_false_iff in Hb as [Hbx Hby].
  destruct (proj2 (cellAt_is_Some g (gridY + dy) (gridX + dx) Hwf)) as [t Ht]; [lia|].
  rewrite Ht. destruct (negb _ || _); [eexists; reflexivity|exact IH].
Qed.

(** What a successful [canPlace] tells about the footprint. *)
Lemma canPlace_true (g : list (list PageTile)) (gridX gridY size : Z) :
  canPlace g gridX gridY size = Some true →
  ∀ y x, (y, x) ∈ footprint gridY gridX size →
    x < GRID_SIZE ∧ y < GRID_SIZE
    ∧ ∃ t, cellAt g y x = Some t
           ∧ pt_building t = "grass"%string ∧ pt_occupied t = false.
Proof.
  intros H y x Hin. apply elem_of_footprint in Hin.
  pose proof (canPlaceFrom_true g gridX gridY _ H (y - gridY) (x - gridX)) as Hc.
  replace (gridX + (x - gridX)) with x in Hc by lia.
  replace (gridY + (y - gridY)) with y in Hc by lia.
  apply Hc. apply elem_of_footprint. lia.
Qed.

(** *** The tools of the bar *)

Lemma tools_facts (tool : Tool) :
  tool ∈ TOOLS →
  (0 <= tool_cost tool)%Q
  ∧ ((tool_type tool = "bulldoze"%string)
     ∨ (String.eqb (tool_type tool) "bulldoze" = false
        ∧ tool_type tool ≠ "grass"%string ∧ tool_type tool ≠ "empty"%string
        ∧ 1 <= tool_size tool)).
Proof.
  unfold TOOLS. intros H.
  repeat (apply elem_of_cons in H as [->|H]);
    [..|inversion H]; simpl;
    (split; [discriminate|]);
    first [left; reflexivity
          |right; split_and!; [reflexivity|discriminate|discriminate|lia]].
Qed.

Lemma tile_ok_refersTo (g : list (list PageTile)) (m : PageTile) (px py : Z) :
  tile_ok g m → pt_building m ≠ "grass"%string → refersTo m px py = false.
Proof.
  intros [->|[(_ & _ & Hx & Hy)|(qx & qy & m' & -> & _)]] Hb.
  - reflexivity.
  - unfold refersTo. rewrite Hx. reflexivity.
  - exfalso. apply Hb. reflexivity.
Qed.

(** *** The invariant *)

Lemma page_inv_start : page_inv (mkPageState createEmptyGrid STARTING_MONEY).
Proof.
  split_and!; simpl.
  - unfold page_wf, createEmptyGrid. split; [apply length_replicate|].
    apply Forall_replicate. apply length_replicate.
  - intros y x t Ht. left. unfold cellAt, createEmptyGrid in Ht.
    destruct ((0 <=? y) && (0 <=? x)); [|discriminate].
    destruct (replicate _ _ !! Z.to_nat y) as [rw|] eqn:Hrow; [|discriminate].
    apply lookup_replicate in Hrow as [-> _].
    change (replicate (Z.to_nat GRID_SIZE) plainGrass !! Z.to_nat x = Some t) in Ht.
    apply lookup_replicate in Ht as [-> _]. reflexivity.
  - discriminate.
Qed.

Lemma click_place_inv (tool : Tool) (now gridX gridY : Z) (st : PageState) :
  page_inv st →
  String.eqb (tool_type tool) "bulldoze" = false →
  tool_type tool ≠ "grass"%string → 1 <= tool_size tool → (0 <= tool_cost tool)%Q →
  ∃ st', handleClick tool now gridX gridY st = Some st' ∧ page_inv st'.
Proof.
  intros Hinv Htool Hgrass Hsize Hcost. pose proof Hinv as (Hwf & Htiles & Hmoney).
  unfold handleClick.
  destruct ((gridX <? 0) || (GRID_SIZE <=? gridX) || (gridY <? 0) || (GRID_SIZE <=? gridY))
    eqn:Hb; [exists st; auto|].
  repeat (apply orb_false_iff in Hb as [Hb ?]).
  rewrite Htool. cbv zeta.
  destruct (canPlaceFrom_total (pg_grid st) gridX gridY
              (footprint 0 0 (tool_size tool)) Hwf) as [ok Hok]; [lia|lia| |].
  { apply Forall_forall. intros [dy dx] Hin. apply elem_of_footprint in Hin. simpl. lia. }
  unfold canPlace at 1. rewrite Hok.
  destruct ok; [|exists st; auto].
  destruct (Qlt_le_dec (pg_money st) (tool_cost tool)) as [|Hpay]; cbn [andb];
    [exists st; auto|].
  eexists. split; [reflexivity|].
  pose proof (canPlace_true _ _ _ _ Hok) as Hfree.
  assert (Hanchor : (gridY, gridX) ∈ footprint gridY gridX (tool_size tool))
    by (apply elem_of_footprint; lia).
  destruct (Hfree _ _ Hanchor) as (_ & _ & t0 & Ht0 & _).
  split_and!; cbn [pg_grid pg_money].
  - apply markOccupied_wf, alterCell_wf, Hwf.
  - intros y x t Ht. rewrite place_cells in Ht by lia.
    destruct (decide ((y, x) = (gridY, gridX))) as [Heq|Hne].
    + injection Heq as -> ->. rewrite Ht0 in Ht. injection Ht as <-.
      right; left. simpl. auto.
    + destruct (decide ((y, x) ∈ footprint gridY gridX (tool_size tool))) as [Hin|Hnin].
      * destruct (Hfree _ _ Hin) as (_ & _ & t1 & Ht1 & _).
        rewrite Ht1 in Ht. injection Ht as <-.
        right; right. exists gridX, gridY, (buildingTile (tool_type tool) now).
        split_and!; [reflexivity| |exact Hgrass].
        rewrite place_cells by lia. rewrite decide_True by reflexivity.
        rewrite Ht0. reflexivity.
      * destruct (Htiles y x t Ht) as [->|[Hm|(px & py & m & -> & Hm & Hbld)]].
        -- left. reflexivity.
        -- right; left. exact Hm.
        -- right; right.
           destruct (decide ((py, px) = (gridY, gridX))) as [Hp|Hp].
           { injection Hp as -> ->. rewrite Ht0 in Hm. injection Hm as <-.
             exists gridX, gridY, (buildingTile (tool_type tool) now).
             split_and!; [reflexivity| |exact Hgrass].
             rewrite place_cells by lia. rewrite decide_True by reflexivity.
             rewrite Ht0. reflexivity. }
           exists px, py, m. split_and!; [reflexivity| |exact Hbld].
           rewrite place_cells by lia. rewrite decide_False by exact Hp.
           rewrite decide_False; [exact Hm|].
           intros Hin. destruct (Hfree _ _ Hin) as (_ & _ & t1 & Ht1 & Hg1 & _).
           rewrite Ht1 in Hm. injection Hm as <-. contradiction.
  - lra.
Qed.

Lemma click_bulldoze_inv (tool : Tool) (now gridX gridY : Z) (st : PageState) :
  page_inv st →
  tool_type tool = "bulldoze"%string → (0 <= tool_cost tool)%Q →
  ∃ st', handleClick tool now gridX gridY st = Some st' ∧ page_inv st'.
Proof.
  intros Hinv Htool Hcost. pose proof Hinv as (Hwf & Htiles & Hmoney).
  unfold handleClick.
  destruct ((gridX <? 0) || (GRID_SIZE <=? gridX) || (gridY <? 0) || (GRID_SIZE <=? gridY))
    eqn:Hb; [exists st; auto|].
  repeat (apply orb_false_iff in Hb as [Hb ?]).
  rewrite Htool. cbn [String.eqb Ascii.eqb Bool.eqb]. cbv zeta.
  destruct (proj2 (cellAt_is_Some (pg_grid st) gridY gridX Hwf)) as [tile Htile]; [lia|].
  rewrite Htile.
  assert (Hparent : ∃ parentTile,
             cellAt (pg_grid st) (default gridY (pt_parentY tile))
               (default gridX (pt_parentX tile)) = Some parentTile).
  { destruct (Htiles _ _ _ Htile) as [->|[(_ & _ & -> & ->)|(px & py & m & -> & Hm & _)]];
      simpl; eauto. }
  destruct Hparent as [parentTile Hparent]. rewrite Hparent.
  set (parentX := default gridX (pt_parentX tile)) in *.
  set (parentY := default gridY (pt_parentY tile)) in *.
  destruct (negb _ && negb _); [|exists st; auto].
  destruct (Qlt_le_dec (pg_money st) (tool_cost tool)) as [|Hpay]; [exists st; auto|].
  destruct (clearBuilding_cells parentX parentY (pg_grid st) Hwf)
    as (g' & -> & Hwf' & Hcells).
  eexists. split; [reflexivity|].
  split_and!; cbn [pg_grid pg_money]; [exact Hwf'| |lra].
  intros y x t Ht. rewrite Hcells in Ht.
  destruct (cellAt (pg_grid st) y x) as [t0|] eqn:Ht0; [|discriminate].
  simpl in Ht. injection Ht as <-. unfold clearTile.
  destruct (refersTo t0 parentX parentY || ((x =? parentX) && (y =? parentY))) eqn:Htest;
    [left; reflexivity|].
  apply orb_false_iff in Htest as [Href _].
  destruct (Htiles _ _ _ Ht0) as [->|[Hm|(qx & qy & m & -> & Hm & Hbld)]].
  - left. reflexivity.
  - right; left. exact Hm.
  - right; right. exists qx, qy, m. split_and!; [reflexivity| |exact Hbld].
    rewrite Hcells, Hm. simpl. f_equal. unfold clearTile.
    rewrite (tile_ok_refersTo (pg_grid st) m parentX parentY (Htiles _ _ _ Hm) Hbld).
    unfold refersTo in Href. simpl in Href. rewrite Href. reflexivity.
Qed.

Lemma click_inv (tool : Tool) (now gridX gridY : Z) (st : PageState) :
  page_inv st → tool ∈ TOOLS →
  ∃ st', handleClick tool now gridX gridY st = Some st' ∧ page_inv st'.
Proof.
  intros Hinv Hin. destruct (tools_facts tool Hin) as [Hcost [Hb|(Hb & Hg & _ & Hs)]].
  - apply click_bulldoze_inv; assumption.
  - apply click_place_inv; assumption.
Qed.

Lemma page_reachable_inv (st : PageState) : page_reachable st → page_inv st.
Proof.
  induction 1 as [|st tool now gridX gridY st' _ IH Hin Hclick].
  - apply page_inv_start.
  - destruct (click_inv tool now gridX gridY st IH Hin) as (st'' & Hc & Hinv).
    rewrite Hclick in Hc. injection Hc as <-. exact Hinv.
Qed.

End PageClicks.

Section PageTheorems.

Import Page.

Lemma free_is_plain (g : list (list PageTile)) (t : PageTile) :
  tile_ok g t → pt_building t = "grass"%string → pt_occupied t = false → t = plainGrass.
Proof.
  intros [->|[(Hb & _)|(px & py & m & -> & _)]] Hg Ho.
  - reflexivity.
  - contradiction.
  - discriminate.
Qed.

Lemma click_place_ok (tool : Tool) (now gridX gridY : Z) (st : PageState) :
  0 <= gridX < GRID_SIZE → 0 <= gridY < GRID_SIZE →
  String.eqb (tool_type tool) "bulldoze" = false →
  canPlace (pg_grid st) gridX gridY (tool_size tool) = Some true →
  (tool_cost tool <= pg_money st)%Q →
  handleClick tool now gridX gridY st
  = Some (mkPageState
            (markOccupied gridX gridY (footprint 0 0 (tool_size tool))
               (alterCell (λ _, buildingTile (tool_type tool) now) gridY gridX
                  (pg_grid st)))
            (pg_money st - tool_cost tool)%Q).
Proof.
  intros HX HY Htool Hcan Hpay. unfold handleClick.
  assert (Hb : (gridX <? 0) || (GRID_SIZE <=? gridX) || (gridY <? 0)
               || (GRID_SIZE <=? gridY) = false)
    by (rewrite !orb_false_iff; lia).
  rewrite Hb, Htool. cbv zeta. rewrite Hcan.
  destruct (Qlt_le_dec (pg_money st) (tool_cost tool)) as [Hlt|_]; [lra|reflexivity].
Qed.

Lemma click_bulldoze_ok (tool : Tool) (now gridX gridY : Z) (st : PageState)
    (tile parentTile : PageTile) (g' : list (list PageTile)) :
  0 <= gridX < GRID_SIZE → 0 <= gridY < GRID_SIZE →
  tool_type tool = "bulldoze"%string →
  cellAt (pg_grid st) gridY gridX = Some tile →
  cellAt (pg_grid st) (default gridY (pt_parentY tile)) (default gridX (pt_parentX tile))
  = Some parentTile →
  pt_building parentTile ≠ "grass"%string → pt_building parentTile ≠ "empty"%string →
  (tool_cost tool <= pg_money st)%Q →
  clearBuilding (default gridX (pt_parentX tile)) (default gridY (pt_parentY tile))
    (footprint 0 0 GRID_SIZE) (pg_grid st) = Some g' →
  handleClick tool now gridX gridY st
  = Some (mkPageState g' (pg_money st - tool_cost tool)%Q).
Proof.
  intros HX HY Htool Htile Hparent Hg He Hpay Hclear. unfold handleClick.
  assert (Hb : (gridX <? 0) || (GRID_SIZE <=? gridX) || (gridY <? 0)
               || (GRID_SIZE <=? gridY) = false)
    by (rewrite !orb_false_iff; lia).
  rewrite Hb, Htool. cbn [String.eqb Ascii.eqb Bool.eqb]. cbv zeta.
  rewrite Htile, Hparent.
  apply String.eqb_neq in Hg, He. rewrite Hg, He. cbn [negb andb].
  destruct (Qlt_le_dec (pg_money st) (tool_cost tool)) as [Hlt|_]; [lra|].
  rewrite Hclear. reflexivity.
Qed.

End PageTheorems.

(** X16.  On the map of page.tsx no click throws and the map stays sound.
    In every state reached from the empty map by clicks with tools of the
    bar, the grid has [GRID_SIZE] rows of [GRID_SIZE] tiles; every tile is
    bare ground, the parent tile of a building, or a tile covered by a
    building whose parent tile it names; the balance is not negative; and
    the next click, with any tool of the bar at any cell, returns. *)
Theorem page_clicks_keep_map_sound (st : Page.PageState) :
  Page.page_reachable st →
  Page.page_wf (Page.pg_grid st)
  ∧ (∀ y x t, Page.cellAt (Page.pg_grid st) y x = Some t
              → Page.tile_ok (Page.pg_grid st) t)
  ∧ (0 <= Page.pg_money st)%Q
  ∧ ∀ tool now gridX gridY,
      tool ∈ Page.TOOLS → is_Some (Page.handleClick tool now gridX gridY st).
Proof.
  intros Hr. pose proof (page_reachable_inv st Hr) as Hinv.
  destruct Hinv as (Hwf & Htiles & Hmoney). split_and!; [assumption..|].
  intros tool now gridX gridY Hin.
  destruct (click_inv tool now gridX gridY st (conj Hwf (conj Htiles Hmoney)) Hin)
    as (st' & -> & _).
  eexists. reflexivity.
Qed.

Lemma shopPlaced_reachable : Page.page_reachable Page.shopPlaced.
Proof.
  apply (Page.page_click Page.startState Page.shopTool 0 3 4).
  - apply Page.page_start.
  - unfold Page.TOOLS, Page.shopTool. do 2 right. left.
  - vm_compute. reflexivity.
Qed.

Lemma page_clicks_keep_map_sound_witness :
  Page.page_wf (Page.pg_grid Page.shopPlaced)
  ∧ (∀ y x t, Page.cellAt (Page.pg_grid Page.shopPlaced) y x = Some t
              → Page.tile_ok (Page.pg_grid Page.shopPlaced) t)
  ∧ (0 <= Page.pg_money Page.shopPlaced)%Q
  ∧ ∀ tool now gridX gridY,
      tool ∈ Page.TOOLS
      → is_Some (Page.handleClick tool now gridX gridY Page.shopPlaced).
Proof.
  exact (page_clicks_keep_map_sound Page.shopPlaced shopPlaced_reachable).
Defined.

(** X17.  Bulldozing gives the ground back whatever cell of the building
    is clicked.  In a reachable state, after a placement that went through
    (the footprint was free and the tool was affordable), a click with the
    bulldozer on any cell of the footprint restores the grid as it was
    before the placement; the player has paid the price of the building and
    the fee of the bulldozer. *)
Theorem bulldoze_undoes_placement (st : Page.PageState) (tool : Page.Tool)
    (now now' gridX gridY cx cy : Z) :
  Page.page_reachable st →
  tool ∈ Page.TOOLS → Page.tool_type tool ≠ "bulldoze"%string →
  0 <= gridX < Page.GRID_SIZE → 0 <= gridY < Page.GRID_SIZE →
  Page.canPlace (Page.pg_grid st) gridX gridY (Page.tool_size tool) = Some true →
  (Page.tool_cost tool + Page.tool_cost Page.bulldozeTool <= Page.pg_money st)%Q →
  (cy, cx) ∈ footprint gridY gridX (Page.tool_size tool) →
  ∃ st1,
    Page.handleClick tool now gridX gridY st = Some st1
    ∧ Page.cellAt (Page.pg_grid st1) gridY gridX
      = Some (Page.buildingTile (Page.tool_type tool) now)
    ∧ Page.pg_money st1 = (Page.pg_money st - Page.tool_cost tool)%Q
    ∧ Page.handleClick Page.bulldozeTool now' cx cy st1
      = Some (Page.mkPageState (Page.pg_grid st)
                (Page.pg_money st - Page.tool_cost tool
                 - Page.tool_cost Page.bulldozeTool)%Q).
Proof.
  intros Hr Hin Hnb HX HY Hcan Hpay Hcell.
  destruct (page_reachable_inv st Hr) as (Hwf & Htiles & Hmoney).
  destruct (tools_facts tool Hin) as [Hcost [Hb|(Hb & Hg & He & Hs)]]; [contradiction|].
  pose proof (canPlace_true _ _ _ _ Hcan) as Hfree.
  assert (Hanchor : (gridY, gridX) ∈ footprint gridY gridX (Page.tool_size tool))
    by (apply elem_of_footprint; lia).
  destruct (Hfree _ _ Hanchor) as (_ & _ & t0 & Ht0 & Hg0 & Ho0).
  pose proof (free_is_plain _ _ (Htiles _ _ _ Ht0) Hg0 Ho0) as Hplain0. subst t0.
  change (Page.tool_cost Page.bulldozeTool) with 5%Q in *.
  set (g1 := Page.markOccupied gridX gridY (footprint 0 0 (Page.tool_size tool))
               (Page.alterCell (λ _, Page.buildingTile (Page.tool_type tool) now)
                  gridY gridX (Page.pg_grid st))).
  assert (Hwf1 : Page.page_wf g1) by (apply markOccupied_wf, alterCell_wf, Hwf).
  assert (Hg1 : ∀ y x,
             Page.cellAt g1 y x
             = if decide ((y, x) = (gridY, gridX))
               then Some (Page.buildingTile (Page.tool_type tool) now)
               else if decide ((y, x) ∈ footprint gridY gridX (Page.tool_size tool))
                    then Some (Page.coveredTile gridX gridY)
                    else Page.cellAt (Page.pg_grid st) y x).
  { intros y x. subst g1. rewrite place_cells by lia.
    destruct (decide ((y, x) = (gridY, gridX))) as [Heq|Hne].
    - injection Heq as -> ->. rewrite Ht0. reflexivity.
    - destruct (decide ((y, x) ∈ footprint gridY gridX (Page.tool_size tool)))
        as [Hi|Hi]; [|reflexivity].
      destruct (Hfree _ _ Hi) as (_ & _ & t1 & -> & _). reflexivity. }
  exists (Page.mkPageState g1 (Page.pg_money st - Page.tool_cost tool)%Q).
  split_and!.
  - apply click_place_ok; try assumption. lra.
  - cbn [Page.pg_grid]. rewrite Hg1. rewrite decide_True by reflexivity. reflexivity.
  - reflexivity.
  - destruct (clearBuilding_cells gridX gridY g1 Hwf1) as (g2 & Hclear & Hwf2 & Hg2).
    assert (Hback : g2 = Page.pg_grid st).
    { apply page_ext; [exact Hwf2|exact Hwf|]. intros y x.
      rewrite Hg2, Hg1. unfold Page.clearTile.
      destruct (decide ((y, x) = (gridY, gridX))) as [Heq|Hne].
      - injection Heq as -> ->. rewrite Ht0. simpl.
        rewrite !Z.eqb_refl. reflexivity.
      - destruct (decide ((y, x) ∈ footprint gridY gridX (Page.tool_size tool)))
          as [Hi|Hi].
        + destruct (Hfree _ _ Hi) as (_ & _ & t1 & Ht1 & Hgr1 & Ho1).
          rewrite (free_is_plain _ _ (Htiles _ _ _ Ht1) Hgr1 Ho1) in Ht1.
          rewrite Ht1. cbn [fmap option_fmap option_map].
          unfold Page.refersTo, Page.coveredTile.
          cbn [Page.pt_parentX Page.pt_parentY]. rewrite !Z.eqb_refl. reflexivity.
        + destruct (Page.cellAt (Page.pg_grid st) y x) as [t|] eqn:Ht; [|reflexivity].
          simpl. f_equal.
          assert (Hpos : (x =? gridX) && (y =? gridY) = false).
          { apply andb_false_iff.
            destruct (Z.eqb_spec x gridX) as [->|]; [right|left; reflexivity].
            apply Z.eqb_neq. congruence. }
          rewrite Hpos, orb_false_r.
          destruct (Htiles _ _ _ Ht) as [->|[(_ & _ & Hpx & _)|(px & py & m & -> & Hm & Hbm)]].
          * reflexivity.
          * unfold Page.refersTo. rewrite Hpx. reflexivity.
          * unfold Page.refersTo. simpl.
            destruct ((px =? gridX) && (py =? gridY)) eqn:Href; [|reflexivity].
            apply andb_true_iff in Href as [Hpx Hpy].
            apply Z.eqb_eq in Hpx, Hpy. subst px py.
            rewrite Ht0 in Hm. injection Hm as <-. exfalso. apply Hbm. reflexivity. }
    subst g2.
    assert (Hcxy : 0 <= cx < Page.GRID_SIZE ∧ 0 <= cy < Page.GRID_SIZE).
    { destruct (Hfree _ _ Hcell) as (? & ? & _). apply elem_of_footprint in Hcell. lia. }
    destruct (decide ((cy, cx) = (gridY, gridX))) as [Heq|Hne].
    + injection Heq as -> ->.
      apply (click_bulldoze_ok Page.bulldozeTool now' gridX gridY
               (Page.mkPageState g1 (Page.pg_money st - Page.tool_cost tool)%Q)
               (Page.buildingTile (Page.tool_type tool) now)
               (Page.buildingTile (Page.tool_type tool) now) (Page.pg_grid st));
        cbn [Page.pg_grid Page.pg_money Page.buildingTile Page.pt_parentX
             Page.pt_parentY Page.pt_building default];
        try assumption; try reflexivity; try lia.
      * rewrite Hg1, decide_True by reflexivity. reflexivity.
      * rewrite Hg1, decide_True by reflexivity. reflexivity.
      * change (Page.tool_cost Page.bulldozeTool) with 5%Q. lra.
    + apply (click_bulldoze_ok Page.bulldozeTool now' cx cy
               (Page.mkPageState g1 (Page.pg_money st - Page.tool_cost tool)%Q)
               (Page.coveredTile gridX gridY)
               (Page.buildingTile (Page.tool_type tool) now) (Page.pg_grid st));
        cbn [Page.pg_grid Page.pg_money Page.buildingTile Page.coveredTile
             Page.pt_parentX Page.pt_parentY Page.pt_building default];
        try assumption; try reflexivity; try lia.
      * rewrite Hg1, decide_False, decide_True by assumption. reflexivity.
      * rewrite Hg1, decide_True by reflexivity. reflexivity.
      * change (Page.tool_cost Page.bulldozeTool) with 5%Q. lra.
Qed.

Lemma bulldoze_undoes_placement_witness :
  ∃ st1,
    Page.handleClick Page.shopTool 7 3 4 Page.startState = Some st1
    ∧ Page.cellAt (Page.pg_grid st1) 4 3
      = Some (Page.buildingTile (Page.tool_type Page.shopTool) 7)
    ∧ Page.pg_money st1
      = (Page.pg_money Page.startState - Page.tool_cost Page.shopTool)%Q
    ∧ Page.handleClick Page.bulldozeTool 9 4 5 st1
      = Some (Page.mkPageState (Page.pg_grid Page.startState)
                (Page.pg_money Page.startState - Page.tool_cost Page.shopTool
                 - Page.tool_cost Page.bulldozeTool)%Q).
Proof.
  refine (bulldoze_undoes_placement Page.startState Page.shopTool 7 9 3 4 4 5
            Page.page_start _ _ _ _ _ _ _).
  - unfold Page.TOOLS, Page.shopTool. do 2 right. left.
  - discriminate.
  - unfold Page.GRID_SIZE. lia.
  - unfold Page.GRID_SIZE. lia.
  - vm_compute. reflexivity.
  - vm_compute. discriminate.
  - apply elem_of_footprint. simpl. lia.
Defined.
